(** * Web-Chat-P2P: the room chat component, embedded and verified

    A shallow embedding of the React component [ReliableP2PChatApp]
    (peer-to-peer room chat over WebRTC with a polled signaling server).

    The component's handlers are translated one by one.  What the browser
    decides (the clock, [Math.random], the outcome of [fetch] and of the
    WebRTC promises) is read from oracles stored in the state, so every
    handler is an executable function. *)

From Stdlib Require Import String Ascii List Bool Arith NArith Lia.
From Stdlib Require Import DecimalString.
Import ListNotations.
Open Scope string_scope.
Open Scope nat_scope.

Set Implicit Arguments.
Set Warnings "-register-all".

(* ================================================================== *)
(** * Strings as the code uses them *)

(** Strings are byte strings holding UTF-8.  [substring] and [length]
    count bytes where JavaScript counts UTF-16 code units; the two agree
    on the ASCII peer identifiers the application generates. *)

Definition dquote : ascii := "034"%char.
Definition backslash : ascii := "\"%char.

Definition string_of_nat (n : nat) : string :=
  NilEmpty.string_of_uint (Nat.to_uint n).

Definition string_of_N (n : N) : string :=
  NilEmpty.string_of_uint (N.to_uint n).

Fixpoint string_rev_onto (s acc : string) : string :=
  match s with
  | EmptyString => acc
  | String c r => string_rev_onto r (String c acc)
  end.

Definition string_rev (s : string) : string := string_rev_onto s EmptyString.

(** [String.prototype.trim]: the ECMAScript WhiteSpace and LineTerminator
    code points, in their UTF-8 encoding: the six ASCII ones, U+00A0 on
    two bytes ([ws2]) and the others on three ([ws3]). *)

Definition ascii_ws (c : ascii) : bool :=
  let n := nat_of_ascii c in
  (n =? 9) || (n =? 10) || (n =? 11) || (n =? 12) || (n =? 13) || (n =? 32).

Definition ws3 (a b c : nat) : bool :=
  ((a =? 225) && (b =? 154) && (c =? 128))                       (* U+1680 *)
  || ((a =? 226) && (b =? 128) && (128 <=? c) && (c <=? 138))    (* U+2000..U+200A *)
  || ((a =? 226) && (b =? 128) && ((c =? 168) || (c =? 169) || (c =? 175)))
                                                 (* U+2028, U+2029, U+202F *)
  || ((a =? 226) && (b =? 129) && (c =? 159))                    (* U+205F *)
  || ((a =? 227) && (b =? 128) && (c =? 128))                    (* U+3000 *)
  || ((a =? 239) && (b =? 187) && (c =? 191)).                   (* U+FEFF *)

Definition ws2 (a b : nat) : bool := (a =? 194) && (b =? 160).    (* U+00A0 *)

Fixpoint trimStart (s : string) : string :=
  match s with
  | String a r =>
      if ascii_ws a then trimStart r
      else match r with
           | String b r' =>
               if ws2 (nat_of_ascii a) (nat_of_ascii b) then trimStart r'
               else match r' with
                    | String c r'' =>
                        if ws3 (nat_of_ascii a) (nat_of_ascii b) (nat_of_ascii c)
                        then trimStart r'' else s
                    | EmptyString => s
                    end
           | EmptyString => s
           end
  | EmptyString => s
  end.

(** The same scan on the reversed string: the bytes of a character come
    last byte first. *)
Fixpoint trimStart_rev (s : string) : string :=
  match s with
  | String a r =>
      if ascii_ws a then trimStart_rev r
      else match r with
           | String b r' =>
               if ws2 (nat_of_ascii b) (nat_of_ascii a) then trimStart_rev r'
               else match r' with
                    | String c r'' =>
                        if ws3 (nat_of_ascii c) (nat_of_ascii b) (nat_of_ascii a)
                        then trimStart_rev r'' else s
                    | EmptyString => s
                    end
           | EmptyString => s
           end
  | EmptyString => s
  end.

Definition trimEnd (s : string) : string :=
  string_rev (trimStart_rev (string_rev s)).

Definition trim (s : string) : string := trimEnd (trimStart s).

(** [String.prototype.toUpperCase], on the ASCII letters (the other
    bytes are kept as they are). *)
Definition upper_char (c : ascii) : ascii :=
  let n := nat_of_ascii c in
  if (97 <=? n) && (n <=? 122) then ascii_of_nat (n - 32) else c.

Fixpoint toUpperCase (s : string) : string :=
  match s with
  | EmptyString => EmptyString
  | String c r => String (upper_char c) (toUpperCase r)
  end.

(** JavaScript truthiness of a string: the empty string is falsy. *)
Definition truthy (s : string) : bool :=
  match s with EmptyString => false | String _ _ => true end.

(* ================================================================== *)
(** * JavaScript values and JSON *)

(** What [JSON.parse] can return, and [undefined] for a missing
    property.  A number keeps its lexeme. *)
Inductive JSValue : Type :=
| JUndefined
| JNull
| JBool (b : bool)
| JNumber (lexeme : string)
| JString (s : string)
| JArray (xs : list JSValue)
| JObject (props : list (string * JSValue)).

Coercion JString : string >-> JSValue.

(** ** [JSON.stringify] of a string (QuoteJSONString) *)

Definition hex_char (n : nat) : ascii :=
  ascii_of_nat (if n <? 10 then 48 + n else 87 + n).

Definition quote_char (c : ascii) : string :=
  let n := nat_of_ascii c in
  if n =? 8 then "\b"
  else if n =? 9 then "\t"
  else if n =? 10 then "\n"
  else if n =? 12 then "\f"
  else if n =? 13 then "\r"
  else if n =? 34 then String backslash (String dquote EmptyString)
  else if n =? 92 then "\\"
  else if n <? 32 then
    "\u00" ++ String (hex_char (n / 16)) (String (hex_char (n mod 16)) EmptyString)
  else String c EmptyString.

Fixpoint quote_chars (s : string) : string :=
  match s with
  | EmptyString => EmptyString
  | String c r => quote_char c ++ quote_chars r
  end.

Definition JSON_quote (s : string) : string :=
  String dquote (quote_chars s ++ String dquote EmptyString).

(** ** [JSON.parse] *)

Inductive Parse (A : Type) : Type :=
| OutOfFuel
| SyntaxError
| Parsed (a : A) (rest : string).
Arguments OutOfFuel {A}.
Arguments SyntaxError {A}.

Definition json_ws (c : ascii) : bool :=
  let n := nat_of_ascii c in
  (n =? 32) || (n =? 9) || (n =? 10) || (n =? 13).

Fixpoint skip_ws (s : string) : string :=
  match s with
  | String c r => if json_ws c then skip_ws r else s
  | EmptyString => s
  end.

Definition hex_digit (c : ascii) : option N :=
  let n := N_of_ascii c in
  (if (48 <=? n) && (n <=? 57) then Some (n - 48)
   else if (65 <=? n) && (n <=? 70) then Some (n - 55)
   else if (97 <=? n) && (n <=? 102) then Some (n - 87)
   else None)%N.

Definition hex4 (a b c d : ascii) : option N :=
  match hex_digit a, hex_digit b, hex_digit c, hex_digit d with
  | Some x, Some y, Some z, Some w => Some (((x * 16 + y) * 16 + z) * 16 + w)%N
  | _, _, _, _ => None
  end.

Definition byte (n : N) : string := String (ascii_of_N n) EmptyString.

(** UTF-8 bytes of a code point (a lone surrogate gets the three-byte
    form, there being no other byte form for it). *)
Definition utf8_encode (cp : N) : string :=
  (if cp <? 128 then byte cp
   else if cp <? 2048 then byte (192 + cp / 64) ++ byte (128 + cp mod 64)
   else if cp <? 65536 then
     byte (224 + cp / 4096) ++ byte (128 + (cp / 64) mod 64) ++ byte (128 + cp mod 64)
   else
     byte (240 + cp / 262144) ++ byte (128 + (cp / 4096) mod 64)
       ++ byte (128 + (cp / 64) mod 64) ++ byte (128 + cp mod 64))%N.

Definition flush (hi : option N) : string :=
  match hi with Some h => utf8_encode h | None => EmptyString end.

Definition simple_escape (e : ascii) : option ascii :=
  let n := nat_of_ascii e in
  if n =? 34 then Some dquote
  else if n =? 92 then Some backslash
  else if n =? 47 then Some "/"%char
  else if n =? 98 then Some (ascii_of_nat 8)
  else if n =? 102 then Some (ascii_of_nat 12)
  else if n =? 110 then Some (ascii_of_nat 10)
  else if n =? 114 then Some (ascii_of_nat 13)
  else if n =? 116 then Some (ascii_of_nat 9)
  else None.

Definition prepend (p : string) (r : option (string * string)) :
  option (string * string) :=
  match r with
  | Some (s, rest) => Some (p ++ s, rest)
  | None => None
  end.

(** The characters of a string literal after its opening quote, up to
    the closing quote.  [hi] is a pending high surrogate from a
    [\uD8xx] escape, waiting for its low half. *)
Fixpoint parse_chars (s : string) (hi : option N) : option (string * string) :=
  match s with
  | EmptyString => None
  | String c r =>
      if (c =? dquote)%char then Some (flush hi, r)
      else if (c =? backslash)%char then
        match r with
        | String e r' =>
            if (e =? "u")%char then
              match r' with
              | String a (String b (String c' (String d r''))) =>
                  match hex4 a b c' d with
                  | Some u =>
                      if ((55296 <=? u) && (u <=? 56319))%N then
                        prepend (flush hi) (parse_chars r'' (Some u))
                      else if ((56320 <=? u) && (u <=? 57343))%N then
                        match hi with
                        | Some h =>
                            prepend
                              (utf8_encode (65536 + (h - 55296) * 1024 + (u - 56320))%N)
                              (parse_chars r'' None)
                        | None => prepend (utf8_encode u) (parse_chars r'' None)
                        end
                      else prepend (flush hi ++ utf8_encode u) (parse_chars r'' None)
                  | None => None
                  end
              | _ => None
              end
            else
              match simple_escape e with
              | Some ch =>
                  prepend (flush hi ++ String ch EmptyString) (parse_chars r' None)
              | None => None
              end
        | EmptyString => None
        end
      else if nat_of_ascii c <? 32 then None
      else prepend (flush hi ++ String c EmptyString) (parse_chars r None)
  end.

Definition is_digit (c : ascii) : bool :=
  let n := nat_of_ascii c in (48 <=? n) && (n <=? 57).

Fixpoint span_digits (s : string) : string * string :=
  match s with
  | String c r =>
      if is_digit c then let (ds, rest) := span_digits r in (String c ds, rest)
      else (EmptyString, s)
  | EmptyString => (EmptyString, s)
  end.

(** The number grammar: an optional minus sign; then a single 0, or a
    nonzero digit followed by digits; then optionally a dot and one or
    more digits; then optionally e or E, a sign and one or more digits. *)
Definition lex_int (s : string) : option (string * string) :=
  match s with
  | String c r =>
      if (c =? "0")%char then Some ("0", r)
      else if is_digit c then
        let (ds, rest) := span_digits r in Some (String c ds, rest)
      else None
  | EmptyString => None
  end.

Definition lex_frac (s : string) : option (string * string) :=
  match s with
  | String c r =>
      if (c =? ".")%char then
        match span_digits r with
        | (EmptyString, _) => None
        | (ds, rest) => Some (String c ds, rest)
        end
      else Some (EmptyString, s)
  | EmptyString => Some (EmptyString, s)
  end.

Definition lex_exp (s : string) : option (string * string) :=
  match s with
  | String c r =>
      if ((c =? "e") || (c =? "E"))%char then
        let (sign, r1) :=
          match r with
          | String g r' =>
              if ((g =? "+") || (g =? "-"))%char then (String g EmptyString, r')
              else (EmptyString, r)
          | EmptyString => (EmptyString, r)
          end in
        match span_digits r1 with
        | (EmptyString, _) => None
        | (ds, rest) => Some (String c (sign ++ ds), rest)
        end
      else Some (EmptyString, s)
  | EmptyString => Some (EmptyString, s)
  end.

Definition lex_number (s : string) : option (string * string) :=
  let (sign, s1) :=
    match s with
    | String c r => if (c =? "-")%char then ("-", r) else (EmptyString, s)
    | EmptyString => (EmptyString, s)
    end in
  match lex_int s1 with
  | Some (i, s2) =>
      match lex_frac s2 with
      | Some (f, s3) =>
          match lex_exp s3 with
          | Some (e, s4) => Some (sign ++ i ++ f ++ e, s4)
          | None => None
          end
      | None => None
      end
  | None => None
  end.

(** [s] starts with the keyword [k]: what follows it. *)
Fixpoint strip_prefix (k s : string) : option string :=
  match k, s with
  | EmptyString, _ => Some s
  | String a k', String b s' => if (a =? b)%char then strip_prefix k' s' else None
  | String _ _, EmptyString => None
  end.

Definition parse_scalar (s : string) : Parse JSValue :=
  match strip_prefix "true" s with
  | Some r => Parsed (JBool true) r
  | None =>
  match strip_prefix "false" s with
  | Some r => Parsed (JBool false) r
  | None =>
  match strip_prefix "null" s with
  | Some r => Parsed JNull r
  | None =>
  match lex_number s with
  | Some (lx, r) => Parsed (JNumber lx) r
  | None => SyntaxError
  end end end end.

Fixpoint parse_value (fuel : nat) (s : string) : Parse JSValue :=
  match fuel with
  | O => OutOfFuel
  | S f =>
      match skip_ws s with
      | EmptyString => SyntaxError
      | String c r =>
          if (c =? "{")%char then
            match skip_ws r with
            | String "}"%char r' => Parsed (JObject []) r'
            | _ =>
                match parse_members f r with
                | Parsed ms r' => Parsed (JObject ms) r'
                | OutOfFuel => OutOfFuel
                | SyntaxError => SyntaxError
                end
            end
          else if (c =? "[")%char then
            match skip_ws r with
            | String "]"%char r' => Parsed (JArray []) r'
            | _ =>
                match parse_elements f r with
                | Parsed vs r' => Parsed (JArray vs) r'
                | OutOfFuel => OutOfFuel
                | SyntaxError => SyntaxError
                end
            end
          else if (c =? dquote)%char then
            match parse_chars r None with
            | Some (str, r') => Parsed (JString str) r'
            | None => SyntaxError
            end
          else parse_scalar (String c r)
      end
  end

with parse_elements (fuel : nat) (s : string) : Parse (list JSValue) :=
  match fuel with
  | O => OutOfFuel
  | S f =>
      match parse_value f s with
      | Parsed v r =>
          match skip_ws r with
          | String ","%char r' =>
              match parse_elements f r' with
              | Parsed vs r'' => Parsed (v :: vs) r''
              | OutOfFuel => OutOfFuel
              | SyntaxError => SyntaxError
              end
          | String "]"%char r' => Parsed [v] r'
          | _ => SyntaxError
          end
      | OutOfFuel => OutOfFuel
      | SyntaxError => SyntaxError
      end
  end

with parse_members (fuel : nat) (s : string) : Parse (list (string * JSValue)) :=
  match fuel with
  | O => OutOfFuel
  | S f =>
      match skip_ws s with
      | String c r =>
          if (c =? dquote)%char then
            match parse_chars r None with
            | Some (key, r1) =>
                match skip_ws r1 with
                | String ":"%char r2 =>
                    match parse_value f r2 with
                    | Parsed v r3 =>
                        match skip_ws r3 with
                        | String ","%char r4 =>
                            match parse_members f r4 with
                            | Parsed ms r5 => Parsed ((key, v) :: ms) r5
                            | OutOfFuel => OutOfFuel
                            | SyntaxError => SyntaxError
                            end
                        | String "}"%char r4 => Parsed [(key, v)] r4
                        | _ => SyntaxError
                        end
                    | OutOfFuel => OutOfFuel
                    | SyntaxError => SyntaxError
                    end
                | _ => SyntaxError
                end
            | None => SyntaxError
            end
          else SyntaxError
      | EmptyString => SyntaxError
      end
  end.

(** [JSON.parse text]: [None] is the thrown [SyntaxError]. *)
Definition JSON_fuel (text : string) : nat := 2 * String.length text + 2.

Definition JSON_parse (text : string) : option JSValue :=
  match parse_value (JSON_fuel text) text with
  | Parsed v rest =>
      match skip_ws rest with
      | EmptyString => Some v
      | String _ _ => None
      end
  | OutOfFuel => None
  | SyntaxError => None
  end.

(** Property read [v.k].  On an object the last member of that name
    wins; [null.k] throws a [TypeError] ([None]); the other values have
    no own property of these names. *)
Fixpoint lookup_prop (k : string) (props : list (string * JSValue)) : JSValue :=
  match props with
  | [] => JUndefined
  | (k', v) :: rest =>
      match lookup_prop k rest with
      | JUndefined => if String.eqb k k' then v else JUndefined
      | found => found
      end
  end.

(* ================================================================== *)
(** * The data model *)

(** [interface Message].  [sender] and [content] are typed [string] in
    the source, but an inbound message carries whatever [JSON.parse]
    produced, so they are JavaScript values here. *)
Module Message.
Record t : Type := mk {
  id : string;
  sender : JSValue;
  content : JSValue;
  timestamp : N;
  isOwn : bool
}.
End Message.

(** [interface PeerConnection]: [connection] and [dataChannel] are
    handles of browser objects kept in the world below. *)
Module PeerConnection.
Record t : Type := mk {
  id : string;
  username : string;
  connection : nat;
  dataChannel : option nat;
  connected : bool
}.
End PeerConnection.

(** A JavaScript [Map] with string keys: the entries in insertion order,
    one per key.  [Map_set] on a present key replaces the value in
    place, on an absent key it adds the entry at the end. *)
Definition Map (V : Type) : Type := list (string * V).

Fixpoint Map_get {V} (k : string) (m : Map V) : option V :=
  match m with
  | [] => None
  | (k', v) :: rest => if String.eqb k k' then Some v else Map_get k rest
  end.

Fixpoint Map_set {V} (k : string) (v : V) (m : Map V) : Map V :=
  match m with
  | [] => [(k, v)]
  | (k', v') :: rest =>
      if String.eqb k k' then (k', v) :: rest else (k', v') :: Map_set k v rest
  end.

Fixpoint Map_delete {V} (k : string) (m : Map V) : Map V :=
  match m with
  | [] => []
  | (k', v') :: rest =>
      if String.eqb k k' then rest else (k', v') :: Map_delete k rest
  end.

Definition Map_keys {V} (m : Map V) : list string := map fst m.
Definition Map_values {V} (m : Map V) : list V := map snd m.

(** Session descriptions and connectivity candidates are opaque to the
    component: it only passes them on. *)
Inductive Description : Type :=
| LocalOffer (pc : nat)
| LocalAnswer (pc : nat)
| RemoteDescription (blob : string).

Definition Candidate : Type := string.

(** What the closures of one render of the component see: the [const]s
    of that render.  [peers] holds addresses of peer objects: the [Map]
    is copied on every update, the objects in it are shared. *)
Module Render.
Record t : Type := mk {
  username : string;
  roomId : string;
  myPeerId : string;
  peers : Map nat;
  messageInput : string
}.
End Render.

(** The body of a response of the signaling service, as far as the
    component reads it.  A field that is [None] is absent ([undefined]). *)
Module Response.
Record t : Type := mk {
  success : bool;
  peers : option (list string);
  offer : option (string * Description);
  answer : option (string * Description);
  iceCandidates : option (list (string * Candidate));
  error : option string
}.
End Response.

(** The argument of [sendToSignalingServer], and the request posted:
    the data spread, with [roomId] and [peerId] added. *)
Inductive SignalingData : Type :=
| sig_poll
| sig_join_room
| sig_offer (to : string) (offer : Description)
| sig_answer (to : string) (answer : Description)
| sig_ice_candidate (to : string) (candidate : Candidate).

Module Request.
Record t : Type := mk {
  data : SignalingData;
  roomId : string;
  peerId : string
}.
End Request.

(** ** Browser objects *)

Inductive RTCPeerConnectionState : Type :=
| pcs_new | pcs_connecting | pcs_connected | pcs_disconnected | pcs_failed | pcs_closed.

Definition RTCPeerConnectionState_to_string (s : RTCPeerConnectionState) : string :=
  match s with
  | pcs_new => "new" | pcs_connecting => "connecting" | pcs_connected => "connected"
  | pcs_disconnected => "disconnected" | pcs_failed => "failed" | pcs_closed => "closed"
  end.

Inductive RTCIceConnectionState : Type :=
| ice_new | ice_checking | ice_connected | ice_completed
| ice_failed | ice_disconnected | ice_closed.

Definition RTCIceConnectionState_to_string (s : RTCIceConnectionState) : string :=
  match s with
  | ice_new => "new" | ice_checking => "checking" | ice_connected => "connected"
  | ice_completed => "completed" | ice_failed => "failed"
  | ice_disconnected => "disconnected" | ice_closed => "closed"
  end.

Inductive RTCDataChannelState : Type :=
| dcs_connecting | dcs_open | dcs_closing | dcs_closed.

(** An [RTCPeerConnection].  Its handlers are the closures installed by
    [createPeerConnection]: they are determined by [targetPeerId] and by
    the render that created the connection; [ondatachannel] is installed
    on the answering side only. *)
Module RTCPeerConnection.
Record t : Type := mk {
  connectionState : RTCPeerConnectionState;
  iceConnectionState : RTCIceConnectionState;
  targetPeerId : string;
  env : Render.t;
  ondatachannel : bool
}.
End RTCPeerConnection.

(** An [RTCDataChannel]; [handlers] is the [peerId] of the
    [setupDataChannel] call that installed its handlers, if any. *)
Module RTCDataChannel.
Record t : Type := mk {
  readyState : RTCDataChannelState;
  owner : nat;
  handlers : option string
}.
End RTCDataChannel.

(** The calls made on connections, in order. *)
Inductive RTCCall : Type :=
| CreateDataChannel (label : string)
| CreateOffer
| CreateAnswer
| SetLocalDescription (d : Description)
| SetRemoteDescription (d : Description)
| AddIceCandidate (c : Candidate)
| Close.

(** A pending [setTimeout] of [createPeerConnection]: its callback is
    determined by the connection and the target peer. *)
Module Timeout.
Record t : Type := mk {
  delay : N;
  pc : nat;
  targetPeerId : string
}.
End Timeout.

(** A running [setInterval]: its callback is [pollSignalingServer] of
    the render [env]. *)
Module Interval.
Record t : Type := mk {
  id : nat;
  period : N;
  env : Render.t
}.
End Interval.

(** What the environment decides.  [fetch n] is the outcome of the
    [n]-th request ([None]: the request fails); [rtc n] is the outcome
    of the [n]-th call on a connection ([Some e]: the promise rejects
    with [e]); [send n] is the outcome of the [n]-th [send] on an open
    data channel ([Some e]: [send] throws [e], as it does for a payload
    over the maximum message size or a full send buffer). *)
Module Oracle.
Record t : Type := mk {
  date_now : nat -> N;
  math_random : nat -> string;
  fetch : nat -> option Response.t;
  rtc : nat -> option string;
  send : nat -> option string
}.
End Oracle.

(** The world outside the React state.  [wire] holds what was
    transmitted on data channels; [sends] counts the sends attempted on
    open channels, refused ones included. *)
Module World.
Record t : Type := mk {
  heap : list PeerConnection.t;
  connections : list RTCPeerConnection.t;
  channels : list RTCDataChannel.t;
  rtc_calls : list (nat * RTCCall);
  requests : list Request.t;
  wire : list (nat * string);
  timeouts : list Timeout.t;
  intervals : list Interval.t;
  next_timer : nat;
  console : list string;
  clock : nat;
  draws : nat;
  sends : nat;
  oracle : Oracle.t
}.
End World.

(** The React state of the component ([useState] and [useRef]). *)
Module Store.
Record t : Type := mk {
  username : string;
  roomId : string;
  myPeerId : string;
  isInRoom : bool;
  peers : Map nat;
  messages : list Message.t;
  messageInput : string;
  connectionStatus : string;
  isConnecting : bool;
  pollingRef : option nat
}.
End Store.

Record State : Type := mkState {
  store : Store.t;
  world : World.t
}.

(** The render of the current state: what a handler called from the
    page sees. *)
Definition snapshot (st : State) : Render.t :=
  Render.mk (Store.username (store st)) (Store.roomId (store st))
    (Store.myPeerId (store st)) (Store.peers (store st))
    (Store.messageInput (store st)).

(* ================================================================== *)
(** * Handlers as computations: state and exceptions *)

Inductive Result (A : Type) : Type :=
| Ok (a : A)
| Throw (e : string).
Arguments Throw {A} e.

(** A computation changes the state and returns or throws; what it did
    before throwing stays done. *)
Definition M (A : Type) : Type := State -> Result A * State.

Definition ret {A} (a : A) : M A := fun st => (Ok a, st).

Definition throw {A} (e : string) : M A := fun st => (Throw e, st).

Definition bind {A B} (c : M A) (k : A -> M B) : M B :=
  fun st =>
    match c st with
    | (Ok a, st') => k a st'
    | (Throw e, st') => (Throw e, st')
    end.

Definition try_catch {A} (c : M A) (handler : string -> M A) : M A :=
  fun st =>
    match c st with
    | (Ok a, st') => (Ok a, st')
    | (Throw e, st') => handler e st'
    end.

Definition gets {A} (f : State -> A) : M A := fun st => (Ok (f st), st).

Definition modify (f : State -> State) : M unit := fun st => (Ok tt, f st).

Declare Scope monad_scope.
Delimit Scope monad_scope with monad.
Bind Scope monad_scope with M.
Notation "x <- c ;; k" := (bind c (fun x => k))
  (at level 61, c at next level, right associativity) : monad_scope.
Notation "c ;; k" := (bind c (fun _ => k))
  (at level 61, right associativity) : monad_scope.
Open Scope monad_scope.

Fixpoint forM {A} (xs : list A) (f : A -> M unit) : M unit :=
  match xs with
  | [] => ret tt
  | x :: rest => f x ;; forM rest f
  end.

Definition upd_store (f : Store.t -> Store.t) : M unit :=
  modify (fun st => mkState (f (store st)) (world st)).

Definition upd_world (f : World.t -> World.t) : M unit :=
  modify (fun st => mkState (store st) (f (world st))).

(** ** Field updates *)

Definition set_isInRoom (v : bool) (s : Store.t) : Store.t :=
  Store.mk (Store.username s) (Store.roomId s) (Store.myPeerId s) v (Store.peers s)
    (Store.messages s) (Store.messageInput s) (Store.connectionStatus s)
    (Store.isConnecting s) (Store.pollingRef s).

Definition set_peers (v : Map nat) (s : Store.t) : Store.t :=
  Store.mk (Store.username s) (Store.roomId s) (Store.myPeerId s) (Store.isInRoom s) v
    (Store.messages s) (Store.messageInput s) (Store.connectionStatus s)
    (Store.isConnecting s) (Store.pollingRef s).

Definition set_messages (v : list Message.t) (s : Store.t) : Store.t :=
  Store.mk (Store.username s) (Store.roomId s) (Store.myPeerId s) (Store.isInRoom s)
    (Store.peers s) v (Store.messageInput s) (Store.connectionStatus s)
    (Store.isConnecting s) (Store.pollingRef s).

Definition set_messageInput (v : string) (s : Store.t) : Store.t :=
  Store.mk (Store.username s) (Store.roomId s) (Store.myPeerId s) (Store.isInRoom s)
    (Store.peers s) (Store.messages s) v (Store.connectionStatus s)
    (Store.isConnecting s) (Store.pollingRef s).

Definition set_connectionStatus (v : string) (s : Store.t) : Store.t :=
  Store.mk (Store.username s) (Store.roomId s) (Store.myPeerId s) (Store.isInRoom s)
    (Store.peers s) (Store.messages s) (Store.messageInput s) v
    (Store.isConnecting s) (Store.pollingRef s).

Definition set_isConnecting (v : bool) (s : Store.t) : Store.t :=
  Store.mk (Store.username s) (Store.roomId s) (Store.myPeerId s) (Store.isInRoom s)
    (Store.peers s) (Store.messages s) (Store.messageInput s) (Store.connectionStatus s)
    v (Store.pollingRef s).

Definition set_pollingRef (v : option nat) (s : Store.t) : Store.t :=
  Store.mk (Store.username s) (Store.roomId s) (Store.myPeerId s) (Store.isInRoom s)
    (Store.peers s) (Store.messages s) (Store.messageInput s) (Store.connectionStatus s)
    (Store.isConnecting s) v.

Definition set_username (v : string) (s : Store.t) : Store.t :=
  Store.mk v (Store.roomId s) (Store.myPeerId s) (Store.isInRoom s)
    (Store.peers s) (Store.messages s) (Store.messageInput s) (Store.connectionStatus s)
    (Store.isConnecting s) (Store.pollingRef s).

Definition set_roomId (v : string) (s : Store.t) : Store.t :=
  Store.mk (Store.username s) v (Store.myPeerId s) (Store.isInRoom s)
    (Store.peers s) (Store.messages s) (Store.messageInput s) (Store.connectionStatus s)
    (Store.isConnecting s) (Store.pollingRef s).

Definition set_heap (v : list PeerConnection.t) (w : World.t) : World.t :=
  World.mk v (World.connections w) (World.channels w) (World.rtc_calls w)
    (World.requests w) (World.wire w) (World.timeouts w) (World.intervals w)
    (World.next_timer w) (World.console w) (World.clock w) (World.draws w)
    (World.sends w) (World.oracle w).

Definition set_connections (v : list RTCPeerConnection.t) (w : World.t) : World.t :=
  World.mk (World.heap w) v (World.channels w) (World.rtc_calls w)
    (World.requests w) (World.wire w) (World.timeouts w) (World.intervals w)
    (World.next_timer w) (World.console w) (World.clock w) (World.draws w)
    (World.sends w) (World.oracle w).

Definition set_channels (v : list RTCDataChannel.t) (w : World.t) : World.t :=
  World.mk (World.heap w) (World.connections w) v (World.rtc_calls w)
    (World.requests w) (World.wire w) (World.timeouts w) (World.intervals w)
    (World.next_timer w) (World.console w) (World.clock w) (World.draws w)
    (World.sends w) (World.oracle w).

Definition set_rtc_calls (v : list (nat * RTCCall)) (w : World.t) : World.t :=
  World.mk (World.heap w) (World.connections w) (World.channels w) v
    (World.requests w) (World.wire w) (World.timeouts w) (World.intervals w)
    (World.next_timer w) (World.console w) (World.clock w) (World.draws w)
    (World.sends w) (World.oracle w).

Definition set_requests (v : list Request.t) (w : World.t) : World.t :=
  World.mk (World.heap w) (World.connections w) (World.channels w) (World.rtc_calls w)
    v (World.wire w) (World.timeouts w) (World.intervals w)
    (World.next_timer w) (World.console w) (World.clock w) (World.draws w)
    (World.sends w) (World.oracle w).

Definition set_wire (v : list (nat * string)) (w : World.t) : World.t :=
  World.mk (World.heap w) (World.connections w) (World.channels w) (World.rtc_calls w)
    (World.requests w) v (World.timeouts w) (World.intervals w)
    (World.next_timer w) (World.console w) (World.clock w) (World.draws w)
    (World.sends w) (World.oracle w).

Definition set_timeouts (v : list Timeout.t) (w : World.t) : World.t :=
  World.mk (World.heap w) (World.connections w) (World.channels w) (World.rtc_calls w)
    (World.requests w) (World.wire w) v (World.intervals w)
    (World.next_timer w) (World.console w) (World.clock w) (World.draws w)
    (World.sends w) (World.oracle w).

Definition set_intervals (v : list Interval.t) (w : World.t) : World.t :=
  World.mk (World.heap w) (World.connections w) (World.channels w) (World.rtc_calls w)
    (World.requests w) (World.wire w) (World.timeouts w) v
    (World.next_timer w) (World.console w) (World.clock w) (World.draws w)
    (World.sends w) (World.oracle w).

Definition set_next_timer (v : nat) (w : World.t) : World.t :=
  World.mk (World.heap w) (World.connections w) (World.channels w) (World.rtc_calls w)
    (World.requests w) (World.wire w) (World.timeouts w) (World.intervals w)
    v (World.console w) (World.clock w) (World.draws w)
    (World.sends w) (World.oracle w).

Definition set_console (v : list string) (w : World.t) : World.t :=
  World.mk (World.heap w) (World.connections w) (World.channels w) (World.rtc_calls w)
    (World.requests w) (World.wire w) (World.timeouts w) (World.intervals w)
    (World.next_timer w) v (World.clock w) (World.draws w)
    (World.sends w) (World.oracle w).

Definition set_clock (v : nat) (w : World.t) : World.t :=
  World.mk (World.heap w) (World.connections w) (World.channels w) (World.rtc_calls w)
    (World.requests w) (World.wire w) (World.timeouts w) (World.intervals w)
    (World.next_timer w) (World.console w) v (World.draws w)
    (World.sends w) (World.oracle w).

Definition set_draws (v : nat) (w : World.t) : World.t :=
  World.mk (World.heap w) (World.connections w) (World.channels w) (World.rtc_calls w)
    (World.requests w) (World.wire w) (World.timeouts w) (World.intervals w)
    (World.next_timer w) (World.console w) (World.clock w) v (World.sends w)
    (World.oracle w).

Definition set_sends (v : nat) (w : World.t) : World.t :=
  World.mk (World.heap w) (World.connections w) (World.channels w) (World.rtc_calls w)
    (World.requests w) (World.wire w) (World.timeouts w) (World.intervals w)
    (World.next_timer w) (World.console w) (World.clock w) (World.draws w) v
    (World.oracle w).

(** Replace the element at an index; an index out of range changes
    nothing (a handle or an address is at most the number of objects
    allocated before it, so this does not happen on a run). *)
Fixpoint update_nth {A} (n : nat) (f : A -> A) (l : list A) : list A :=
  match l, n with
  | [], _ => []
  | x :: rest, O => f x :: rest
  | x :: rest, S n' => x :: update_nth n' f rest
  end.

(* ================================================================== *)
(** * The browser's primitives *)

Definition Date_now : M N :=
  fun st =>
    let w := world st in
    (Ok (Oracle.date_now (World.oracle w) (World.clock w)),
     mkState (store st) (set_clock (S (World.clock w)) w)).

Definition Math_random : M string :=
  fun st =>
    let w := world st in
    (Ok (Oracle.math_random (World.oracle w) (World.draws w)),
     mkState (store st) (set_draws (S (World.draws w)) w)).

Definition console_error (line : string) : M unit :=
  upd_world (fun w => set_console (World.console w ++ [line])%list w).

(** [fetch] of the signaling endpoint followed by [response.json()]:
    the request is recorded; the oracle says whether a body comes back. *)
Definition fetch (req : Request.t) : M Response.t :=
  n <- gets (fun st => length (World.requests (world st))) ;;
  upd_world (fun w => set_requests (World.requests w ++ [req])%list w) ;;
  o <- gets (fun st => Oracle.fetch (World.oracle (world st)) n) ;;
  match o with
  | Some body => ret body
  | None => throw "TypeError: Failed to fetch"
  end.

(** [new RTCPeerConnection(rtcConfig)] with the three handlers that
    [createPeerConnection] assigns to it right away. *)
Definition new_RTCPeerConnection (targetPeerId : string) (env : Render.t) : M nat :=
  pc <- gets (fun st => length (World.connections (world st))) ;;
  upd_world (fun w =>
    set_connections
      (World.connections w ++
         [RTCPeerConnection.mk pcs_new ice_new targetPeerId env false])%list w) ;;
  ret pc.

Definition set_ondatachannel (pc : nat) : M unit :=
  upd_world (fun w =>
    set_connections
      (update_nth pc
         (fun c => RTCPeerConnection.mk (RTCPeerConnection.connectionState c)
                     (RTCPeerConnection.iceConnectionState c)
                     (RTCPeerConnection.targetPeerId c)
                     (RTCPeerConnection.env c) true)
         (World.connections w)) w).

(** A promise-returning call on a connection, awaited: it is recorded,
    and the oracle says whether it rejects. *)
Definition rtc_await (pc : nat) (call : RTCCall) : M unit :=
  n <- gets (fun st => length (World.rtc_calls (world st))) ;;
  upd_world (fun w => set_rtc_calls (World.rtc_calls w ++ [(pc, call)])%list w) ;;
  o <- gets (fun st => Oracle.rtc (World.oracle (world st)) n) ;;
  match o with
  | Some e => throw e
  | None => ret tt
  end.

Definition pc_createOffer (pc : nat) : M Description :=
  rtc_await pc CreateOffer ;; ret (LocalOffer pc).

Definition pc_createAnswer (pc : nat) : M Description :=
  rtc_await pc CreateAnswer ;; ret (LocalAnswer pc).

Definition pc_setLocalDescription (pc : nat) (d : Description) : M unit :=
  rtc_await pc (SetLocalDescription d).

Definition pc_setRemoteDescription (pc : nat) (d : Description) : M unit :=
  rtc_await pc (SetRemoteDescription d).

Definition pc_addIceCandidate (pc : nat) (c : Candidate) : M unit :=
  rtc_await pc (AddIceCandidate c).

(** [pc.createDataChannel(label, ...)]: synchronous, a new channel in
    state [connecting]. *)
Definition pc_createDataChannel (pc : nat) (label : string) : M nat :=
  dc <- gets (fun st => length (World.channels (world st))) ;;
  upd_world (fun w =>
    set_rtc_calls (World.rtc_calls w ++ [(pc, CreateDataChannel label)])%list
      (set_channels
         (World.channels w ++ [RTCDataChannel.mk dcs_connecting pc None])%list w)) ;;
  ret dc.

(** [pc.close()]: synchronous and without error conditions; the
    connection's states become [closed]. *)
Definition closed_connection (c : RTCPeerConnection.t) : RTCPeerConnection.t :=
  RTCPeerConnection.mk pcs_closed ice_closed (RTCPeerConnection.targetPeerId c)
    (RTCPeerConnection.env c) (RTCPeerConnection.ondatachannel c).

Definition close_world (pc : nat) (w : World.t) : World.t :=
  set_rtc_calls (World.rtc_calls w ++ [(pc, Close)])%list
    (set_connections (update_nth pc closed_connection (World.connections w)) w).

Definition pc_close (pc : nat) : M unit := upd_world (close_world pc).

Definition pc_connectionState (pc : nat) : M RTCPeerConnectionState :=
  gets (fun st =>
    match nth_error (World.connections (world st)) pc with
    | Some c => RTCPeerConnection.connectionState c
    | None => pcs_closed
    end).

Definition pc_iceConnectionState (pc : nat) : M RTCIceConnectionState :=
  gets (fun st =>
    match nth_error (World.connections (world st)) pc with
    | Some c => RTCPeerConnection.iceConnectionState c
    | None => ice_closed
    end).

Definition dc_readyState (dc : nat) : M RTCDataChannelState :=
  gets (fun st =>
    match nth_error (World.channels (world st)) dc with
    | Some c => RTCDataChannel.readyState c
    | None => dcs_closed
    end).

(** [dataChannel.send(payload)]: throws unless the channel is open; on
    an open channel the browser may still refuse the payload, and then
    [send] throws and nothing is transmitted. *)
Definition dc_send (dc : nat) (payload : string) : M unit :=
  rs <- dc_readyState dc ;;
  match rs with
  | dcs_open =>
      n <- gets (fun st => World.sends (world st)) ;;
      upd_world (set_sends (S n)) ;;
      o <- gets (fun st => Oracle.send (World.oracle (world st)) n) ;;
      match o with
      | Some e => throw e
      | None => upd_world (fun w => set_wire (World.wire w ++ [(dc, payload)])%list w)
      end
  | _ => throw "InvalidStateError: RTCDataChannel.readyState is not 'open'"
  end.

(** Timers.  Identifiers are positive, so an identifier is truthy. *)
Definition setTimeout (pc : nat) (targetPeerId : string) (delay : N) : M unit :=
  upd_world (fun w =>
    set_next_timer (S (World.next_timer w))
      (set_timeouts (World.timeouts w ++ [Timeout.mk delay pc targetPeerId])%list w)).

Definition setInterval (env : Render.t) (period : N) : M nat :=
  t <- gets (fun st => S (World.next_timer (world st))) ;;
  upd_world (fun w =>
    set_next_timer t
      (set_intervals (World.intervals w ++ [Interval.mk t period env])%list w)) ;;
  ret t.

Definition clearInterval (t : nat) : M unit :=
  upd_world (fun w =>
    set_intervals
      (filter (fun i => negb (Interval.id i =? t)) (World.intervals w)) w).

(** Reading a peer object through its address. *)
Definition deref (a : nat) : M (option PeerConnection.t) :=
  gets (fun st => nth_error (World.heap (world st)) a).

Definition alloc (p : PeerConnection.t) : M nat :=
  a <- gets (fun st => length (World.heap (world st))) ;;
  upd_world (fun w => set_heap (World.heap w ++ [p])%list w) ;;
  ret a.

Definition mutate (a : nat) (f : PeerConnection.t -> PeerConnection.t) : M unit :=
  upd_world (fun w => set_heap (update_nth a f (World.heap w)) w).

(* ================================================================== *)
(** * The component *)

(** React's state setters.  An updater function is applied to the
    current state when the setter is called. *)
Definition setMessages (upd : list Message.t -> list Message.t) : M unit :=
  upd_store (fun s => set_messages (upd (Store.messages s)) s).

Definition setPeers (upd : Map nat -> M (Map nat)) : M unit :=
  prev <- gets (fun st => Store.peers (store st)) ;;
  updated <- upd prev ;;
  upd_store (set_peers updated).

Definition setIsInRoom (v : bool) : M unit := upd_store (set_isInRoom v).
Definition setMessageInput (v : string) : M unit := upd_store (set_messageInput v).
Definition setConnectionStatus (v : string) : M unit := upd_store (set_connectionStatus v).
Definition setIsConnecting (v : bool) : M unit := upd_store (set_isConnecting v).
Definition setUsername (v : string) : M unit := upd_store (set_username v).
Definition setRoomId (v : string) : M unit := upd_store (set_roomId v).

Definition System : JSValue := JString "System".

(** [addMessage(sender, content, isOwn = false)] *)
Definition addMessage (sender content : JSValue) (isOwn : bool) : M unit :=
  now <- Date_now ;;
  rnd <- Math_random ;;
  stamp <- Date_now ;;
  let message := Message.mk (string_of_N now ++ rnd) sender content stamp isOwn in
  setMessages (fun prev => (prev ++ [message])%list).

(** The object [messageData] of [sendMessage] and its
    [JSON.stringify]. *)
Record MessageData : Type := mkMessageData {
  md_sender : string;
  md_content : string
}.

Definition JSON_stringify (m : MessageData) : string :=
  "{" ++ JSON_quote "sender" ++ ":" ++ JSON_quote (md_sender m) ++ ","
      ++ JSON_quote "content" ++ ":" ++ JSON_quote (md_content m) ++ "}".

(** [peers.forEach(callback)] on a map of peer objects. *)
Definition peers_forEach (m : Map nat) (callback : PeerConnection.t -> M unit) : M unit :=
  forM (Map_values m) (fun a =>
    o <- deref a ;;
    match o with
    | Some peer => callback peer
    | None => ret tt
    end).

(** [data.k] on the result of [JSON.parse]. *)
Definition get_prop (v : JSValue) (k : string) : M JSValue :=
  match v with
  | JObject props => ret (lookup_prop k props)
  | JNull =>
      throw ("TypeError: Cannot read properties of null (reading '" ++ k ++ "')")
  | _ => ret JUndefined
  end.

(** ** Data channel handlers, installed by [setupDataChannel] *)

Definition dataChannel_onopen (dataChannel : nat) (peerId : string) : M unit :=
  addMessage System (JString ("💬 Chat ready with " ++ substring 0 6 peerId)) false ;;
  setPeers (fun prev =>
    match Map_get peerId prev with
    | Some peer =>
        mutate peer (fun p =>
          PeerConnection.mk (PeerConnection.id p) (PeerConnection.username p)
            (PeerConnection.connection p) (Some dataChannel)
            (PeerConnection.connected p)) ;;
        ret (Map_set peerId peer prev)
    | None => ret prev
    end).

Definition dataChannel_onmessage (event_data : string) : M unit :=
  data <- match JSON_parse event_data with
          | Some v => ret v
          | None => throw "SyntaxError: Unexpected token in JSON"
          end ;;
  sender <- get_prop data "sender" ;;
  content <- get_prop data "content" ;;
  addMessage sender content false.

Definition dataChannel_onerror (peerId : string) (error : string) : M unit :=
  addMessage System
    (JString ("❌ Chat error with " ++ substring 0 6 peerId ++ ": " ++ error)) false.

Definition setupDataChannel (dataChannel : nat) (peerId : string) : M unit :=
  upd_world (fun w =>
    set_channels
      (update_nth dataChannel
         (fun c => RTCDataChannel.mk (RTCDataChannel.readyState c)
                     (RTCDataChannel.owner c) (Some peerId))
         (World.channels w)) w).

Section Component.

(** The render whose closures these are. *)
Variable this : Render.t.

Local Abbreviation username := (Render.username this).
Local Abbreviation roomId := (Render.roomId this).
Local Abbreviation myPeerId := (Render.myPeerId this).
Local Abbreviation peers := (Render.peers this).
Local Abbreviation messageInput := (Render.messageInput this).

Definition network_error : Response.t :=
  Response.mk false None None None None (Some "Network error").

Definition sendToSignalingServer (data : SignalingData) : M Response.t :=
  try_catch
    (fetch (Request.mk data roomId myPeerId))
    (fun error =>
       console_error ("Signaling error: " ++ error) ;;
       addMessage System
         (JString "❌ Signaling server error. Check your connection.") false ;;
       ret network_error).

Definition updateConnectionStatus : M unit :=
  flags <- gets (fun st =>
    map (fun a =>
           match nth_error (World.heap (world st)) a with
           | Some p => PeerConnection.connected p
           | None => false
           end) (Map_values peers)) ;;
  let connectedPeers := length (filter (fun b : bool => b) flags) in
  setConnectionStatus
    (if 0 <? connectedPeers
     then "🌍 Connected to " ++ string_of_nat connectedPeers ++ " peer(s)"
     else "Disconnected").

(** ** Connection handlers, installed by [createPeerConnection] *)

Definition pc_onicecandidate (targetPeerId : string) (candidate : option Candidate)
  : M unit :=
  match candidate with
  | Some c => _ <- sendToSignalingServer (sig_ice_candidate targetPeerId c) ;; ret tt
  | None => ret tt
  end.

Definition pc_oniceconnectionstatechange (pc : nat) (targetPeerId : string) : M unit :=
  state <- pc_iceConnectionState pc ;;
  addMessage System
    (JString ("🔗 ICE connection with " ++ substring 0 6 targetPeerId ++ ": "
              ++ RTCIceConnectionState_to_string state)) false ;;
  match state with
  | ice_connected | ice_completed =>
      addMessage System
        (JString ("✅ Successfully connected to peer "
                  ++ substring 0 6 targetPeerId ++ "!")) false
  | ice_failed =>
      addMessage System
        (JString ("❌ Connection failed with "
                  ++ substring 0 6 targetPeerId ++ ". Retrying...")) false
  | _ => ret tt
  end.

Definition pc_onconnectionstatechange (pc : nat) (targetPeerId : string) : M unit :=
  state <- pc_connectionState pc ;;
  addMessage System
    (JString ("📡 Connection state with " ++ substring 0 6 targetPeerId ++ ": "
              ++ RTCPeerConnectionState_to_string state)) false ;;
  match state with
  | pcs_connected =>
      setPeers (fun prev =>
        match Map_get targetPeerId prev with
        | Some peer =>
            mutate peer (fun p =>
              PeerConnection.mk (PeerConnection.id p) (PeerConnection.username p)
                (PeerConnection.connection p) (PeerConnection.dataChannel p) true) ;;
            ret (Map_set targetPeerId peer prev)
        | None => ret prev
        end) ;;
      updateConnectionStatus ;;
      setIsConnecting false
  | pcs_disconnected | pcs_failed =>
      setPeers (fun prev => ret (Map_delete targetPeerId prev)) ;;
      updateConnectionStatus ;;
      setIsConnecting false
  | _ => ret tt
  end.

(** The callback of the connection timeout. *)
Definition connection_timeout (pc : nat) (targetPeerId : string) : M unit :=
  state <- pc_connectionState pc ;;
  match state with
  | pcs_connected => ret tt
  | _ =>
      addMessage System
        (JString ("⏰ Connection timeout with " ++ substring 0 6 targetPeerId
                  ++ ". The peer might be offline or behind a restrictive firewall."))
        false ;;
      setIsConnecting false
  end.

Definition pc_ondatachannel (targetPeerId : string) (channel : nat) : M unit :=
  setupDataChannel channel targetPeerId.

Definition createPeerConnection (targetPeerId : string) (isInitiator : bool) : M nat :=
  pc <- new_RTCPeerConnection targetPeerId this ;;
  setTimeout pc targetPeerId 30000 ;;
  (if isInitiator then
     dataChannel <- pc_createDataChannel pc "chat" ;;
     setupDataChannel dataChannel targetPeerId ;;
     offer <- pc_createOffer pc ;;
     pc_setLocalDescription pc offer ;;
     _ <- sendToSignalingServer (sig_offer targetPeerId offer) ;;
     ret tt
   else set_ondatachannel pc) ;;
  ret pc.

Definition new_peer (peerId : string) (pc : nat) : PeerConnection.t :=
  PeerConnection.mk peerId ("Peer-" ++ substring 0 6 peerId) pc None false.

Definition pollSignalingServer : M unit :=
  try_catch
    (response <- sendToSignalingServer sig_poll ;;
     match Response.offer response with
     | Some (from, offer) =>
         addMessage System
           (JString ("📨 Received connection offer from " ++ substring 0 6 from))
           false ;;
         setIsConnecting true ;;
         pc <- createPeerConnection from false ;;
         pc_setRemoteDescription pc offer ;;
         answer <- pc_createAnswer pc ;;
         pc_setLocalDescription pc answer ;;
         _ <- sendToSignalingServer (sig_answer from answer) ;;
         setPeers (fun prev =>
           peer <- alloc (new_peer from pc) ;; ret (Map_set from peer prev))
     | None => ret tt
     end ;;
     match Response.answer response with
     | Some (from, answer) =>
         addMessage System
           (JString ("📨 Received connection answer from " ++ substring 0 6 from))
           false ;;
         match Map_get from peers with
         | Some a =>
             peer <- deref a ;;
             match peer with
             | Some p => pc_setRemoteDescription (PeerConnection.connection p) answer
             | None => ret tt
             end
         | None => ret tt
         end
     | None => ret tt
     end ;;
     match Response.iceCandidates response with
     | Some candidates =>
         forM candidates (fun '(from, candidate) =>
           match Map_get from peers with
           | Some a =>
               peer <- deref a ;;
               match peer with
               | Some p => pc_addIceCandidate (PeerConnection.connection p) candidate
               | None => ret tt
               end
           | None => ret tt
           end)
     | None => ret tt
     end)
    (fun error => console_error ("Polling error: " ++ error)).

Definition joinRoom : M unit :=
  if negb (truthy (trim username)) || negb (truthy (trim roomId)) then
    addMessage System (JString "❌ Please enter both username and room ID") false
  else
    setIsConnecting true ;;
    addMessage System (JString ("🔄 Joining room " ++ roomId ++ "...")) false ;;
    try_catch
      (response <- sendToSignalingServer sig_join_room ;;
       if Response.success response then
         setIsInRoom true ;;
         addMessage System (JString ("✅ Joined global room: " ++ roomId)) false ;;
         addMessage System (JString "🌍 Ready for worldwide P2P connections!") false ;;
         t <- setInterval this 2000 ;;
         upd_store (set_pollingRef (Some t)) ;;
         found <- match Response.peers response with
                  | Some l => ret l
                  | None =>
                      throw "TypeError: Cannot read properties of undefined (reading 'length')"
                  end ;;
         if 0 <? length found then
           addMessage System
             (JString ("👥 Found " ++ string_of_nat (length found)
                       ++ " peer(s) in room. Connecting...")) false ;;
           forM found (fun peerId =>
             pc <- createPeerConnection peerId true ;;
             setPeers (fun prev =>
               peer <- alloc (new_peer peerId pc) ;; ret (Map_set peerId peer prev)))
         else
           addMessage System
             (JString "👤 You're the first one in this room. Waiting for others...")
             false ;;
           setIsConnecting false
       else ret tt)
      (fun error =>
         addMessage System (JString ("❌ Failed to join room: " ++ error)) false ;;
         setIsConnecting false).

Definition leaveRoom : M unit :=
  current <- gets (fun st => Store.pollingRef (store st)) ;;
  match current with
  | Some t => clearInterval t
  | None => ret tt
  end ;;
  peers_forEach peers (fun peer => pc_close (PeerConnection.connection peer)) ;;
  setPeers (fun _ => ret []) ;;
  setIsInRoom false ;;
  setConnectionStatus "Disconnected" ;;
  setIsConnecting false ;;
  addMessage System (JString "👋 Left the room") false.

(** The body of the [forEach] callback of [sendMessage]: 1 if it sent. *)
Definition send_to (payload : string) (peer : PeerConnection.t) : M nat :=
  match PeerConnection.dataChannel peer with
  | Some dc =>
      rs <- dc_readyState dc ;;
      match rs with
      | dcs_open => dc_send dc payload ;; ret 1
      | _ => ret 0
      end
  | None => ret 0
  end.

Fixpoint send_all (payload : string) (addrs : list nat) (sentCount : nat) : M nat :=
  match addrs with
  | [] => ret sentCount
  | a :: rest =>
      o <- deref a ;;
      n <- match o with
           | Some peer => send_to payload peer
           | None => ret 0
           end ;;
      send_all payload rest (sentCount + n)
  end.

Definition sendMessage : M unit :=
  if negb (truthy (trim messageInput)) then ret tt
  else
    let messageData := mkMessageData username (trim messageInput) in
    sentCount <- send_all (JSON_stringify messageData) (Map_values peers) 0 ;;
    if 0 <? sentCount then
      addMessage (JString username) (JString (trim messageInput)) true ;;
      setMessageInput ""
    else
      addMessage System (JString "❌ No connected peers to send message to") false.

End Component.

(* ================================================================== *)
(** * Events *)

(** What can happen to the page: the user acts, a timer fires, the
    browser notifies a connection or a channel.  Each event runs one
    handler to completion; the awaits inside an [async] handler are not
    interleaved with other events. *)
Inductive Event : Type :=
| UserJoinRoom
| UserLeaveRoom
| UserSendMessage
| UserTypesUsername (text : string)
| UserTypesRoomId (text : string)
| UserTypesMessage (text : string)
| IntervalTick (t : nat)
| TimeoutFires (k : nat)
| ConnectionStateChange (pc : nat) (s : RTCPeerConnectionState)
| IceConnectionStateChange (pc : nat) (s : RTCIceConnectionState)
| IceCandidateEvent (pc : nat) (candidate : option Candidate)
| DataChannelEvent (pc : nat)
| ChannelOpen (dc : nat)
| ChannelMessage (dc : nat) (data : string)
| ChannelError (dc : nat) (error : string)
| ChannelClose (dc : nat).

Fixpoint remove_nth {A} (n : nat) (l : list A) : list A :=
  match l, n with
  | [], _ => []
  | _ :: rest, O => rest
  | x :: rest, S n' => x :: remove_nth n' rest
  end.

Definition set_connectionState (s : RTCPeerConnectionState) (pc : nat) : M unit :=
  upd_world (fun w =>
    set_connections
      (update_nth pc
         (fun c => RTCPeerConnection.mk s (RTCPeerConnection.iceConnectionState c)
                     (RTCPeerConnection.targetPeerId c) (RTCPeerConnection.env c)
                     (RTCPeerConnection.ondatachannel c))
         (World.connections w)) w).

Definition set_iceConnectionState (s : RTCIceConnectionState) (pc : nat) : M unit :=
  upd_world (fun w =>
    set_connections
      (update_nth pc
         (fun c => RTCPeerConnection.mk (RTCPeerConnection.connectionState c) s
                     (RTCPeerConnection.targetPeerId c) (RTCPeerConnection.env c)
                     (RTCPeerConnection.ondatachannel c))
         (World.connections w)) w).

Definition set_readyState (s : RTCDataChannelState) (dc : nat) : M unit :=
  upd_world (fun w =>
    set_channels
      (update_nth dc
         (fun c => RTCDataChannel.mk s (RTCDataChannel.owner c)
                     (RTCDataChannel.handlers c))
         (World.channels w)) w).

(** A connection that can still notify: it exists and is not closed. *)
Definition live_connection (pc : nat) : M (option RTCPeerConnection.t) :=
  gets (fun st =>
    match nth_error (World.connections (world st)) pc with
    | Some c =>
        match RTCPeerConnection.connectionState c with
        | pcs_closed => None
        | _ => Some c
        end
    | None => None
    end).

Definition channel (dc : nat) : M (option RTCDataChannel.t) :=
  gets (fun st => nth_error (World.channels (world st)) dc).

Definition handle (e : Event) : M unit :=
  match e with
  | UserJoinRoom => this <- gets snapshot ;; joinRoom this
  | UserLeaveRoom => this <- gets snapshot ;; leaveRoom this
  | UserSendMessage => this <- gets snapshot ;; sendMessage this
  | UserTypesUsername text => setUsername text
  | UserTypesRoomId text => setRoomId (toUpperCase text)
  | UserTypesMessage text => setMessageInput text
  | IntervalTick t =>
      running <- gets (fun st =>
        find (fun i => Interval.id i =? t) (World.intervals (world st))) ;;
      match running with
      | Some i => pollSignalingServer (Interval.env i)
      | None => ret tt
      end
  | TimeoutFires k =>
      pending <- gets (fun st => nth_error (World.timeouts (world st)) k) ;;
      match pending with
      | Some t =>
          upd_world (fun w => set_timeouts (remove_nth k (World.timeouts w)) w) ;;
          connection_timeout (Timeout.pc t) (Timeout.targetPeerId t)
      | None => ret tt
      end
  | ConnectionStateChange pc s =>
      o <- live_connection pc ;;
      match o with
      | Some c =>
          set_connectionState s pc ;;
          pc_onconnectionstatechange (RTCPeerConnection.env c) pc
            (RTCPeerConnection.targetPeerId c)
      | None => ret tt
      end
  | IceConnectionStateChange pc s =>
      o <- live_connection pc ;;
      match o with
      | Some c =>
          set_iceConnectionState s pc ;;
          pc_oniceconnectionstatechange pc (RTCPeerConnection.targetPeerId c)
      | None => ret tt
      end
  | IceCandidateEvent pc candidate =>
      o <- live_connection pc ;;
      match o with
      | Some c =>
          pc_onicecandidate (RTCPeerConnection.env c)
            (RTCPeerConnection.targetPeerId c) candidate
      | None => ret tt
      end
  | DataChannelEvent pc =>
      o <- live_connection pc ;;
      match o with
      | Some c =>
          dc <- gets (fun st => length (World.channels (world st))) ;;
          upd_world (fun w =>
            set_channels
              (World.channels w ++ [RTCDataChannel.mk dcs_connecting pc None])%list w) ;;
          if RTCPeerConnection.ondatachannel c
          then pc_ondatachannel (RTCPeerConnection.targetPeerId c) dc
          else ret tt
      | None => ret tt
      end
  | ChannelOpen dc =>
      o <- channel dc ;;
      match o with
      | Some c =>
          set_readyState dcs_open dc ;;
          match RTCDataChannel.handlers c with
          | Some peerId => dataChannel_onopen dc peerId
          | None => ret tt
          end
      | None => ret tt
      end
  | ChannelMessage dc data =>
      o <- channel dc ;;
      match o with
      | Some c =>
          match RTCDataChannel.handlers c with
          | Some _ => dataChannel_onmessage data
          | None => ret tt
          end
      | None => ret tt
      end
  | ChannelError dc error =>
      o <- channel dc ;;
      match o with
      | Some c =>
          match RTCDataChannel.handlers c with
          | Some peerId => dataChannel_onerror peerId error
          | None => ret tt
          end
      | None => ret tt
      end
  | ChannelClose dc => set_readyState dcs_closed dc
  end.

(** An exception a handler lets escape is reported by the browser; the
    state stays as the handler left it. *)
Definition step (st : State) (e : Event) : State := snd (handle e st).

Definition run (st : State) (events : list Event) : State :=
  fold_left step events st.

(** The page as it loads. *)
Definition initial (myPeerId : string) (env : Oracle.t) : State :=
  mkState
    (Store.mk "" "" myPeerId false [] [] "" "Disconnected" false None)
    (World.mk [] [] [] [] [] [] [] [] 0 [] 0 0 0 env).


(* ================================================================== *)
(** * Notions used in the statements *)

(** [stable R c]: whatever the state and whether [c] returns or throws,
    the state it leaves is related by [R] to the state it started in. *)
Definition stable {A} (R : State -> State -> Prop) (c : M A) : Prop :=
  forall st, R st (snd (c st)).

(** The session collection holds one entry per peer identifier. *)
Definition unique_keys (st : State) : Prop :=
  NoDup (Map_keys (Store.peers (store st))).

Definition keeps_unique_keys (st st' : State) : Prop :=
  unique_keys st -> unique_keys st'.

(** The message [addMessage] builds in world [w], and the world after
    its two readings of the clock and its random draw. *)
Definition next_message (w : World.t) (sender content : JSValue) (isOwn : bool)
  : Message.t :=
  Message.mk
    (string_of_N (Oracle.date_now (World.oracle w) (World.clock w))
       ++ Oracle.math_random (World.oracle w) (World.draws w))
    sender content
    (Oracle.date_now (World.oracle w) (S (World.clock w)))
    isOwn.

Definition tick (w : World.t) : World.t :=
  set_draws (S (World.draws w)) (set_clock (S (S (World.clock w))) w).

(** The peer objects a list of addresses points to. *)
Fixpoint sessions (heap : list PeerConnection.t) (addrs : list nat)
  : list PeerConnection.t :=
  match addrs with
  | [] => []
  | a :: rest =>
      match nth_error heap a with
      | Some p => p :: sessions heap rest
      | None => sessions heap rest
      end
  end.

(** The count the page displays:
    [Array.from(peers.values()).filter((p) => p.connected).length]. *)
Definition connected_count (st : State) : nat :=
  length
    (filter PeerConnection.connected
       (sessions (World.heap (world st)) (Map_values (Store.peers (store st))))).

Definition close_all (handles : list nat) (w : World.t) : World.t :=
  fold_left (fun w' pc => close_world pc w') handles w.

(** The world once [leaveRoom] has dealt with the timer and the
    connections. *)
Definition left_world (this : Render.t) (st : State) : World.t :=
  let w1 :=
    match Store.pollingRef (store st) with
    | Some t =>
        set_intervals
          (filter (fun i => negb (Interval.id i =? t)) (World.intervals (world st)))
          (world st)
    | None => world st
    end in
  close_all
    (map PeerConnection.connection
       (sessions (World.heap (world st)) (Map_values (Render.peers this))))
    w1.

(** ** A room to try the statements on

    [alice] joins room ABC123, where the service lists two peers; the
    channel to the first opens and its connection is established. *)
Definition empty_response : Response.t :=
  Response.mk false None None None None None.

Definition example_oracle : Oracle.t :=
  Oracle.mk
    (fun n => N.of_nat (1000 + n))
    (fun n => "0." ++ string_of_nat n)
    (fun n =>
       match n with
       | 0 => Some (Response.mk true (Some ["p1"; "p2"]) None None None None)
       | _ => Some empty_response
       end)
    (fun _ => None)
    (fun _ => None).

Definition example_lobby : State :=
  run (initial "me" example_oracle)
    [UserTypesUsername "alice"; UserTypesRoomId "abc123"].

Definition example_joined : State := run example_lobby [UserJoinRoom].

Definition example_room : State :=
  run example_joined [ChannelOpen 0; ConnectionStateChange 0 pcs_connected].

(** ** Sessions with a usable channel

    The channel of the peer object at address [a], when the object has
    one and it is open: the condition [sendMessage] tests. *)
Definition open_channel (w : World.t) (a : nat) : option nat :=
  match nth_error (World.heap w) a with
  | Some p =>
      match PeerConnection.dataChannel p with
      | Some dc =>
          match nth_error (World.channels w) dc with
          | Some c =>
              match RTCDataChannel.readyState c with
              | dcs_open => Some dc
              | _ => None
              end
          | None => None
          end
      | None => None
      end
  | None => None
  end.

Fixpoint open_channels (w : World.t) (addrs : list nat) : list nat :=
  match addrs with
  | [] => []
  | a :: rest =>
      match open_channel w a with
      | Some dc => dc :: open_channels w rest
      | None => open_channels w rest
      end
  end.

(** The payload [sendMessage] puts on the wire in render [this]. *)
Definition chat_payload (this : Render.t) : string :=
  JSON_stringify
    (mkMessageData (Render.username this) (trim (Render.messageInput this))).

(** The room of [example_room] with a message typed in. *)
Definition example_typing : State := run example_room [UserTypesMessage " hi "].

(** A System message was appended to the log. *)
Definition surfaces_diagnostic (st st' : State) : Prop :=
  exists m,
    Store.messages (store st') = (Store.messages (store st) ++ [m])%list /\
    Message.sender m = System.

(** Something was logged: a message or a console line was added. *)
Definition logs_something (st st' : State) : Prop :=
  length (Store.messages (store st)) < length (Store.messages (store st')) \/
  length (World.console (world st)) < length (World.console (world st')).

(** The room of [example_room] with only blanks typed as message. *)
Definition example_blank : State := run example_room [UserTypesMessage "   "].

(** A service that answers the join request with [{success: false}]. *)
Definition rejecting_oracle : Oracle.t :=
  Oracle.mk
    (fun n => N.of_nat (1000 + n))
    (fun n => "0." ++ string_of_nat n)
    (fun _ => Some empty_response)
    (fun _ => None)
    (fun _ => None).

Definition rejected_lobby : State :=
  run (initial "me" rejecting_oracle)
    [UserTypesUsername "alice"; UserTypesRoomId "abc123"].

(** A well-formed chat payload, as a peer running this code sends it. *)
Definition example_payload : string :=
  JSON_stringify (mkMessageData "bob" "hello").

(** A service that accepts the join into an empty room and then, on the
    first poll, delivers a candidate from a peer nobody has heard of. *)
Definition ghost_oracle : Oracle.t :=
  Oracle.mk
    (fun n => N.of_nat (1000 + n))
    (fun n => "0." ++ string_of_nat n)
    (fun n =>
       match n with
       | 0 => Some (Response.mk true (Some []) None None None None)
       | 1 => Some (Response.mk false None None None
                      (Some [("ghost", "candidate:1")]) None)
       | _ => Some empty_response
       end)
    (fun _ => None)
    (fun _ => None).

Definition ghost_lobby : State :=
  run (initial "me" ghost_oracle)
    [UserTypesUsername "alice"; UserTypesRoomId "abc123"].

Definition ghost_room : State := run ghost_lobby [UserJoinRoom].

(** The state once the request [data] of render [this] is recorded. *)
Definition requested (this : Render.t) (data : SignalingData) (st : State) : State :=
  mkState (store st)
    (set_requests
       (World.requests (world st)
          ++ [Request.mk data (Render.roomId this) (Render.myPeerId this)])%list
       (world st)).

(** [keeps f]: the handler leaves the part [f] of the state as it was. *)
Definition keeps {X} (f : State -> X) (st st' : State) : Prop := f st' = f st.

(** The sessions as a handler can disturb them: the collection and the
    peer objects. *)
Definition session_store (st : State) : Map nat * list PeerConnection.t :=
  (Store.peers (store st), World.heap (world st)).

(** The world once [createPeerConnection] has set up an answering
    connection for [targetPeerId]. *)
Definition responder_world (this : Render.t) (targetPeerId : string) (w : World.t)
  : World.t :=
  let pc := length (World.connections w) in
  set_connections
    (update_nth pc
       (fun c => RTCPeerConnection.mk (RTCPeerConnection.connectionState c)
                   (RTCPeerConnection.iceConnectionState c)
                   (RTCPeerConnection.targetPeerId c)
                   (RTCPeerConnection.env c) true)
       (World.connections w
          ++ [RTCPeerConnection.mk pcs_new ice_new targetPeerId this false])%list)
    (set_next_timer (S (World.next_timer w))
       (set_timeouts (World.timeouts w ++ [Timeout.mk 30000 pc targetPeerId])%list w)).

(** A service that lists one peer on join and, on the first poll,
    delivers an offer from that same peer. *)
Definition reoffer_oracle : Oracle.t :=
  Oracle.mk
    (fun n => N.of_nat (1000 + n))
    (fun n => "0." ++ string_of_nat n)
    (fun n =>
       match n with
       | 0 => Some (Response.mk true (Some ["p1"]) None None None None)
       | 2 => Some (Response.mk false None
                      (Some ("p1", RemoteDescription "v=0")) None None None)
       | _ => Some empty_response
       end)
    (fun _ => None)
    (fun _ => None).

Definition reoffer_lobby : State :=
  run (initial "me" reoffer_oracle)
    [UserTypesUsername "alice"; UserTypesRoomId "abc123"].

(** In the room, with the session for p1 established and its channel
    open. *)
Definition reoffer_room : State :=
  run reoffer_lobby
    [UserJoinRoom; ChannelOpen 0; ConnectionStateChange 0 pcs_connected].

(** The connection [pc] reports the state "connected". *)
Definition connection_is_connected (st : State) (pc : nat) : bool :=
  match nth_error (World.connections (world st)) pc with
  | Some c =>
      match RTCPeerConnection.connectionState c with
      | pcs_connected => true
      | _ => false
      end
  | None => false
  end.

(** Every pending timeout is still pending, in place; some may have
    been added. *)
Definition timeouts_extended (st st' : State) : Prop :=
  exists added,
    World.timeouts (world st') = (World.timeouts (world st) ++ added)%list.

Definition pending_timeouts (st : State) : list Timeout.t := World.timeouts (world st).


(** The log grew at its end: every earlier message is in place. *)
Definition log_extended (st st' : State) : Prop :=
  exists added,
    Store.messages (store st') = (Store.messages (store st) ++ added)%list.

(** The log grew at its end, by messages that are not the user's own. *)
Definition log_extended_by_others (st st' : State) : Prop :=
  exists added,
    Store.messages (store st') = (Store.messages (store st) ++ added)%list /\
    Forall (fun m => Message.isOwn m = false) added.

Definition transmitted (st : State) : list (nat * string) := World.wire (world st).

(** The state once the request [data] of render [this] has failed: it
    is recorded, the console has the error and the log a diagnostic. *)
Definition request_failed (this : Render.t) (data : SignalingData) (st : State) : State :=
  let w1 := world (requested this data st) in
  let w2 := set_console
              (World.console w1 ++ ["Signaling error: TypeError: Failed to fetch"])%list w1 in
  mkState
    (set_messages
       (Store.messages (store st)
          ++ [next_message w2 System
                (JString "❌ Signaling server error. Check your connection.") false])%list
       (store st))
    (tick w2).

(** The state but for its logs: everything except the message log, the
    requests posted, the console and the readings of clock and random
    source. *)
Definition core (st : State) :=
  (set_messages [] (store st),
   (World.heap (world st), World.connections (world st), World.channels (world st),
    World.rtc_calls (world st), World.wire (world st), World.timeouts (world st),
    World.intervals (world st), World.next_timer (world st), World.oracle (world st))).

(** The world once [createPeerConnection] has created an offering
    connection for [targetPeerId] with its channel, before the offer is
    made. *)
Definition initiator_world (this : Render.t) (targetPeerId : string) (w : World.t)
  : World.t :=
  let pc := length (World.connections w) in
  let dc := length (World.channels w) in
  set_channels
    (update_nth dc
       (fun c => RTCDataChannel.mk (RTCDataChannel.readyState c)
                   (RTCDataChannel.owner c) (Some targetPeerId))
       (World.channels w ++ [RTCDataChannel.mk dcs_connecting pc None])%list)
    (set_rtc_calls (World.rtc_calls w ++ [(pc, CreateDataChannel "chat")])%list
       (set_next_timer (S (World.next_timer w))
          (set_timeouts (World.timeouts w ++ [Timeout.mk 30000 pc targetPeerId])%list
             (set_connections
                (World.connections w
                   ++ [RTCPeerConnection.mk pcs_new ice_new targetPeerId this false])%list
                w)))).

(** A browser that rejects the first [createOffer]. *)
Definition offer_rejecting_oracle : Oracle.t :=
  Oracle.mk
    (fun n => N.of_nat (1000 + n))
    (fun n => "0." ++ string_of_nat n)
    (fun n =>
       match n with
       | 0 => Some (Response.mk true (Some ["p1"; "p2"]) None None None None)
       | _ => Some empty_response
       end)
    (fun n => match n with 1 => Some "OperationError: createOffer failed" | _ => None end)
    (fun _ => None).

Definition offer_rejecting_lobby : State :=
  run (initial "me" offer_rejecting_oracle)
    [UserTypesUsername "alice"; UserTypesRoomId "abc123"].

(** No call on a connection is rejected. *)
Definition no_rejection (st : State) : Prop :=
  forall n, Oracle.rtc (World.oracle (world st)) n = None.

(** What [joinRoom] does for one listed peer. *)
Definition join_peer (this : Render.t) (peerId : string) : M unit :=
  pc <- createPeerConnection this peerId true ;;
  setPeers (fun prev =>
    peer <- alloc (new_peer peerId pc) ;; ret (Map_set peerId peer prev)).

(** The state once [joinRoom] has entered the room: the service
    accepted, the polling interval runs, the peers are not dealt with
    yet. *)
Definition entered (this : Render.t) (st : State) : State :=
  let w0 := world st in
  let m1 := next_message w0 System
              (JString ("🔄 Joining room " ++ Render.roomId this ++ "...")) false in
  let w1 := set_requests
              (World.requests w0
                 ++ [Request.mk sig_join_room (Render.roomId this) (Render.myPeerId this)])%list
              (tick w0) in
  let m2 := next_message w1 System
              (JString ("✅ Joined global room: " ++ Render.roomId this)) false in
  let w2 := tick w1 in
  let m3 := next_message w2 System
              (JString "🌍 Ready for worldwide P2P connections!") false in
  let w3 := tick w2 in
  let t := S (World.next_timer w3) in
  let w4 := set_next_timer t
              (set_intervals (World.intervals w3 ++ [Interval.mk t 2000 this])%list w3) in
  mkState
    (set_pollingRef (Some t)
       (set_messages (((Store.messages (store st) ++ [m1]) ++ [m2]) ++ [m3])%list
          (set_isInRoom true (set_isConnecting true (store st)))))
    w4.

(** A service that accepts the join but sends no peer list. *)
Definition listless_oracle : Oracle.t :=
  Oracle.mk
    (fun n => N.of_nat (1000 + n))
    (fun n => "0." ++ string_of_nat n)
    (fun n =>
       match n with
       | 0 => Some (Response.mk true None None None None None)
       | _ => Some empty_response
       end)
    (fun _ => None)
    (fun _ => None).

Definition listless_lobby : State :=
  run (initial "me" listless_oracle)
    [UserTypesUsername "alice"; UserTypesRoomId "abc123"].

(** The peer object with its [connected] flag set, as the "connected"
    notification leaves it. *)
Definition mark_connected (p : PeerConnection.t) : PeerConnection.t :=
  PeerConnection.mk (PeerConnection.id p) (PeerConnection.username p)
    (PeerConnection.connection p) (PeerConnection.dataChannel p) true.

(** The peer object with its channel registered, as [onopen] leaves it. *)
Definition with_channel (dc : nat) (p : PeerConnection.t) : PeerConnection.t :=
  PeerConnection.mk (PeerConnection.id p) (PeerConnection.username p)
    (PeerConnection.connection p) (Some dc) (PeerConnection.connected p).

(** The connected sessions among those the collection [m] points to:
    the count of [updateConnectionStatus], on any collection. *)
Definition connected_sessions (heap : list PeerConnection.t) (m : Map nat) : nat :=
  length (filter PeerConnection.connected (sessions heap (Map_values m))).

(** The status line for [n] connected peers. *)
Definition status_line (n : nat) : string :=
  if 0 <? n
  then "🌍 Connected to " ++ string_of_nat n ++ " peer(s)"
  else "Disconnected".


(** In the room of [example_joined], before any channel has opened,
    with a message typed in. *)
Definition example_waiting : State := run example_joined [UserTypesMessage " hi "].

(** The room of [example_room] after its first session was removed by a
    "disconnected" notification. *)
Definition example_dropped : State :=
  run example_room [ConnectionStateChange 0 pcs_disconnected].

(** A service that lists two peers on join and delivers, on the first
    poll, the answer of the first and a candidate of the second. *)
Definition answering_oracle : Oracle.t :=
  Oracle.mk
    (fun n => N.of_nat (1000 + n))
    (fun n => "0." ++ string_of_nat n)
    (fun n =>
       match n with
       | 0 => Some (Response.mk true (Some ["p1"; "p2"]) None None None None)
       | 3 => Some (Response.mk false None None
                      (Some ("p1", RemoteDescription "v=0"))
                      (Some [("p2", "candidate:1")]) None)
       | _ => Some empty_response
       end)
    (fun _ => None)
    (fun _ => None).

Definition answering_room : State :=
  run (initial "me" answering_oracle)
    [UserTypesUsername "alice"; UserTypesRoomId "abc123"; UserJoinRoom].

(** The call a poll makes for an answer, when the collection [m] has a
    session for its sender. *)
Definition session_connection (m : Map nat) (heap : list PeerConnection.t)
           (from : string) : option nat :=
  match Map_get from m with
  | Some a =>
      match nth_error heap a with
      | Some p => Some (PeerConnection.connection p)
      | None => None
      end
  | None => None
  end.

Definition answer_calls (m : Map nat) (heap : list PeerConnection.t)
           (answer : option (string * Description)) : list (nat * RTCCall) :=
  match answer with
  | Some (from, d) =>
      match session_connection m heap from with
      | Some pc => [(pc, SetRemoteDescription d)]
      | None => []
      end
  | None => []
  end.

(** The calls a poll makes for a list of candidates. *)
Fixpoint candidate_calls (m : Map nat) (heap : list PeerConnection.t)
         (candidates : list (string * Candidate)) : list (nat * RTCCall) :=
  match candidates with
  | [] => []
  | (from, c) :: rest =>
      match session_connection m heap from with
      | Some pc => (pc, AddIceCandidate c) :: candidate_calls m heap rest
      | None => candidate_calls m heap rest
      end
  end.

Definition delivered_candidates (resp : Response.t) : list (string * Candidate) :=
  match Response.iceCandidates resp with
  | Some l => l
  | None => []
  end.

(** A service that accepts the join into an empty room and delivers an
    offer on the first poll, with a browser that rejects the first call
    on a connection. *)
Definition bad_offer_oracle : Oracle.t :=
  Oracle.mk
    (fun n => N.of_nat (1000 + n))
    (fun n => "0." ++ string_of_nat n)
    (fun n =>
       match n with
       | 0 => Some (Response.mk true (Some []) None None None None)
       | 1 => Some (Response.mk false None
                      (Some ("p1", RemoteDescription "garbage")) None None None)
       | _ => Some empty_response
       end)
    (fun n => match n with 0 => Some "InvalidAccessError: bad description" | _ => None end)
    (fun _ => None).

Definition bad_offer_room : State :=
  run (initial "me" bad_offer_oracle)
    [UserTypesUsername "alice"; UserTypesRoomId "abc123"; UserJoinRoom].


(** What a handler does beyond logging: the requests posted, the calls
    made on connections, the timers, what was transmitted, and the
    sessions. *)
Definition activity (st : State) :=
  (World.requests (world st), World.rtc_calls (world st), World.timeouts (world st),
   World.intervals (world st), World.wire (world st), session_store st).

(** The texts of the log. *)
Definition log_contents (st : State) : list JSValue :=
  map Message.content (Store.messages (store st)).

(** A room in which a peer's offer was answered on the first poll: the
    session of that peer waits for the peer's data channel. *)
Definition offered_oracle : Oracle.t :=
  Oracle.mk
    (fun n => N.of_nat (1000 + n))
    (fun n => "0." ++ string_of_nat n)
    (fun n =>
       match n with
       | 0 => Some (Response.mk true (Some []) None None None None)
       | 1 => Some (Response.mk false None
                      (Some ("p1", RemoteDescription "v=0")) None None None)
       | _ => Some empty_response
       end)
    (fun _ => None)
    (fun _ => None).

Definition offered_room : State :=
  run (initial "me" offered_oracle)
    [UserTypesUsername "alice"; UserTypesRoomId "abc123"; UserJoinRoom; IntervalTick 1].

(** ** Sends the browser refuses

    Of [k] sends in a row, the first of them being the [n]-th send of
    the run: the position among them and the error of the first one the
    browser refuses, if it refuses any. *)
Fixpoint first_rejection (env : Oracle.t) (n k : nat) : option (nat * string) :=
  match k with
  | 0 => None
  | S k' =>
      match Oracle.send env n with
      | Some e => Some (0, e)
      | None =>
          match first_rejection env (S n) k' with
          | Some (i, e) => Some (S i, e)
          | None => None
          end
      end
  end.



(** The member [v.k] of a parsed value that is not [null]: the values
    that are not objects have no member of the names read here. *)
Definition member (v : JSValue) (k : string) : JSValue :=
  match v with
  | JObject props => lookup_prop k props
  | _ => JUndefined
  end.


(* ================================================================== *)
(** * Reasoning about handlers *)

(** ** Relations every step of a handler respects

    For a preorder [R], [stable R] goes through sequencing,
    [try]/[catch] and loops, so a handler is checked one primitive at a
    time. *)

Section Stable.

Variable R : State -> State -> Prop.
Hypothesis R_refl : forall st, R st st.
Hypothesis R_trans : forall a b c, R a b -> R b c -> R a c.

Lemma stable_ret {A} (a : A) : stable R (ret a).
Proof. intro st. apply R_refl. Qed.

Lemma stable_throw {A} (e : string) : stable R (@throw A e).
Proof. intro st. apply R_refl. Qed.

Lemma stable_gets {A} (f : State -> A) : stable R (gets f).
Proof. intro st. apply R_refl. Qed.

Lemma stable_bind {A B} (c : M A) (k : A -> M B) :
  stable R c -> (forall a, stable R (k a)) -> stable R (bind c k).
Proof.
  intros Hc Hk st. unfold bind.
  specialize (Hc st). destruct (c st) as [[a|e] st1]; simpl in *.
  - eapply R_trans; [exact Hc | apply Hk].
  - exact Hc.
Qed.

Lemma stable_try_catch {A} (c : M A) (h : string -> M A) :
  stable R c -> (forall e, stable R (h e)) -> stable R (try_catch c h).
Proof.
  intros Hc Hh st. unfold try_catch.
  specialize (Hc st). destruct (c st) as [[a|e] st1]; simpl in *.
  - exact Hc.
  - eapply R_trans; [exact Hc | apply Hh].
Qed.

Lemma stable_forM {A} (xs : list A) (f : A -> M unit) :
  (forall x, stable R (f x)) -> stable R (forM xs f).
Proof.
  intro Hf. induction xs as [|x rest IH]; simpl.
  - apply stable_ret.
  - apply stable_bind; [apply Hf | intros _; exact IH].
Qed.

End Stable.

(** Splitting a handler into its primitives; [leaf] closes the goals
    about primitives. *)
Ltac stable_split Hrefl Htrans leaf :=
  repeat
    lazymatch goal with
    | |- stable _ (ret _) => apply (stable_ret _ Hrefl)
    | |- stable _ (throw _) => apply (stable_throw _ Hrefl)
    | |- stable _ (gets _) => apply (stable_gets _ Hrefl)
    | |- stable _ (bind _ _) => apply (stable_bind Htrans); [ | intros ? ]
    | |- stable _ (try_catch _ _) => apply (stable_try_catch Htrans); [ | intros ? ]
    | |- stable _ (forM _ _) => apply (stable_forM Hrefl Htrans); intros ?
    | |- stable _ (match ?x with _ => _ end) => destruct x
    | |- stable _ _ => progress leaf
    end.

(** ** The [Map] operations *)

Lemma Map_keys_set {V} (k : string) (v : V) (m : Map V) :
  Map_keys (Map_set k v m) =
  if in_dec string_dec k (Map_keys m) then Map_keys m else (Map_keys m ++ [k])%list.
Proof.
  induction m as [|[k' v'] rest IH]; simpl.
  - reflexivity.
  - destruct (String.eqb_spec k k') as [E|Hne].
    + subst k'. destruct (string_dec k k); [reflexivity | congruence].
    + simpl. rewrite IH. unfold Map_keys.
      destruct (string_dec k' k) as [E|Hk]; [congruence|].
      destruct (in_dec string_dec k (map fst rest)); reflexivity.
Qed.

Lemma NoDup_Map_set {V} (k : string) (v : V) (m : Map V) :
  NoDup (Map_keys m) -> NoDup (Map_keys (Map_set k v m)).
Proof.
  intro H. rewrite Map_keys_set.
  destruct (in_dec string_dec k (Map_keys m)) as [Hin|Hnin]; [exact H|].
  apply NoDup_app; [exact H | repeat constructor; intros [] |].
  intros x Hx [<-|[]]. exact (Hnin Hx).
Qed.

Lemma Map_keys_delete_incl {V} (k : string) (m : Map V) :
  incl (Map_keys (Map_delete k m)) (Map_keys m).
Proof.
  induction m as [|[k' v'] rest IH]; simpl; [apply incl_refl|].
  destruct (String.eqb k k').
  - apply incl_tl, incl_refl.
  - simpl. intros x [<-|Hx]; [left; reflexivity | right; apply IH, Hx].
Qed.

Lemma NoDup_Map_delete {V} (k : string) (m : Map V) :
  NoDup (Map_keys m) -> NoDup (Map_keys (Map_delete k m)).
Proof.
  induction m as [|[k' v'] rest IH]; simpl; intro H; [constructor|].
  apply NoDup_cons_iff in H. destruct H as [Hnin Hrest].
  destruct (String.eqb k k'); [exact Hrest|].
  simpl. constructor; [|apply IH, Hrest].
  intro Hin. apply Hnin. exact (Map_keys_delete_incl k rest k' Hin).
Qed.

Lemma Map_get_set_eq {V} (k : string) (v : V) (m : Map V) :
  Map_get k (Map_set k v m) = Some v.
Proof.
  induction m as [|[k' v'] rest IH]; simpl.
  - rewrite String.eqb_refl. reflexivity.
  - destruct (String.eqb k k') eqn:E; simpl; rewrite E; [reflexivity | exact IH].
Qed.

Lemma Map_get_set_neq {V} (k k0 : string) (v : V) (m : Map V) :
  k0 <> k -> Map_get k0 (Map_set k v m) = Map_get k0 m.
Proof.
  intro Hne. induction m as [|[k' v'] rest IH]; simpl.
  - destruct (String.eqb_spec k0 k); [congruence | reflexivity].
  - destruct (String.eqb_spec k k') as [E|Hk]; simpl.
    + subst k'. destruct (String.eqb_spec k0 k); [congruence | reflexivity].
    + rewrite IH. reflexivity.
Qed.

(** ** One entry per peer identifier *)

Lemma keeps_unique_keys_refl : forall st, keeps_unique_keys st st.
Proof. intros st H. exact H. Qed.

Lemma keeps_unique_keys_trans :
  forall a b c, keeps_unique_keys a b -> keeps_unique_keys b c -> keeps_unique_keys a c.
Proof. intros a b c Hab Hbc H. exact (Hbc (Hab H)). Qed.

Lemma setPeers_unique_keys (upd : Map nat -> M (Map nat)) :
  (forall prev st,
      NoDup (Map_keys prev) ->
      store (snd (upd prev st)) = store st /\
      (forall m, fst (upd prev st) = Ok m -> NoDup (Map_keys m))) ->
  stable keeps_unique_keys (setPeers upd).
Proof.
  intros Hupd st Huniq. unfold setPeers, bind, gets, upd_store, modify. simpl.
  destruct (Hupd (Store.peers (store st)) st Huniq) as [Hstore Hres].
  destruct (upd (Store.peers (store st)) st) as [[m|e] st1]; simpl in *.
  - unfold unique_keys. simpl. apply Hres. reflexivity.
  - unfold unique_keys. rewrite Hstore. exact Huniq.
Qed.

Ltac unfold_handlers :=
  unfold joinRoom, leaveRoom, sendMessage, pollSignalingServer, createPeerConnection,
    pc_onicecandidate, pc_oniceconnectionstatechange, pc_onconnectionstatechange,
    connection_timeout, pc_ondatachannel, updateConnectionStatus,
    sendToSignalingServer, dataChannel_onopen, dataChannel_onmessage,
    dataChannel_onerror, setupDataChannel, peers_forEach, send_to, get_prop,
    addMessage, setMessages, setIsInRoom, setMessageInput, setConnectionStatus,
    setIsConnecting, setUsername, setRoomId,
    fetch, new_RTCPeerConnection, set_ondatachannel, rtc_await, pc_createOffer,
    pc_createAnswer, pc_setLocalDescription, pc_setRemoteDescription,
    pc_addIceCandidate, pc_createDataChannel, pc_close, pc_connectionState,
    pc_iceConnectionState, dc_readyState, dc_send, setTimeout, setInterval,
    clearInterval, deref, alloc, mutate, console_error, set_connectionState,
    set_iceConnectionState, set_readyState, live_connection, channel.

Ltac unique_keys_leaf :=
  first
    [ apply setPeers_unique_keys; intros ? ? ?;
      repeat match goal with
             | |- context [match ?x with _ => _ end] => destruct x
             end;
      simpl; (split; [reflexivity|]); intros ? E; inversion E; subst;
      first [ assumption | apply NoDup_Map_set; assumption
            | apply NoDup_Map_delete; assumption | constructor ]
    | progress unfold_handlers
    | progress cbv zeta
    | solve [ intros ? H; exact H ] ].

Lemma send_all_unique_keys payload addrs n :
  stable keeps_unique_keys (send_all payload addrs n).
Proof.
  revert n. induction addrs as [|a rest IH]; intro n; simpl.
  - apply (stable_ret _ keeps_unique_keys_refl).
  - stable_split keeps_unique_keys_refl keeps_unique_keys_trans unique_keys_leaf;
      apply IH.
Qed.

Lemma handle_unique_keys (e : Event) : stable keeps_unique_keys (handle e).
Proof.
  destruct e; unfold handle;
    stable_split keeps_unique_keys_refl keeps_unique_keys_trans
      ltac:(first [ apply send_all_unique_keys | unique_keys_leaf ]).
Qed.

Lemma run_unique_keys (events : list Event) (st : State) :
  unique_keys st -> unique_keys (run st events).
Proof.
  revert st. induction events as [|e rest IH]; intros st H; simpl.
  - exact H.
  - apply IH. apply (handle_unique_keys e). exact H.
Qed.

(* ================================================================== *)
(** * What the handlers do *)

(** ** [addMessage] *)



Lemma addMessage_run (sender content : JSValue) (isOwn : bool) (st : State) :
  addMessage sender content isOwn st =
  (Ok tt,
   mkState
     (set_messages
        (Store.messages (store st) ++ [next_message (world st) sender content isOwn])%list
        (store st))
     (tick (world st))).
Proof. reflexivity. Qed.

(** ** Lists updated by index *)

Lemma nth_error_update_nth {A} (f : A -> A) (l : list A) (n i : nat) :
  nth_error (update_nth n f l) i =
  if i =? n then option_map f (nth_error l i) else nth_error l i.
Proof.
  revert n i. induction l as [|x rest IH]; intros n i.
  - destruct n, i; simpl; try reflexivity. destruct (i =? n); reflexivity.
  - destruct n as [|n], i as [|i]; simpl; try reflexivity. apply IH.
Qed.

(** ** [leaveRoom] *)



Lemma close_all_heap handles w : World.heap (close_all handles w) = World.heap w.
Proof.
  revert w. induction handles as [|h rest IH]; intro w; simpl; [reflexivity|].
  unfold close_all in IH. rewrite IH. reflexivity.
Qed.

Lemma close_all_intervals handles w :
  World.intervals (close_all handles w) = World.intervals w.
Proof.
  revert w. induction handles as [|h rest IH]; intro w; simpl; [reflexivity|].
  unfold close_all in IH. rewrite IH. reflexivity.
Qed.

Lemma close_all_timeouts handles w :
  World.timeouts (close_all handles w) = World.timeouts w.
Proof.
  revert w. induction handles as [|h rest IH]; intro w; simpl; [reflexivity|].
  unfold close_all in IH. rewrite IH. reflexivity.
Qed.

Lemma close_all_rtc_calls handles w :
  World.rtc_calls (close_all handles w) =
  (World.rtc_calls w ++ map (fun pc => (pc, Close)) handles)%list.
Proof.
  revert w. induction handles as [|h rest IH]; intro w; simpl.
  - rewrite app_nil_r. reflexivity.
  - unfold close_all in IH. rewrite IH. simpl. rewrite <- app_assoc. reflexivity.
Qed.

Lemma close_all_closes handles : forall w pc c,
  nth_error (World.connections w) pc = Some c ->
  In pc handles \/ RTCPeerConnection.connectionState c = pcs_closed ->
  exists c',
    nth_error (World.connections (close_all handles w)) pc = Some c' /\
    RTCPeerConnection.connectionState c' = pcs_closed.
Proof.
  induction handles as [|h rest IH]; intros w pc c Hc Hin; simpl.
  - destruct Hin as [[]|Hclosed]. exists c. split; assumption.
  - assert (Hstep : nth_error (World.connections (close_world h w)) pc =
                    Some (if pc =? h then closed_connection c else c)).
    { simpl. rewrite nth_error_update_nth, Hc. destruct (pc =? h); reflexivity. }
    apply (IH _ _ _ Hstep).
    destruct (Nat.eqb_spec pc h) as [E|Hne].
    + right. reflexivity.
    + destruct Hin as [[E|Hin]|Hclosed]; [congruence | left; exact Hin | right; exact Hclosed].
Qed.

Lemma close_loop_run (addrs : list nat) : forall st,
  forM addrs (fun a =>
    o <- deref a ;;
    match o with
    | Some peer => pc_close (PeerConnection.connection peer)
    | None => ret tt
    end) st =
  (Ok tt,
   mkState (store st)
     (close_all (map PeerConnection.connection (sessions (World.heap (world st)) addrs))
        (world st))).
Proof.
  induction addrs as [|a rest IH]; intro st.
  - destruct st. reflexivity.
  - simpl. unfold bind at 1. unfold bind at 1. unfold deref at 1. unfold gets at 1.
    destruct (nth_error (World.heap (world st)) a) as [p|] eqn:E.
    + simpl. rewrite IH. reflexivity.
    + unfold ret at 1. rewrite IH. reflexivity.
Qed.


Lemma leaveRoom_run (this : Render.t) (st : State) :
  leaveRoom this st =
  (Ok tt,
   mkState
     (set_messages
        (Store.messages (store st)
           ++ [next_message (left_world this st) System (JString "👋 Left the room") false])%list
        (set_isConnecting false
           (set_connectionStatus "Disconnected"
              (set_isInRoom false (set_peers [] (store st))))))
     (tick (left_world this st))).
Proof.
  unfold leaveRoom, left_world, peers_forEach.
  unfold bind at 1. unfold gets at 1.
  unfold bind at 1.
  destruct (Store.pollingRef (store st)) as [t|]; simpl.
  - unfold bind at 1. rewrite close_loop_run. reflexivity.
  - unfold bind at 1. rewrite close_loop_run. reflexivity.
Qed.

(** C10: [leaveRoom] returns, and leaves the message log as it was but
    for one System message ("Left the room") added at its end: every
    earlier message is still there, in place and unchanged.  The
    username, the room identifier and the local peer identifier are
    unchanged. *)
Theorem leaveRoom_keeps_log (this : Render.t) (st : State) :
  let st' := snd (leaveRoom this st) in
  fst (leaveRoom this st) = Ok tt /\
  (exists m,
      Store.messages (store st') = (Store.messages (store st) ++ [m])%list /\
      Message.sender m = System /\
      Message.content m = JString "👋 Left the room" /\
      Message.isOwn m = false) /\
  Store.username (store st') = Store.username (store st) /\
  Store.roomId (store st') = Store.roomId (store st) /\
  Store.myPeerId (store st') = Store.myPeerId (store st).
Proof.
  rewrite leaveRoom_run. simpl. repeat split.
  eexists. repeat split.
Qed.

(** C5: whatever the state when [leaveRoom] is called from the page, it
    returns; the interval held in [pollingRef] is no longer running;
    every session of the collection has had [close] called on its
    connection, which is then closed, each independently of the others
    ([close] has no error condition); the collection is empty; the room
    is left; the status is "Disconnected" and the connected-peer count
    is zero. *)
Theorem leaveRoom_teardown (st : State) :
  let st' := snd (leaveRoom (snapshot st) st) in
  fst (leaveRoom (snapshot st) st) = Ok tt /\
  (forall t i,
      Store.pollingRef (store st) = Some t ->
      In i (World.intervals (world st')) -> Interval.id i <> t) /\
  (forall k a p c,
      In (k, a) (Store.peers (store st)) ->
      nth_error (World.heap (world st)) a = Some p ->
      nth_error (World.connections (world st)) (PeerConnection.connection p) = Some c ->
      In (PeerConnection.connection p, Close) (World.rtc_calls (world st')) /\
      exists c',
        nth_error (World.connections (world st')) (PeerConnection.connection p) = Some c' /\
        RTCPeerConnection.connectionState c' = pcs_closed) /\
  Store.peers (store st') = [] /\
  Store.isInRoom (store st') = false /\
  Store.connectionStatus (store st') = "Disconnected" /\
  connected_count st' = 0.
Proof.
  rewrite leaveRoom_run. cbn [fst snd store world].
  split; [reflexivity|]. split; [|split; [|repeat split]].
  - intros t i Ht Hi. unfold tick, left_world in Hi. simpl in Hi.
    rewrite close_all_intervals, Ht in Hi. simpl in Hi.
    apply filter_In in Hi. destruct Hi as [_ Hi].
    intro E. rewrite E, Nat.eqb_refl in Hi. discriminate.
  - intros k a p c Hin Hp Hc.
    assert (Hsess : In (PeerConnection.connection p)
              (map PeerConnection.connection
                 (sessions (World.heap (world st))
                    (Map_values (Store.peers (store st)))))).
    { apply in_map. unfold Map_values.
      induction (Store.peers (store st)) as [|[k' a'] rest IH]; [contradiction|].
      simpl. destruct Hin as [E|Hin].
      - inversion E; subst. rewrite Hp. left. reflexivity.
      - destruct (nth_error (World.heap (world st)) a'); [right|]; apply IH, Hin. }
    unfold tick, left_world. simpl. split.
    + rewrite close_all_rtc_calls. apply in_or_app. right.
      apply in_map_iff. exists (PeerConnection.connection p). split; [reflexivity|exact Hsess].
    + apply close_all_closes with (c := c); [|left; exact Hsess].
      destruct (Store.pollingRef (store st)); exact Hc.
Qed.

Lemma leaveRoom_teardown_witness :
  let st' := snd (leaveRoom (snapshot example_room) example_room) in
  (forall i, In i (World.intervals (world st')) -> Interval.id i <> 1) /\
  In (0, Close) (World.rtc_calls (world st')) /\
  In (1, Close) (World.rtc_calls (world st')).
Proof.
  destruct (leaveRoom_teardown example_room) as (_ & Hpoll & Hclose & _).
  assert (Href : Store.pollingRef (store example_room) = Some 1)
    by (vm_compute; reflexivity).
  assert (Hpeers : Store.peers (store example_room) = [("p1", 0); ("p2", 1)])
    by (vm_compute; reflexivity).
  assert (Hp1 : nth_error (World.heap (world example_room)) 0 =
                Some (PeerConnection.mk "p1" "Peer-p1" 0 (Some 0) true))
    by (vm_compute; reflexivity).
  assert (Hp2 : nth_error (World.heap (world example_room)) 1 =
                Some (PeerConnection.mk "p2" "Peer-p2" 1 None false))
    by (vm_compute; reflexivity).
  assert (Hc1 : nth_error (World.connections (world example_room)) 0 <> None)
    by (vm_compute; discriminate).
  assert (Hc2 : nth_error (World.connections (world example_room)) 1 <> None)
    by (vm_compute; discriminate).
  destruct (nth_error (World.connections (world example_room)) 0) as [c1|] eqn:E1;
    [|congruence].
  destruct (nth_error (World.connections (world example_room)) 1) as [c2|] eqn:E2;
    [|congruence].
  split; [|split].
  - intro i. exact (Hpoll 1 i Href).
  - refine (proj1 (Hclose "p1" 0 _ c1 _ Hp1 E1)).
    rewrite Hpeers. left. reflexivity.
  - refine (proj1 (Hclose "p2" 1 _ c2 _ Hp2 E2)).
    rewrite Hpeers. right. left. reflexivity.
Defined.

(** ** [sendMessage] *)

Lemma open_channels_ext (w w' : World.t) (addrs : list nat) :
  World.heap w' = World.heap w ->
  World.channels w' = World.channels w ->
  open_channels w' addrs = open_channels w addrs.
Proof.
  intros Hh Hc. induction addrs as [|a rest IH]; simpl; [reflexivity|].
  unfold open_channel. rewrite Hh, Hc, IH. reflexivity.
Qed.



Lemma send_all_run (payload : string) (addrs : list nat) : forall c st,
  send_all payload addrs c st =
  match first_rejection (World.oracle (world st)) (World.sends (world st))
          (length (open_channels (world st) addrs)) with
  | None =>
      (Ok (c + length (open_channels (world st) addrs)),
       mkState (store st)
         (set_wire
            (World.wire (world st)
               ++ map (fun dc => (dc, payload)) (open_channels (world st) addrs))%list
            (set_sends (World.sends (world st) + length (open_channels (world st) addrs))
               (world st))))
  | Some (i, e) =>
      (Throw e,
       mkState (store st)
         (set_wire
            (World.wire (world st)
               ++ map (fun dc => (dc, payload))
                    (firstn i (open_channels (world st) addrs)))%list
            (set_sends (World.sends (world st) + S i) (world st))))
  end.
Proof.
  induction addrs as [|a rest IH]; intros c st.
  - destruct st as [s w]. destruct w. cbn. unfold ret, set_wire, set_sends. cbn.
    rewrite app_nil_r, !Nat.add_0_r. reflexivity.
  - cbn [send_all open_channels]. unfold open_channel.
    unfold send_to, dc_send, dc_readyState, deref.
    unfold bind, gets, upd_world, modify, ret, throw.
    destruct (nth_error (World.heap (world st)) a) as [p|].
    2:{ cbv beta iota. rewrite IH, Nat.add_0_r; reflexivity. }
    destruct (PeerConnection.dataChannel p) as [dc|];
      [|cbv beta iota; rewrite IH, Nat.add_0_r; reflexivity].
    cbn [fst snd world store].
    destruct (nth_error (World.channels (world st)) dc) as [ch|] eqn:Ec.
    2:{ cbv beta iota. rewrite IH, Nat.add_0_r; reflexivity. }
    destruct (RTCDataChannel.readyState ch) eqn:Ers;
      try (cbv beta iota; rewrite IH, Nat.add_0_r; reflexivity).
    cbv beta iota. cbn [fst snd world store]. rewrite Ec, Ers. cbv beta iota.
    cbn [fst snd world store World.sends World.oracle set_sends length first_rejection].
    destruct (Oracle.send (World.oracle (world st)) (World.sends (world st))) as [e|] eqn:Es.
    + destruct st as [s w]. destruct w. cbn. unfold set_wire, set_sends. cbn.
      rewrite app_nil_r, Nat.add_1_r. reflexivity.
    + cbv beta iota. rewrite IH. cbn [world store].
      repeat match goal with
             | |- context [open_channels ?w rest] =>
                 lazymatch w with
                 | world st => fail
                 | _ => rewrite (@open_channels_ext (world st) w rest) by reflexivity
                 end
             end.
      cbn [World.sends World.oracle World.wire set_sends set_wire].
      destruct (first_rejection (World.oracle (world st)) (S (World.sends (world st)))
                  (length (open_channels (world st) rest))) as [[i e]|].
      * destruct st as [s w]. destruct w. cbn. unfold set_wire, set_sends. cbn.
        rewrite <- app_assoc. cbn. rewrite !Nat.add_succ_r. reflexivity.
      * destruct st as [s w]. destruct w. cbn. unfold set_wire, set_sends. cbn.
        rewrite <- app_assoc. cbn.
        rewrite <- !Nat.add_assoc. cbn. rewrite !Nat.add_succ_r. reflexivity.
Qed.

Lemma truthy_false (s : string) : truthy s = false <-> s = "".
Proof. destruct s; simpl; split; congruence. Qed.

Lemma sendMessage_run (this : Render.t) (st : State) :
  sendMessage this st =
  if negb (truthy (trim (Render.messageInput this))) then (Ok tt, st)
  else
    let chans := open_channels (world st) (Map_values (Render.peers this)) in
    match first_rejection (World.oracle (world st)) (World.sends (world st))
            (length chans) with
    | Some (i, e) =>
        (Throw e,
         mkState (store st)
           (set_wire
              (World.wire (world st)
                 ++ map (fun dc => (dc, chat_payload this)) (firstn i chans))%list
              (set_sends (World.sends (world st) + S i) (world st))))
    | None =>
        let w1 :=
          set_wire (World.wire (world st)
                      ++ map (fun dc => (dc, chat_payload this)) chans)%list
            (set_sends (World.sends (world st) + length chans) (world st)) in
        match chans with
        | [] =>
            (Ok tt,
             mkState
               (set_messages
                  (Store.messages (store st)
                     ++ [next_message w1 System
                           (JString "❌ No connected peers to send message to") false])%list
                  (store st))
               (tick w1))
        | _ :: _ =>
            (Ok tt,
             mkState
               (set_messageInput ""
                  (set_messages
                     (Store.messages (store st)
                        ++ [next_message w1 (JString (Render.username this))
                              (JString (trim (Render.messageInput this))) true])%list
                     (store st)))
               (tick w1))
        end
    end.
Proof.
  unfold sendMessage, chat_payload.
  destruct (negb (truthy (trim (Render.messageInput this)))); [reflexivity|].
  cbv zeta. unfold bind at 1. rewrite send_all_run.
  destruct (first_rejection (World.oracle (world st)) (World.sends (world st))
              (length (open_channels (world st) (Map_values (Render.peers this)))))
    as [[i e]|]; [reflexivity|].
  destruct (open_channels (world st) (Map_values (Render.peers this))); reflexivity.
Qed.

Lemma nonblank (s : string) : trim s <> "" -> negb (truthy (trim s)) = false.
Proof.
  intro Hne. destruct (truthy (trim s)) eqn:E; [reflexivity|].
  apply truthy_false in E. contradiction.
Qed.

Lemma In_firstn {A} (x : A) (l : list A) : forall n, In x (firstn n l) -> In x l.
Proof.
  induction l as [|y rest IH]; intros [|n]; simpl; try contradiction.
  intros [E|Hin]; [left; exact E | right; exact (IH n Hin)].
Qed.

Lemma sendMessage_transmits (this : Render.t) (st : State) :
  exists dcs,
    World.wire (world (snd (sendMessage this st))) =
      (World.wire (world st) ++ map (fun dc => (dc, chat_payload this)) dcs)%list /\
    incl dcs (open_channels (world st) (Map_values (Render.peers this))).
Proof.
  rewrite sendMessage_run.
  destruct (negb (truthy (trim (Render.messageInput this)))).
  { exists []. split; [symmetry; apply app_nil_r | intros x []]. }
  cbv zeta.
  destruct (first_rejection (World.oracle (world st)) (World.sends (world st))
              (length (open_channels (world st) (Map_values (Render.peers this)))))
    as [[i e]|].
  - eexists. split; [reflexivity|]. intros x Hx. exact (In_firstn _ _ _ Hx).
  - exists (open_channels (world st) (Map_values (Render.peers this))).
    split; [|apply incl_refl].
    destruct (open_channels (world st) (Map_values (Render.peers this))); reflexivity.
Qed.

Lemma sendMessage_returned_wire (this : Render.t) (st : State) :
  trim (Render.messageInput this) <> "" ->
  fst (sendMessage this st) = Ok tt ->
  World.wire (world (snd (sendMessage this st))) =
  (World.wire (world st)
     ++ map (fun dc => (dc, chat_payload this))
          (open_channels (world st) (Map_values (Render.peers this))))%list.
Proof.
  intros Hne. rewrite sendMessage_run. rewrite (nonblank _ Hne). cbv zeta.
  destruct (first_rejection (World.oracle (world st)) (World.sends (world st))
              (length (open_channels (world st) (Map_values (Render.peers this)))))
    as [[i e]|]; [discriminate|].
  intros _.
  destruct (open_channels (world st) (Map_values (Render.peers this))); reflexivity.
Qed.







(** ** Input that is empty once trimmed *)

(** C6, as stated, fails: [sendMessage] with a message of blanks
    surfaces no diagnostic. *)
Lemma sendMessage_blank_no_diagnostic :
  ~ surfaces_diagnostic example_blank
      (snd (sendMessage (snapshot example_blank) example_blank)).
Proof.
  rewrite sendMessage_run.
  replace (negb (truthy (trim (Render.messageInput (snapshot example_blank)))))
    with true by (vm_compute; reflexivity).
  intros [m [Hm _]]. cbn [fst snd store] in Hm.
  apply (f_equal (@length _)) in Hm. rewrite length_app in Hm. cbn [length] in Hm. lia.
Qed.

(** C6, amended: [joinRoom] with a username or a room identifier that
    is empty once trimmed returns without any request to the signaling
    service, any transmission or any call on a connection, and appends
    one System diagnostic; the room is not entered.  [sendMessage] with
    a text that is empty once trimmed returns with the state exactly as
    it was: nothing is transmitted and no diagnostic is appended.
    Neither throws. *)
Theorem empty_input_rejected_locally (st : State) :
  let this := snapshot st in
  (trim (Store.username (store st)) = "" \/ trim (Store.roomId (store st)) = "" ->
   let st' := snd (joinRoom this st) in
   fst (joinRoom this st) = Ok tt /\
   (exists m,
       Store.messages (store st') = (Store.messages (store st) ++ [m])%list /\
       Message.sender m = System /\
       Message.content m = JString "❌ Please enter both username and room ID") /\
   World.requests (world st') = World.requests (world st) /\
   World.wire (world st') = World.wire (world st) /\
   World.rtc_calls (world st') = World.rtc_calls (world st) /\
   World.intervals (world st') = World.intervals (world st) /\
   Store.isInRoom (store st') = Store.isInRoom (store st) /\
   Store.peers (store st') = Store.peers (store st)) /\
  (trim (Store.messageInput (store st)) = "" ->
   sendMessage this st = (Ok tt, st)).
Proof.
  intro this. split.
  - intros Hempty st'. subst st'. unfold joinRoom.
    assert (Hcond : negb (truthy (trim (Render.username this)))
                    || negb (truthy (trim (Render.roomId this))) = true).
    { apply orb_true_iff. destruct Hempty as [H|H]; [left|right];
        apply negb_true_iff, truthy_false; exact H. }
    rewrite Hcond, addMessage_run. cbn [fst snd store world].
    split; [reflexivity|]. split; [|repeat split].
    eexists. repeat split.
  - intro Hempty. rewrite sendMessage_run.
    replace (trim (Render.messageInput this)) with "" by (symmetry; exact Hempty).
    reflexivity.
Qed.

Lemma empty_input_rejected_locally_witness :
  World.requests (world (snd (joinRoom (snapshot (initial "me" example_oracle))
                                 (initial "me" example_oracle)))) = [] /\
  sendMessage (snapshot example_blank) example_blank = (Ok tt, example_blank).
Proof.
  split.
  - assert (H : trim (Store.username (store (initial "me" example_oracle))) = "" \/
                trim (Store.roomId (store (initial "me" example_oracle))) = "")
      by (left; vm_compute; reflexivity).
    destruct (proj1 (empty_input_rejected_locally (initial "me" example_oracle)) H)
      as (_ & _ & Hreq & _).
    rewrite Hreq. reflexivity.
  - apply (proj2 (empty_input_rejected_locally example_blank)).
    vm_compute. reflexivity.
Defined.

(** ** A join the service rejects *)

(** C7 does not hold of the code: with username "alice", room "ABC123"
    and a service answering [{success: false}], [joinRoom] returns
    having appended only its progress message, and no diagnostic after
    it; the room is not entered, no interval runs and no session exists,
    but [isConnecting] is left set. *)
Theorem joinRoom_rejection_unreported :
  let st' := snd (joinRoom (snapshot rejected_lobby) rejected_lobby) in
  fst (joinRoom (snapshot rejected_lobby) rejected_lobby) = Ok tt /\
  map Message.content (Store.messages (store st')) =
    [JString "🔄 Joining room ABC123..."] /\
  Store.isInRoom (store st') = false /\
  Store.isConnecting (store st') = true /\
  Store.pollingRef (store st') = None /\
  World.intervals (world st') = [] /\
  Store.peers (store st') = [].
Proof. vm_compute. repeat split. Qed.

(** ** Inbound payloads *)

(** C3, as stated, fails: on a payload that is not JSON the handler
    does not return, the exception of [JSON.parse] escapes it. *)
Lemma onmessage_malformed_throws :
  fst (dataChannel_onmessage "not json" example_room) <> Ok tt.
Proof. vm_compute. discriminate. Qed.

Lemma parse_scalar_defined (s : string) (v : JSValue) (r : string) :
  parse_scalar s = Parsed v r -> v <> JUndefined.
Proof.
  unfold parse_scalar.
  destruct (strip_prefix "true" s); [intro H; inversion H; discriminate|].
  destruct (strip_prefix "false" s); [intro H; inversion H; discriminate|].
  destruct (strip_prefix "null" s); [intro H; inversion H; discriminate|].
  destruct (lex_number s) as [[lx r']|]; intro H; inversion H; discriminate.
Qed.

Lemma parse_value_defined (fuel : nat) (s : string) (v : JSValue) (r : string) :
  parse_value fuel s = Parsed v r -> v <> JUndefined.
Proof.
  destruct fuel as [|f]; cbn [parse_value]; [discriminate|].
  destruct (skip_ws s) as [|c r0]; [discriminate|].
  destruct (c =? "{")%char.
  { destruct (parse_members f r0) as [| |ms r'];
      repeat match goal with
             | |- context [match ?x with _ => _ end] => destruct x
             end;
      intro H; inversion H; discriminate. }
  destruct (c =? "[")%char.
  { destruct (parse_elements f r0) as [| |vs r'];
      repeat match goal with
             | |- context [match ?x with _ => _ end] => destruct x
             end;
      intro H; inversion H; discriminate. }
  destruct (c =? dquote)%char.
  { destruct (parse_chars r0 None) as [[str r']|]; intro H; inversion H; discriminate. }
  apply parse_scalar_defined.
Qed.

(** [JSON.parse] never yields [undefined]. *)
Lemma JSON_parse_defined (text : string) : JSON_parse text <> Some JUndefined.
Proof.
  unfold JSON_parse.
  destruct (parse_value (JSON_fuel text) text) as [| |v rest] eqn:E; try discriminate.
  destruct (skip_ws rest); [|discriminate].
  intro H. injection H as H. exact (parse_value_defined _ _ E H).
Qed.

(** C3, amended: for every inbound payload.  A payload that is not JSON
    makes the handler throw: the [SyntaxError] of [JSON.parse] escapes
    it.  A payload that parses to [null] makes it throw as well: the
    [TypeError] of reading [data.sender] escapes it.  In both cases
    nothing is logged, no message is appended and the state, sessions
    included, is exactly as it was.  Every other payload (one that
    parses to an object, or to a number, a string, a boolean or an
    array) is appended to the message log as a remote message ([isOwn]
    false) and the handler returns; the message has the value's
    [sender] and [content] members, [undefined] where the value has
    none, as for every value that is not an object; sessions,
    connections and channels are not touched. *)
Theorem onmessage_parsed_or_thrown (event_data : string) (st : State) :
  match JSON_parse event_data with
  | None =>
      dataChannel_onmessage event_data st =
      (Throw "SyntaxError: Unexpected token in JSON", st)
  | Some JNull =>
      dataChannel_onmessage event_data st =
      (Throw "TypeError: Cannot read properties of null (reading 'sender')", st)
  | Some v =>
      let st' := snd (dataChannel_onmessage event_data st) in
      fst (dataChannel_onmessage event_data st) = Ok tt /\
      (exists m,
          Store.messages (store st') = (Store.messages (store st) ++ [m])%list /\
          Message.sender m = member v "sender" /\
          Message.content m = member v "content" /\
          Message.isOwn m = false) /\
      Store.peers (store st') = Store.peers (store st) /\
      World.heap (world st') = World.heap (world st) /\
      World.connections (world st') = World.connections (world st) /\
      World.channels (world st') = World.channels (world st)
  end.
Proof.
  pose proof (JSON_parse_defined event_data) as Hdef.
  unfold dataChannel_onmessage.
  destruct (JSON_parse event_data) as [v|]; [|reflexivity].
  destruct v; try reflexivity; try congruence;
    (unfold bind at 1; unfold ret at 1; unfold get_prop;
     unfold bind at 1; unfold ret at 1; unfold bind at 1; unfold ret at 1;
     rewrite addMessage_run; cbn [fst snd store world];
     split; [reflexivity|]; split; [|repeat split];
     eexists; repeat split).
Qed.

Lemma onmessage_parsed_or_thrown_witness :
  fst (dataChannel_onmessage example_payload example_room) = Ok tt /\
  dataChannel_onmessage "not json" example_room =
    (Throw "SyntaxError: Unexpected token in JSON", example_room) /\
  dataChannel_onmessage "null" example_room =
    (Throw "TypeError: Cannot read properties of null (reading 'sender')", example_room) /\
  exists m,
    Store.messages (store (snd (dataChannel_onmessage "42" example_room))) =
      (Store.messages (store example_room) ++ [m])%list /\
    Message.sender m = JUndefined /\
    Message.content m = JUndefined.
Proof.
  split; [|split; [|split]].
  - pose proof (onmessage_parsed_or_thrown example_payload example_room) as H.
    assert (Hp : JSON_parse example_payload =
                 Some (JObject [("sender", JString "bob"); ("content", JString "hello")]))
      by (vm_compute; reflexivity).
    rewrite Hp in H. exact (proj1 H).
  - pose proof (onmessage_parsed_or_thrown "not json" example_room) as H.
    assert (Hp : JSON_parse "not json" = None) by (vm_compute; reflexivity).
    rewrite Hp in H. exact H.
  - pose proof (onmessage_parsed_or_thrown "null" example_room) as H.
    assert (Hp : JSON_parse "null" = Some JNull) by (vm_compute; reflexivity).
    rewrite Hp in H. exact H.
  - pose proof (onmessage_parsed_or_thrown "42" example_room) as H.
    assert (Hp : JSON_parse "42" = Some (JNumber "42")) by (vm_compute; reflexivity).
    rewrite Hp in H. destruct H as (_ & (m & Hm & Hs & Hc & _) & _).
    exists m. split; [exact Hm|]. split; [exact Hs | exact Hc].
Defined.

(** ** Signaling events from unknown peers *)

Lemma sendToSignalingServer_ok (this : Render.t) (data : SignalingData) (st : State)
      (resp : Response.t) :
  Oracle.fetch (World.oracle (world st)) (length (World.requests (world st))) = Some resp ->
  sendToSignalingServer this data st = (Ok resp, requested this data st).
Proof.
  intro H. unfold sendToSignalingServer, try_catch, fetch, requested.
  unfold bind, gets, upd_world, modify, ret. cbn [fst snd store world].
  cbn [World.oracle set_requests]. rewrite H. reflexivity.
Qed.

Lemma forM_skip {A} (f : A -> M unit) (xs : list A) (st : State) :
  (forall x, In x xs -> f x st = (Ok tt, st)) ->
  forM xs f st = (Ok tt, st).
Proof.
  induction xs as [|x rest IH]; intro H; simpl; [reflexivity|].
  unfold bind. rewrite (H x (or_introl eq_refl)).
  apply IH. intros y Hy. apply H. right. exact Hy.
Qed.

(** C8, as stated, fails: a candidate from a peer without session is
    dropped without anything being logged. *)
Lemma unknown_candidate_not_logged :
  ~ logs_something ghost_room (step ghost_room (IntervalTick 1)).
Proof.
  assert (Hm : length (Store.messages (store (step ghost_room (IntervalTick 1)))) =
               length (Store.messages (store ghost_room)))
    by (vm_compute; reflexivity).
  assert (Hc : length (World.console (world (step ghost_room (IntervalTick 1)))) =
               length (World.console (world ghost_room)))
    by (vm_compute; reflexivity).
  unfold logs_something. rewrite Hm, Hc. lia.
Qed.

(** C8, amended: when a poll delivers no offer, an answer (if any) from
    a peer that has no session in the polling closure's collection, and
    candidates (if any) all from such peers, [pollSignalingServer]
    returns without error; it creates no session and calls no
    connection: the collection, the peer objects, the connections and
    the calls made on them are as before.  The answer is announced by
    one System message and otherwise ignored; the candidates are dropped
    silently: nothing else is added to the log and nothing is written
    to the console. *)
Theorem unknown_peer_events_ignored (this : Render.t) (st : State) (resp : Response.t) :
  Oracle.fetch (World.oracle (world st)) (length (World.requests (world st))) = Some resp ->
  Response.offer resp = None ->
  (forall from answer,
      Response.answer resp = Some (from, answer) ->
      Map_get from (Render.peers this) = None) ->
  (forall candidates from candidate,
      Response.iceCandidates resp = Some candidates ->
      In (from, candidate) candidates ->
      Map_get from (Render.peers this) = None) ->
  let st' := snd (pollSignalingServer this st) in
  fst (pollSignalingServer this st) = Ok tt /\
  Store.peers (store st') = Store.peers (store st) /\
  World.heap (world st') = World.heap (world st) /\
  World.connections (world st') = World.connections (world st) /\
  World.rtc_calls (world st') = World.rtc_calls (world st) /\
  World.console (world st') = World.console (world st) /\
  Store.messages (store st') =
    (Store.messages (store st) ++
     match Response.answer resp with
     | Some (from, _) =>
         [next_message (world st) System
            (JString ("📨 Received connection answer from " ++ substring 0 6 from))
            false]
     | None => []
     end)%list.
Proof.
  intros Hfetch Hoffer Hanswer Hcands st'. subst st'.
  remember (pollSignalingServer this st) as r eqn:Hr.
  unfold pollSignalingServer, try_catch in Hr.
  unfold bind at 1 in Hr. rewrite (sendToSignalingServer_ok this sig_poll st Hfetch) in Hr.
  rewrite Hoffer in Hr. unfold bind at 1 in Hr. unfold ret at 1 in Hr.
  unfold bind at 1 in Hr.
  destruct (Response.answer resp) as [[from answer]|] eqn:Ea.
  - rewrite (Hanswer from answer eq_refl) in Hr.
    unfold bind at 1 in Hr. rewrite addMessage_run in Hr. unfold ret at 1 in Hr.
    destruct (Response.iceCandidates resp) as [cs|] eqn:Ec.
    + rewrite forM_skip in Hr.
      * subst r. cbn [fst snd store world]. repeat split.
      * intros [from' c] Hin. rewrite (Hcands cs from' c eq_refl Hin). reflexivity.
    + subst r. unfold ret. cbn [fst snd store world]. repeat split.
  - unfold ret at 1 in Hr.
    destruct (Response.iceCandidates resp) as [cs|] eqn:Ec.
    + rewrite forM_skip in Hr.
      * subst r. cbn [fst snd store world]. rewrite app_nil_r. repeat split.
      * intros [from' c] Hin. rewrite (Hcands cs from' c eq_refl Hin). reflexivity.
    + subst r. unfold ret. cbn [fst snd store world]. rewrite app_nil_r. repeat split.
Qed.

Lemma unknown_peer_events_ignored_witness :
  let st' := snd (pollSignalingServer (snapshot ghost_lobby) ghost_room) in
  Store.messages (store st') = Store.messages (store ghost_room) /\
  World.rtc_calls (world st') = World.rtc_calls (world ghost_room).
Proof.
  assert (Hfetch : Oracle.fetch (World.oracle (world ghost_room))
                     (length (World.requests (world ghost_room))) =
                   Some (Response.mk false None None None
                           (Some [("ghost", "candidate:1")]) None))
    by (vm_compute; reflexivity).
  destruct (unknown_peer_events_ignored
              (snapshot ghost_lobby) ghost_room Hfetch eq_refl)
    as (_ & _ & _ & _ & Hcalls & _ & Hmsgs).
  - intros from answer H. discriminate H.
  - intros cs from c H Hin. reflexivity.
  - split; [|exact Hcalls]. rewrite Hmsgs. apply app_nil_r.
Defined.

(** ** Parts of the state a handler leaves alone *)

Lemma keeps_refl {X} (f : State -> X) : forall st, keeps f st st.
Proof. intro st. reflexivity. Qed.

Lemma keeps_trans {X} (f : State -> X) :
  forall a b c, keeps f a b -> keeps f b c -> keeps f a c.
Proof. unfold keeps. intros a b c Hab Hbc. congruence. Qed.

Ltac keeps_leaf :=
  first
    [ progress unfold_handlers
    | progress unfold setPeers
    | progress cbv zeta
    | solve [ intros ?; reflexivity ] ].

Ltac keeps_split f := stable_split (@keeps_refl _ f) (@keeps_trans _ f) keeps_leaf.

Lemma bind_run_ok {A B} (c : M A) (k : A -> M B) (st st1 : State) (a : A) :
  c st = (Ok a, st1) -> bind c k st = k a st1.
Proof. intro H. unfold bind. rewrite H. reflexivity. Qed.

Lemma keeps_after {X A B} (f : State -> X) (c : M A) (k : A -> M B)
      (st st1 : State) (a : A) :
  c st = (Ok a, st1) -> stable (keeps f) (k a) -> f (snd (bind c k st)) = f st1.
Proof. intros H Hk. rewrite (@bind_run_ok _ _ c k st st1 a H). apply Hk. Qed.

Lemma try_catch_keeps {X A} (f : State -> X) (c : M A) (h : string -> M A) (st : State) :
  (forall e, stable (keeps f) (h e)) ->
  f (snd (try_catch c h st)) = f (snd (c st)).
Proof.
  intro Hh. unfold try_catch. destruct (c st) as [[a|e] st1]; simpl; [reflexivity|].
  apply Hh.
Qed.
Lemma rtc_await_ok (pc : nat) (call : RTCCall) (st : State) :
  Oracle.rtc (World.oracle (world st)) (length (World.rtc_calls (world st))) = None ->
  rtc_await pc call st =
  (Ok tt,
   mkState (store st)
     (set_rtc_calls (World.rtc_calls (world st) ++ [(pc, call)])%list (world st))).
Proof.
  intro H. unfold rtc_await, bind, gets, upd_world, modify, ret.
  cbn [fst snd store world World.oracle set_rtc_calls]. rewrite H. reflexivity.
Qed.

Lemma createPeerConnection_responder_run (this : Render.t) (target : string) (st : State) :
  createPeerConnection this target false st =
  (Ok (length (World.connections (world st))),
   mkState (store st) (responder_world this target (world st))).
Proof. reflexivity. Qed.

Lemma sendToSignalingServer_sessions (this : Render.t) (data : SignalingData) :
  stable (keeps session_store) (sendToSignalingServer this data).
Proof. keeps_split session_store. Qed.

Lemma sendToSignalingServer_returns (this : Render.t) (data : SignalingData) (st : State) :
  exists r, fst (sendToSignalingServer this data st) = Ok r.
Proof.
  unfold sendToSignalingServer, try_catch, fetch, bind, gets, upd_world, modify, ret.
  cbn [fst snd store world].
  destruct (Oracle.fetch _ _); eexists; reflexivity.
Qed.

(** ** An offer from a peer *)

Lemma poll_offer_sessions (this : Render.t) (st : State) (resp : Response.t)
      (from : string) (offer : Description) :
  Oracle.fetch (World.oracle (world st)) (length (World.requests (world st))) = Some resp ->
  Response.offer resp = Some (from, offer) ->
  (forall i, i < 3 ->
     Oracle.rtc (World.oracle (world st)) (length (World.rtc_calls (world st)) + i) = None) ->
  session_store (snd (pollSignalingServer this st)) =
  (Map_set from (length (World.heap (world st))) (Store.peers (store st)),
   (World.heap (world st)
      ++ [new_peer from (length (World.connections (world st)))])%list).
Proof.
  intros Hfetch Hoffer Hrtc.
  unfold pollSignalingServer.
  rewrite try_catch_keeps by (intro e; keeps_split session_store).
  match goal with
  | |- session_store (snd (bind ?c ?k st)) = _ =>
      rewrite (@bind_run_ok _ _ c k st _ _ (sendToSignalingServer_ok this sig_poll st Hfetch))
  end.
  rewrite Hoffer.
  match goal with
  | |- session_store (snd (bind ?c ?k ?s)) = _ =>
      assert (Hrun : exists st7,
                 c s = (Ok tt, st7) /\
                 session_store st7 =
                 (Map_set from (length (World.heap (world st))) (Store.peers (store st)),
                  (World.heap (world st)
                     ++ [new_peer from (length (World.connections (world st)))])%list))
  end.
  { unfold bind at 1. rewrite addMessage_run.
    unfold bind at 1. unfold setIsConnecting, upd_store, modify at 1.
    unfold bind at 1. rewrite createPeerConnection_responder_run.
    unfold bind at 1. unfold pc_setRemoteDescription. rewrite rtc_await_ok.
    2:{ cbn [world store]. cbn. rewrite <- (Hrtc 0) by lia. rewrite Nat.add_0_r. reflexivity. }
    unfold bind at 1. unfold pc_createAnswer. unfold bind at 1. rewrite rtc_await_ok.
    2:{ cbn. rewrite <- (Hrtc 1) by lia. rewrite length_app. reflexivity. }
    unfold ret at 1.
    unfold bind at 1. unfold pc_setLocalDescription. rewrite rtc_await_ok.
    2:{ cbn. rewrite <- (Hrtc 2) by lia. rewrite !length_app. cbn.
        rewrite <- Nat.add_assoc. reflexivity. }
    unfold bind at 1.
    match goal with
    | |- context [sendToSignalingServer this ?d ?s] =>
        pose proof (sendToSignalingServer_sessions this d s) as Hkeep;
        destruct (sendToSignalingServer_returns this d s) as [r Hr];
        destruct (sendToSignalingServer this d s) as [res st6]
    end.
    cbn [fst snd] in Hr, Hkeep. subst res.
    unfold keeps, session_store in Hkeep. cbn [store world fst snd] in Hkeep.
    inversion Hkeep as [[Hpeers Hheap]].
    eexists. split; [reflexivity|].
    unfold session_store. cbn. rewrite Hpeers, Hheap. reflexivity. }
  destruct Hrun as (st7 & Hrun & Hst7).
  match goal with
  | |- session_store (snd (bind ?c ?k ?s)) = _ =>
      rewrite (@keeps_after _ _ _ session_store c k s st7 tt Hrun)
  end.
  - exact Hst7.
  - keeps_split session_store.
Qed.
(** C2, as stated, fails: an inbound offer from a peer whose session is
    established is not ignored.  The entry of that peer in the
    collection is replaced by a fresh session object, on a new
    connection, not connected and without channel. *)
Lemma inbound_offer_replaces_session :
  Store.peers (store (step reoffer_room (IntervalTick 1)))
    <> Store.peers (store reoffer_room) /\
  sessions (World.heap (world reoffer_room))
    (Map_values (Store.peers (store reoffer_room)))
    = [PeerConnection.mk "p1" "Peer-p1" 0 (Some 0) true] /\
  sessions (World.heap (world (step reoffer_room (IntervalTick 1))))
    (Map_values (Store.peers (store (step reoffer_room (IntervalTick 1)))))
    = [PeerConnection.mk "p1" "Peer-p1" 1 None false].
Proof.
  split; [|split].
  - vm_compute. discriminate.
  - vm_compute. reflexivity.
  - vm_compute. reflexivity.
Qed.

(** C2, amended: whatever events happen (joins, polls, offers,
    notifications of connections and channels, user actions), the
    collection keeps at most one session per peer identifier.  An
    inbound offer is never ignored: when the calls on the new
    connection succeed, the offering peer's entry is set to a fresh
    session object (new connection, not connected, no channel), which
    replaces the session that peer had, if any. *)
Theorem one_session_per_peer :
  (forall (st : State) (events : list Event),
      unique_keys st -> unique_keys (run st events)) /\
  (forall (this : Render.t) (st : State) (resp : Response.t)
          (from : string) (offer : Description),
      Oracle.fetch (World.oracle (world st)) (length (World.requests (world st)))
        = Some resp ->
      Response.offer resp = Some (from, offer) ->
      (forall i, i < 3 ->
         Oracle.rtc (World.oracle (world st))
           (length (World.rtc_calls (world st)) + i) = None) ->
      let st' := snd (pollSignalingServer this st) in
      let fresh := length (World.heap (world st)) in
      Store.peers (store st') = Map_set from fresh (Store.peers (store st)) /\
      Map_get from (Store.peers (store st')) = Some fresh /\
      nth_error (World.heap (world st')) fresh =
        Some (new_peer from (length (World.connections (world st))))).
Proof.
  split.
  - intros st events. apply run_unique_keys.
  - intros this st resp from offer Hfetch Hoffer Hrtc st' fresh.
    pose proof (poll_offer_sessions this st Hfetch Hoffer Hrtc) as H.
    unfold session_store in H. inversion H as [[Hpeers Hheap]].
    subst st' fresh. rewrite Hpeers, Hheap. split; [reflexivity|]. split.
    + apply Map_get_set_eq.
    + rewrite nth_error_app2 by apply Nat.le_refl.
      rewrite Nat.sub_diag. reflexivity.
Qed.

Lemma one_session_per_peer_witness :
  unique_keys (run reoffer_room [IntervalTick 1; UserLeaveRoom; UserJoinRoom]) /\
  Map_get "p1" (Store.peers (store (snd (pollSignalingServer (snapshot reoffer_lobby)
                                           reoffer_room)))) = Some 1.
Proof.
  destruct one_session_per_peer as [Hinv Hoffer]. split.
  - apply Hinv. unfold unique_keys.
    replace (Store.peers (store reoffer_room)) with [("p1", 0)]
      by (vm_compute; reflexivity).
    repeat constructor. intros [].
  - assert (Hfetch : Oracle.fetch (World.oracle (world reoffer_room))
                       (length (World.requests (world reoffer_room))) =
                     Some (Response.mk false None
                             (Some ("p1", RemoteDescription "v=0")) None None None))
      by (vm_compute; reflexivity).
    assert (Hrtc : forall i, i < 3 ->
              Oracle.rtc (World.oracle (world reoffer_room))
                (length (World.rtc_calls (world reoffer_room)) + i) = None)
      by (intros i _; vm_compute; reflexivity).
    destruct (Hoffer (snapshot reoffer_lobby) reoffer_room _ _ _ Hfetch eq_refl Hrtc)
      as (_ & Hget & _).
    replace (length (World.heap (world reoffer_room))) with 1 in Hget
      by (vm_compute; reflexivity).
    exact Hget.
Defined.

(** ** The connection timeout *)

Lemma timeouts_extended_refl : forall st, timeouts_extended st st.
Proof. intro st. exists []. rewrite app_nil_r. reflexivity. Qed.

Lemma timeouts_extended_trans :
  forall a b c, timeouts_extended a b -> timeouts_extended b c -> timeouts_extended a c.
Proof.
  intros a b c [x Hx] [y Hy]. exists (x ++ y)%list.
  rewrite Hy, Hx, app_assoc. reflexivity.
Qed.

Ltac timeouts_leaf :=
  first
    [ progress unfold_handlers
    | progress unfold setPeers
    | progress cbv zeta
    | solve [ intros ?; exists []; cbn; rewrite app_nil_r; reflexivity ]
    | solve [ intros ?; eexists; cbn; reflexivity ] ].

Lemma send_all_timeouts payload addrs n :
  stable timeouts_extended (send_all payload addrs n).
Proof.
  intro st. rewrite send_all_run.
  destruct (first_rejection _ _ _) as [[i e]|];
    exists []; cbn; rewrite app_nil_r; reflexivity.
Qed.

Lemma handle_timeouts_extended (e : Event) :
  (forall k, e <> TimeoutFires k) -> stable timeouts_extended (handle e).
Proof.
  intro Hne. destruct e; try (exfalso; eapply Hne; reflexivity); unfold handle;
    stable_split timeouts_extended_refl timeouts_extended_trans
      ltac:(first [ apply send_all_timeouts | timeouts_leaf ]).
Qed.

Lemma createPeerConnection_timeout (this : Render.t) (target : string) (init : bool)
      (st : State) :
  pending_timeouts (snd (createPeerConnection this target init st)) =
  (pending_timeouts st
     ++ [Timeout.mk 30000 (length (World.connections (world st))) target])%list.
Proof.
  unfold createPeerConnection.
  match goal with
  | |- pending_timeouts (snd (bind ?c ?k st)) = _ =>
      rewrite (@bind_run_ok _ _ c k st _ _ eq_refl)
  end.
  match goal with
  | |- pending_timeouts (snd (bind ?c ?k ?s)) = _ =>
      rewrite (@keeps_after _ _ _ pending_timeouts c k s _ tt eq_refl)
  end.
  - reflexivity.
  - keeps_split pending_timeouts.
Qed.

Lemma connection_timeout_run (pc : nat) (target : string) (st : State) :
  connection_timeout pc target st =
  if connection_is_connected st pc then (Ok tt, st)
  else
    (Ok tt,
     mkState
       (set_isConnecting false
          (set_messages
             (Store.messages (store st)
                ++ [next_message (world st) System
                      (JString
                         ("⏰ Connection timeout with " ++ substring 0 6 target
                          ++ ". The peer might be offline or behind a restrictive firewall."))
                      false])%list
             (store st)))
       (tick (world st))).
Proof.
  unfold connection_timeout, connection_is_connected, pc_connectionState.
  unfold bind at 1. unfold gets at 1.
  destruct (nth_error (World.connections (world st)) pc) as [c|];
    [destruct (RTCPeerConnection.connectionState c)|]; reflexivity.
Qed.
(** C4, as stated, fails: after the timeouts of both sessions of
    [example_joined] have fired with neither connected, nothing is
    pending any more, and the first session is still in the collection,
    its object unchanged and its connection not closed: it was neither
    failed nor removed. *)
Lemma timeout_leaves_session :
  let st' := run example_joined [TimeoutFires 0; TimeoutFires 0] in
  Map_get "p1" (Store.peers (store st')) <> None /\
  World.timeouts (world st') = [] /\
  sessions (World.heap (world st')) (Map_values (Store.peers (store st'))) =
  sessions (World.heap (world example_joined))
    (Map_values (Store.peers (store example_joined))) /\
  map RTCPeerConnection.connectionState (World.connections (world st')) =
    [pcs_new; pcs_new].
Proof.
  cbv zeta. split; [|split; [|split]].
  - vm_compute. discriminate.
  - vm_compute. reflexivity.
  - vm_compute. reflexivity.
  - vm_compute. reflexivity.
Qed.

(** C4, amended: every connection created gets a timeout of 30000
    milliseconds.  When it fires and the connection does not report
    "connected" (whatever else it reports, "closed" included), one
    System diagnostic is appended and [isConnecting] is cleared; when
    the connection reports "connected", nothing happens.  Either way
    the sessions, their objects and the connections are left as they
    are: the session is neither failed nor removed.  A pending timeout
    is never cancelled: no other event, connecting and leaving the room
    included, takes it off the pending ones. *)
Theorem connection_timeout_reports_only :
  (forall (this : Render.t) (target : string) (init : bool) (st : State),
      pending_timeouts (snd (createPeerConnection this target init st)) =
      (pending_timeouts st
         ++ [Timeout.mk 30000 (length (World.connections (world st))) target])%list) /\
  (forall (pc : nat) (target : string) (st : State),
      let st' := snd (connection_timeout pc target st) in
      fst (connection_timeout pc target st) = Ok tt /\
      Store.peers (store st') = Store.peers (store st) /\
      World.heap (world st') = World.heap (world st) /\
      World.connections (world st') = World.connections (world st) /\
      World.rtc_calls (world st') = World.rtc_calls (world st) /\
      (connection_is_connected st pc = true -> st' = st) /\
      (connection_is_connected st pc = false ->
       Store.isConnecting (store st') = false /\
       exists m,
         Store.messages (store st') = (Store.messages (store st) ++ [m])%list /\
         Message.sender m = System /\
         Message.content m =
           JString ("⏰ Connection timeout with " ++ substring 0 6 target
                    ++ ". The peer might be offline or behind a restrictive firewall."))) /\
  (forall (e : Event) (st : State),
      (forall k, e <> TimeoutFires k) -> timeouts_extended st (step st e)).
Proof.
  split; [|split].
  - apply createPeerConnection_timeout.
  - intros pc target st st'. subst st'. rewrite connection_timeout_run.
    destruct (connection_is_connected st pc); cbn [fst snd store world].
    + split; [reflexivity|]. do 4 (split; [reflexivity|]).
      split; [reflexivity | intro H; discriminate H].
    + split; [reflexivity|]. do 4 (split; [reflexivity|]).
      split; [intro H; discriminate H|]. intros _.
      split; [reflexivity|]. eexists. repeat split.
  - intros e st Hne. apply (handle_timeouts_extended Hne).
Qed.

Lemma connection_timeout_reports_only_witness :
  snd (connection_timeout 0 "p1" example_room) = example_room /\
  Store.isConnecting (store (snd (connection_timeout 1 "p2" example_room))) = false /\
  timeouts_extended example_joined
    (step example_joined (ConnectionStateChange 0 pcs_connected)).
Proof.
  destruct connection_timeout_reports_only as (_ & Hfire & Hkeep).
  split; [|split].
  - destruct (Hfire 0 "p1" example_room) as (_ & _ & _ & _ & _ & Hconn & _).
    apply Hconn. vm_compute. reflexivity.
  - destruct (Hfire 1 "p2" example_room) as (_ & _ & _ & _ & _ & _ & Hnot).
    apply Hnot. vm_compute. reflexivity.
  - apply Hkeep. intros k H. discriminate H.
Defined.

(** ** The chat payload survives the wire *)

Lemma string_app_assoc (a b c : string) : ((a ++ b) ++ c = a ++ (b ++ c))%string.
Proof. induction a as [|x a IH]; simpl; [reflexivity | rewrite IH; reflexivity]. Qed.

Lemma parse_quote_char (ch : ascii) (tail : string) :
  parse_chars (quote_char ch ++ tail) None =
  prepend (String ch EmptyString) (parse_chars tail None).
Proof.
  destruct ch as [[] [] [] [] [] [] [] []];
    cbv -[parse_chars]; cbn; reflexivity.
Qed.

Lemma parse_quote_chars (s rest : string) :
  parse_chars (quote_chars s ++ String dquote rest) None = Some (s, rest).
Proof.
  induction s as [|ch s IH]; cbn [quote_chars].
  - reflexivity.
  - rewrite string_app_assoc, parse_quote_char, IH. reflexivity.
Qed.

Lemma JSON_quote_app (s rest : string) :
  (JSON_quote s ++ rest)%string = String dquote (quote_chars s ++ String dquote rest).
Proof. unfold JSON_quote. cbn [append]. rewrite string_app_assoc. reflexivity. Qed.

Lemma parse_value_string (f : nat) (r : string) :
  parse_value (S f) (String dquote r) =
  match parse_chars r None with
  | Some (str, r') => Parsed (JString str) r'
  | None => SyntaxError
  end.
Proof. reflexivity. Qed.

Lemma parse_value_object (f : nat) (r : string) :
  parse_value (S f) (String "{" (String dquote r)) =
  match parse_members f (String dquote r) with
  | Parsed ms r' => Parsed (JObject ms) r'
  | OutOfFuel => OutOfFuel
  | SyntaxError => SyntaxError
  end.
Proof. reflexivity. Qed.

Lemma parse_members_member (f : nat) (r : string) :
  parse_members (S f) (String dquote r) =
  match parse_chars r None with
  | Some (key, r1) =>
      match skip_ws r1 with
      | String ":"%char r2 =>
          match parse_value f r2 with
          | Parsed v r3 =>
              match skip_ws r3 with
              | String ","%char r4 =>
                  match parse_members f r4 with
                  | Parsed ms r5 => Parsed ((key, v) :: ms) r5
                  | OutOfFuel => OutOfFuel
                  | SyntaxError => SyntaxError
                  end
              | String "}"%char r4 => Parsed [(key, v)] r4
              | _ => SyntaxError
              end
          | OutOfFuel => OutOfFuel
          | SyntaxError => SyntaxError
          end
      | _ => SyntaxError
      end
  | None => SyntaxError
  end.
Proof. reflexivity. Qed.

Lemma parse_value_payload (fuel : nat) (sender content : string) :
  parse_value (S (S (S (S fuel)))) (JSON_stringify (mkMessageData sender content)) =
  Parsed (JObject [("sender", JString sender); ("content", JString content)]) EmptyString.
Proof.
  unfold JSON_stringify. cbn [md_sender md_content].
  rewrite !JSON_quote_app.
  cbn [append].
  rewrite parse_value_object, parse_members_member, parse_quote_chars.
  change (skip_ws (String ":" ?x)) with (String ":" x). cbv beta iota.
  rewrite parse_value_string, parse_quote_chars.
  change (skip_ws (String "," ?x)) with (String "," x). cbv beta iota.
  rewrite parse_members_member, parse_quote_chars.
  change (skip_ws (String ":" ?x)) with (String ":" x). cbv beta iota.
  rewrite parse_value_string, parse_quote_chars.
  reflexivity.
Qed.

Lemma JSON_parse_stringify (sender content : string) :
  JSON_parse (JSON_stringify (mkMessageData sender content)) =
  Some (JObject [("sender", JString sender); ("content", JString content)]).
Proof.
  unfold JSON_parse, JSON_fuel.
  assert (Hlen : exists n, String.length (JSON_stringify (mkMessageData sender content)) = S n).
  { unfold JSON_stringify. eexists. reflexivity. }
  destruct Hlen as [n Hn]. rewrite Hn.
  replace (2 * S n + 2) with (S (S (S (S (2 * n))))) by lia.
  rewrite parse_value_payload. reflexivity.
Qed.

(** X1: what [sendMessage] serializes, [JSON.parse] reads back: the
    payload built from a sender and a content parses to the object with
    exactly these two members, whatever characters they hold. *)
Theorem chat_payload_round_trip (sender content : string) :
  JSON_parse (JSON_stringify (mkMessageData sender content)) =
  Some (JObject [("sender", JString sender); ("content", JString content)]).
Proof. apply JSON_parse_stringify. Qed.

(** X2: a peer running this code that receives, on a channel, the
    payload [sendMessage] transmitted for a user and a text appends
    exactly one message, with that user as sender, the trimmed text as
    content and [isOwn] false, and its handler returns. *)
Theorem sent_payload_is_displayed (this : Render.t) (st : State) :
  let st' := snd (dataChannel_onmessage (chat_payload this) st) in
  fst (dataChannel_onmessage (chat_payload this) st) = Ok tt /\
  exists m,
    Store.messages (store st') = (Store.messages (store st) ++ [m])%list /\
    Message.sender m = JString (Render.username this) /\
    Message.content m = JString (trim (Render.messageInput this)) /\
    Message.isOwn m = false.
Proof.
  unfold dataChannel_onmessage, chat_payload. rewrite JSON_parse_stringify.
  cbn. split; [reflexivity|]. eexists. repeat split.
Qed.

(** ** Handlers that cannot throw *)













(** ** The message log only grows *)

Lemma log_extended_refl : forall st, log_extended st st.
Proof. intro st. exists []. rewrite app_nil_r. reflexivity. Qed.

Lemma log_extended_trans :
  forall a b c, log_extended a b -> log_extended b c -> log_extended a c.
Proof.
  intros a b c [x Hx] [y Hy]. exists (x ++ y)%list.
  rewrite Hy, Hx, app_assoc. reflexivity.
Qed.

Ltac log_leaf :=
  first
    [ progress unfold_handlers
    | progress unfold setPeers
    | progress cbv zeta
    | solve [ intros ?; exists []; cbn; rewrite app_nil_r; reflexivity ]
    | solve [ intros ?; eexists; cbn; reflexivity ] ].

Lemma send_all_log payload addrs n : stable log_extended (send_all payload addrs n).
Proof.
  intro st. rewrite send_all_run.
  destruct (first_rejection _ _ _) as [[i e]|];
    exists []; cbn; rewrite app_nil_r; reflexivity.
Qed.

Lemma handle_log_extended (e : Event) : stable log_extended (handle e).
Proof.
  destruct e; unfold handle;
    stable_split log_extended_refl log_extended_trans
      ltac:(first [ apply send_all_log | log_leaf ]).
Qed.

(** X4: the message log is append-only: whatever events happen, every
    message once in the log stays there, in place and unchanged; the log
    after a run is the log before it with messages added at its end. *)
Theorem message_log_append_only (events : list Event) (st : State) :
  exists added,
    Store.messages (store (run st events)) = (Store.messages (store st) ++ added)%list.
Proof.
  revert st. induction events as [|e rest IH]; intro st; simpl.
  - exists []. rewrite app_nil_r. reflexivity.
  - apply (log_extended_trans (b := step st e)).
    + apply (handle_log_extended e).
    + apply IH.
Qed.

Lemma log_by_others_refl : forall st, log_extended_by_others st st.
Proof. intro st. exists []. rewrite app_nil_r. split; [reflexivity|constructor]. Qed.

Lemma log_by_others_trans :
  forall a b c, log_extended_by_others a b -> log_extended_by_others b c ->
                log_extended_by_others a c.
Proof.
  intros a b c [x [Hx Fx]] [y [Hy Fy]]. exists (x ++ y)%list. split.
  - rewrite Hy, Hx, app_assoc. reflexivity.
  - apply Forall_app. split; assumption.
Qed.

Ltac others_leaf :=
  first
    [ progress unfold_handlers
    | progress unfold setPeers
    | progress cbv zeta
    | solve [ intros ?; exists []; cbn; rewrite app_nil_r; split; [reflexivity|constructor] ]
    | solve [ intros ?; eexists; cbn; split; [reflexivity|repeat constructor] ] ].

Lemma handle_log_by_others (e : Event) :
  e <> UserSendMessage -> stable log_extended_by_others (handle e).
Proof.
  intro Hne. destruct e; try (exfalso; apply Hne; reflexivity); unfold handle;
    stable_split log_by_others_refl log_by_others_trans others_leaf.
Qed.

(** X5: a message marked as the user's own only ever comes from the
    user's send action: every message any other event adds to the log
    has [isOwn] false. *)
Theorem own_messages_only_from_send (e : Event) (st : State) :
  e <> UserSendMessage ->
  exists added,
    Store.messages (store (step st e)) = (Store.messages (store st) ++ added)%list /\
    Forall (fun m => Message.isOwn m = false) added.
Proof. intro Hne. apply (handle_log_by_others Hne). Qed.

Lemma own_messages_only_from_send_witness :
  exists added,
    Store.messages (store (step example_room (ChannelMessage 0 example_payload))) =
      (Store.messages (store example_room) ++ added)%list /\
    Forall (fun m => Message.isOwn m = false) added.
Proof.
  apply own_messages_only_from_send. intro H. discriminate H.
Defined.

(** ** Who puts data on the wire *)

Lemma handle_keeps_wire (e : Event) :
  e <> UserSendMessage -> stable (keeps transmitted) (handle e).
Proof.
  intro Hne. destruct e; try (exfalso; apply Hne; reflexivity); unfold handle;
    keeps_split transmitted.
Qed.

(** X6: nothing but the user's send action transmits on a data channel:
    every other event (diagnostics, signaling, notifications, leaving)
    leaves what has been put on the wire as it is.  What the send action
    transmits is one payload, the serialized [{sender, content}] made
    of the page's username and trimmed input, on open channels of
    sessions of the collection. *)
Theorem only_send_transmits (e : Event) (st : State) :
  (e <> UserSendMessage -> World.wire (world (step st e)) = World.wire (world st)) /\
  exists dcs,
    World.wire (world (step st UserSendMessage)) =
      (World.wire (world st)
         ++ map (fun dc => (dc, chat_payload (snapshot st))) dcs)%list /\
    incl dcs (open_channels (world st) (Map_values (Store.peers (store st)))).
Proof.
  split.
  - intro Hne. apply (handle_keeps_wire Hne).
  - exact (sendMessage_transmits (snapshot st) st).
Qed.

Lemma only_send_transmits_witness :
  World.wire (world (step example_room UserLeaveRoom)) = World.wire (world example_room).
Proof.
  apply (proj1 (only_send_transmits UserLeaveRoom example_room)).
  intro H. discriminate H.
Defined.

(** ** Talking to the signaling service *)

Lemma sendToSignalingServer_failed (this : Render.t) (data : SignalingData) (st : State) :
  Oracle.fetch (World.oracle (world st)) (length (World.requests (world st))) = None ->
  sendToSignalingServer this data st = (Ok network_error, request_failed this data st).
Proof.
  intro H. unfold sendToSignalingServer, try_catch, fetch, request_failed, requested.
  unfold bind, gets, upd_world, modify, ret, throw. cbn [fst snd store world].
  cbn [World.oracle set_requests]. rewrite H. reflexivity.
Qed.

(** X7: [sendToSignalingServer] never throws.  It records exactly one
    request, carrying the render's room and peer identifiers.  When the
    service answers, it returns the body and changes nothing else; when
    the request fails, it returns the object [{error: "Network error"}]
    after adding one System diagnostic to the log and one line to the
    console.  Sessions are not touched either way. *)
Theorem signaling_failure_contained (this : Render.t) (data : SignalingData) (st : State) :
  let st' := snd (sendToSignalingServer this data st) in
  World.requests (world st') =
    (World.requests (world st)
       ++ [Request.mk data (Render.roomId this) (Render.myPeerId this)])%list /\
  session_store st' = session_store st /\
  match Oracle.fetch (World.oracle (world st)) (length (World.requests (world st))) with
  | Some body =>
      fst (sendToSignalingServer this data st) = Ok body /\
      Store.messages (store st') = Store.messages (store st) /\
      World.console (world st') = World.console (world st)
  | None =>
      fst (sendToSignalingServer this data st) = Ok network_error /\
      (exists m,
          Store.messages (store st') = (Store.messages (store st) ++ [m])%list /\
          Message.sender m = System /\
          Message.content m =
            JString "❌ Signaling server error. Check your connection.") /\
      (exists line, World.console (world st') = (World.console (world st) ++ [line])%list)
  end.
Proof.
  cbv zeta.
  destruct (Oracle.fetch (World.oracle (world st)) (length (World.requests (world st))))
    as [body|] eqn:E.
  - rewrite (sendToSignalingServer_ok this data st E). cbn. repeat split.
  - rewrite (sendToSignalingServer_failed this data st E). cbn.
    split; [reflexivity|]. split; [reflexivity|]. split; [reflexivity|].
    split; eexists; repeat split.
Qed.

(** ** Creating a connection *)

Lemma update_nth_length_app {A} (f : A -> A) (l : list A) (x : A) :
  update_nth (length l) f (l ++ [x])%list = (l ++ [f x])%list.
Proof. induction l as [|y l IH]; simpl; [reflexivity | rewrite IH; reflexivity]. Qed.

Lemma sendToSignalingServer_core (this : Render.t) (data : SignalingData) :
  stable (keeps core) (sendToSignalingServer this data).
Proof. keeps_split core. Qed.

Lemma addMessage_core sender content isOwn :
  stable (keeps core) (addMessage sender content isOwn).
Proof. keeps_split core. Qed.

Lemma core_eq (st st' : State) :
  core st' = core st ->
  (Store.username (store st') = Store.username (store st) /\
   Store.roomId (store st') = Store.roomId (store st) /\
   Store.myPeerId (store st') = Store.myPeerId (store st) /\
   Store.isInRoom (store st') = Store.isInRoom (store st) /\
   Store.peers (store st') = Store.peers (store st) /\
   Store.messageInput (store st') = Store.messageInput (store st) /\
   Store.connectionStatus (store st') = Store.connectionStatus (store st) /\
   Store.isConnecting (store st') = Store.isConnecting (store st) /\
   Store.pollingRef (store st') = Store.pollingRef (store st)) /\
  (World.heap (world st') = World.heap (world st) /\
   World.connections (world st') = World.connections (world st) /\
   World.channels (world st') = World.channels (world st) /\
   World.rtc_calls (world st') = World.rtc_calls (world st) /\
   World.wire (world st') = World.wire (world st) /\
   World.timeouts (world st') = World.timeouts (world st) /\
   World.intervals (world st') = World.intervals (world st) /\
   World.next_timer (world st') = World.next_timer (world st) /\
   World.oracle (world st') = World.oracle (world st)).
Proof.
  unfold core. intro H. split.
  - apply (f_equal fst) in H. cbn [fst] in H.
    repeat split;
      [ apply (f_equal Store.username) in H | apply (f_equal Store.roomId) in H
      | apply (f_equal Store.myPeerId) in H | apply (f_equal Store.isInRoom) in H
      | apply (f_equal Store.peers) in H | apply (f_equal Store.messageInput) in H
      | apply (f_equal Store.connectionStatus) in H
      | apply (f_equal Store.isConnecting) in H
      | apply (f_equal Store.pollingRef) in H ]; exact H.
  - apply (f_equal snd) in H. cbn [snd] in H.
    inversion H. repeat split; assumption.
Qed.

(** The offering branch, up to the posting of the offer. *)
Lemma createPeerConnection_initiator_run (this : Render.t) (target : string) (st : State) :
  let pc := length (World.connections (world st)) in
  let m := length (World.rtc_calls (world st)) in
  Oracle.rtc (World.oracle (world st)) (S m) = None ->
  Oracle.rtc (World.oracle (world st)) (S (S m)) = None ->
  createPeerConnection this target true st =
  (let (r, st') :=
     sendToSignalingServer this (sig_offer target (LocalOffer pc))
       (mkState (store st)
          (set_rtc_calls
             (World.rtc_calls (initiator_world this target (world st))
                ++ [(pc, CreateOffer); (pc, SetLocalDescription (LocalOffer pc))])%list
             (initiator_world this target (world st)))) in
   match r with
   | Ok _ => (Ok pc, st')
   | Throw e => (Throw e, st')
   end).
Proof.
  intros pc m H1 H2. unfold createPeerConnection.
  unfold bind at 1. unfold new_RTCPeerConnection at 1.
  unfold bind at 1. unfold gets at 1. unfold bind at 1. unfold upd_world, modify at 1.
  unfold ret at 1.
  unfold bind at 1. unfold setTimeout, upd_world, modify at 1.
  unfold bind at 1. unfold bind at 1. unfold pc_createDataChannel at 1.
  unfold bind at 1. unfold gets at 1. unfold bind at 1. unfold upd_world, modify at 1.
  unfold ret at 1.
  unfold bind at 1. unfold setupDataChannel, upd_world, modify at 1.
  unfold bind at 1. unfold pc_createOffer at 1. unfold bind at 1.
  rewrite rtc_await_ok.
  2:{ cbn. rewrite length_app, Nat.add_1_r. exact H1. }
  unfold ret at 1.
  unfold bind at 1. unfold pc_setLocalDescription. rewrite rtc_await_ok.
  2:{ cbn. rewrite !length_app. cbn. rewrite Nat.add_1_r. rewrite Nat.add_1_r. exact H2. }
  unfold bind at 1.
  cbn [store world fst snd]. unfold initiator_world.
  cbn [World.connections World.channels World.rtc_calls World.timeouts World.next_timer
       set_channels set_rtc_calls set_next_timer set_timeouts set_connections
       World.heap World.requests World.wire World.intervals World.console World.clock
       World.draws World.oracle].
  rewrite <- !app_assoc. cbn [app].
  match goal with
  | |- (let (_, _) := let (_, _) := ?a in _ in _) = (let (_, _) := ?b in _) =>
      replace a with b; [destruct b as [[r|e] st6]; reflexivity|]
  end.
  reflexivity.
Qed.
Lemma sendToSignalingServer_requests (this : Render.t) (data : SignalingData) (st : State) :
  World.requests (world (snd (sendToSignalingServer this data st))) =
  (World.requests (world st)
     ++ [Request.mk data (Render.roomId this) (Render.myPeerId this)])%list.
Proof.
  destruct (Oracle.fetch (World.oracle (world st)) (length (World.requests (world st))))
    as [body|] eqn:E.
  - rewrite (sendToSignalingServer_ok this data st E). reflexivity.
  - rewrite (sendToSignalingServer_failed this data st E). reflexivity.
Qed.

(** X8: [createPeerConnection] for an initiator, when [createOffer] and
    [setLocalDescription] succeed: it returns the new connection; on it,
    in this order, a channel labelled "chat" was created, an offer
    created and set as local description; the channel has the handlers
    of the target peer; exactly one request, the offer addressed to the
    target, was posted; one timeout of 30000 ms is pending for the
    connection.  No session is added by it: the collection and the peer
    objects are as before. *)
Theorem initiator_negotiation (this : Render.t) (target : string) (st : State) :
  let pc := length (World.connections (world st)) in
  let m := length (World.rtc_calls (world st)) in
  Oracle.rtc (World.oracle (world st)) (S m) = None ->
  Oracle.rtc (World.oracle (world st)) (S (S m)) = None ->
  let st' := snd (createPeerConnection this target true st) in
  fst (createPeerConnection this target true st) = Ok pc /\
  World.connections (world st') =
    (World.connections (world st)
       ++ [RTCPeerConnection.mk pcs_new ice_new target this false])%list /\
  World.channels (world st') =
    (World.channels (world st) ++ [RTCDataChannel.mk dcs_connecting pc (Some target)])%list /\
  World.rtc_calls (world st') =
    (World.rtc_calls (world st)
       ++ [(pc, CreateDataChannel "chat"); (pc, CreateOffer);
           (pc, SetLocalDescription (LocalOffer pc))])%list /\
  World.requests (world st') =
    (World.requests (world st)
       ++ [Request.mk (sig_offer target (LocalOffer pc))
             (Render.roomId this) (Render.myPeerId this)])%list /\
  World.timeouts (world st') =
    (World.timeouts (world st) ++ [Timeout.mk 30000 pc target])%list /\
  session_store st' = session_store st.
Proof.
  intros pc m H1 H2 st'. subst st'.
  rewrite (createPeerConnection_initiator_run this target st H1 H2).
  fold pc.
  match goal with
  | |- context [sendToSignalingServer this ?d ?s] =>
      pose proof (sendToSignalingServer_core this d s) as Hcore;
      pose proof (sendToSignalingServer_requests this d s) as Hreq;
      destruct (sendToSignalingServer_returns this d s) as [r Hr];
      destruct (sendToSignalingServer this d s) as [res st6]
  end.
  cbn [fst snd] in Hr, Hcore, Hreq. subst res.
  destruct (core_eq Hcore)
    as ((_ & _ & _ & _ & Hpeers & _) & Hheap & Hconn & Hchan & Hcalls & _ & Hto & _).
  cbn [store world] in Hpeers, Hheap, Hconn, Hchan, Hcalls, Hto.
  cbn [fst snd].
  split; [reflexivity|].
  split; [rewrite Hconn; reflexivity|].
  split; [rewrite Hchan; unfold initiator_world; cbn; rewrite update_nth_length_app; reflexivity|].
  split; [rewrite Hcalls; unfold initiator_world; cbn; rewrite <- app_assoc; reflexivity|].
  split; [rewrite Hreq; reflexivity|].
  split; [rewrite Hto; reflexivity|].
  unfold session_store. rewrite Hheap, Hpeers. reflexivity.
Qed.

Lemma initiator_negotiation_witness :
  fst (createPeerConnection (snapshot example_lobby) "p9" true example_room) = Ok 2.
Proof.
  assert (H1 : Oracle.rtc (World.oracle (world example_room))
                 (S (length (World.rtc_calls (world example_room)))) = None)
    by (vm_compute; reflexivity).
  assert (H2 : Oracle.rtc (World.oracle (world example_room))
                 (S (S (length (World.rtc_calls (world example_room))))) = None)
    by (vm_compute; reflexivity).
  destruct (initiator_negotiation (snapshot example_lobby) "p9" example_room H1 H2)
    as (Hok & _).
  rewrite Hok. vm_compute. reflexivity.
Defined.

(** X9: when [createOffer] is rejected, [createPeerConnection] throws
    the rejection and posts nothing to the signaling service; the
    connection it created, its channel and its timeout stay behind, and
    no session is added. *)
Theorem rejected_offer_leaves_connection (this : Render.t) (target : string) (st : State)
        (e : string) :
  Oracle.rtc (World.oracle (world st)) (S (length (World.rtc_calls (world st)))) = Some e ->
  let st' := snd (createPeerConnection this target true st) in
  fst (createPeerConnection this target true st) = Throw e /\
  World.requests (world st') = World.requests (world st) /\
  length (World.connections (world st')) = S (length (World.connections (world st))) /\
  length (World.channels (world st')) = S (length (World.channels (world st))) /\
  World.timeouts (world st') =
    (World.timeouts (world st)
       ++ [Timeout.mk 30000 (length (World.connections (world st))) target])%list /\
  session_store st' = session_store st.
Proof.
  intros H st'. subst st'.
  unfold createPeerConnection, new_RTCPeerConnection, setTimeout, pc_createDataChannel,
    setupDataChannel, pc_createOffer, rtc_await.
  unfold bind, gets, upd_world, modify, ret, throw.
  cbn [fst snd store world]. cbn.
  rewrite length_app, Nat.add_1_r, H. cbn.
  rewrite !length_app, !Nat.add_1_r.
  repeat split.
  set (f := fun c => RTCDataChannel.mk (RTCDataChannel.readyState c)
                       (RTCDataChannel.owner c) (Some target)).
  rewrite (update_nth_length_app f). rewrite length_app. cbn. lia.
Qed.

Lemma rejected_offer_leaves_connection_witness :
  fst (createPeerConnection (snapshot offer_rejecting_lobby) "p1" true offer_rejecting_lobby)
  = Throw "OperationError: createOffer failed".
Proof.
  assert (H : Oracle.rtc (World.oracle (world offer_rejecting_lobby))
                (S (length (World.rtc_calls (world offer_rejecting_lobby)))) =
              Some "OperationError: createOffer failed")
    by (vm_compute; reflexivity).
  exact (proj1 (rejected_offer_leaves_connection
                  (snapshot offer_rejecting_lobby) "p1" offer_rejecting_lobby H)).
Defined.

(** ** Joining a room *)

Lemma join_peer_run (this : Render.t) (p : string) (st : State) :
  no_rejection st ->
  exists st',
    join_peer this p st = (Ok tt, st') /\
    Store.peers (store st') =
      Map_set p (length (World.heap (world st))) (Store.peers (store st)) /\
    World.heap (world st') =
      (World.heap (world st)
         ++ [new_peer p (length (World.connections (world st)))])%list /\
    World.requests (world st') =
      (World.requests (world st)
         ++ [Request.mk (sig_offer p (LocalOffer (length (World.connections (world st)))))
               (Render.roomId this) (Render.myPeerId this)])%list /\
    World.oracle (world st') = World.oracle (world st) /\
    World.intervals (world st') = World.intervals (world st) /\
    Store.isInRoom (store st') = Store.isInRoom (store st) /\
    Store.isConnecting (store st') = Store.isConnecting (store st) /\
    Store.pollingRef (store st') = Store.pollingRef (store st).
Proof.
  intro Hok. unfold join_peer. unfold bind at 1.
  rewrite (createPeerConnection_initiator_run this p st (Hok _) (Hok _)).
  match goal with
  | |- context [sendToSignalingServer this ?d ?s] =>
      pose proof (sendToSignalingServer_core this d s) as Hcore;
      pose proof (sendToSignalingServer_requests this d s) as Hreq;
      destruct (sendToSignalingServer_returns this d s) as [r Hr];
      destruct (sendToSignalingServer this d s) as [res st6]
  end.
  cbn [fst snd] in Hr, Hcore, Hreq. subst res.
  destruct (core_eq Hcore)
    as ((_ & _ & _ & Hroom & Hpeers & _ & _ & Hconn & Href)
        & Hheap & _ & _ & _ & _ & _ & Hint & _ & Hor).
  cbn [store world] in Hpeers, Hheap, Hroom, Hconn, Href, Hint, Hor, Hreq.
  eexists. split; [reflexivity|].
  cbn [store world fst snd]. cbn.
  rewrite Hpeers, Hheap, Hreq, Hor, Hint, Hroom, Hconn, Href.
  repeat split.
Qed.
Lemma join_peers_run (this : Render.t) (found : list string) : forall st,
  no_rejection st ->
  exists st',
    forM found (join_peer this) st = (Ok tt, st') /\
    (forall p, In p found ->
       exists a pc,
         Map_get p (Store.peers (store st')) = Some a /\
         nth_error (World.heap (world st')) a = Some (new_peer p pc) /\
         In (Request.mk (sig_offer p (LocalOffer pc))
               (Render.roomId this) (Render.myPeerId this))
            (World.requests (world st'))) /\
    (forall k, ~ In k found ->
       Map_get k (Store.peers (store st')) = Map_get k (Store.peers (store st))) /\
    (exists added, World.heap (world st') = (World.heap (world st) ++ added)%list) /\
    (exists added, World.requests (world st') = (World.requests (world st) ++ added)%list) /\
    World.intervals (world st') = World.intervals (world st) /\
    Store.isInRoom (store st') = Store.isInRoom (store st) /\
    Store.isConnecting (store st') = Store.isConnecting (store st) /\
    Store.pollingRef (store st') = Store.pollingRef (store st).
Proof.
  induction found as [|p rest IH]; intros st Hok.
  - exists st. split; [reflexivity|]. split; [intros p []|]. split; [reflexivity|].
    split; [exists []; symmetry; apply app_nil_r|].
    split; [exists []; symmetry; apply app_nil_r|]. repeat split.
  - destruct (join_peer_run this p Hok)
      as (st1 & Hrun & Hpeers & Hheap & Hreq & Hor & Hint & Hroom & Hconn & Href).
    assert (Hok1 : no_rejection st1) by (intro n; rewrite Hor; apply Hok).
    destruct (IH st1 Hok1)
      as (st' & Hrun' & Hsess & Hother & [hadd Hheap'] & [radd Hreq']
          & Hint' & Hroom' & Hconn' & Href').
    exists st'. split.
    { cbn [forM]. unfold bind. rewrite Hrun. exact Hrun'. }
    split; [|split; [|split; [|split; [|repeat split]]]].
    + intros q Hq. destruct (in_dec string_dec q rest) as [Hin|Hnin].
      * apply Hsess, Hin.
      * destruct Hq as [E|Hq]; [subst q|contradiction].
        exists (length (World.heap (world st))), (length (World.connections (world st))).
        split; [|split].
        -- rewrite (Hother p Hnin), Hpeers. apply Map_get_set_eq.
        -- rewrite Hheap', Hheap, <- app_assoc.
           rewrite nth_error_app2 by apply Nat.le_refl.
           rewrite Nat.sub_diag. reflexivity.
        -- rewrite Hreq', Hreq. apply in_or_app. left. apply in_or_app. right.
           left. reflexivity.
    + intros k Hk. rewrite Hother by (intro H; apply Hk; right; exact H).
      rewrite Hpeers. apply Map_get_set_neq. intro E. apply Hk. left. congruence.
    + exists ([new_peer p (length (World.connections (world st)))] ++ hadd)%list.
      rewrite Hheap', Hheap, <- app_assoc. reflexivity.
    + eexists. rewrite Hreq', Hreq, <- app_assoc. reflexivity.
    + congruence.
    + congruence.
    + congruence.
    + congruence.
Qed.

Lemma truthy_true (s : string) : s <> "" -> truthy s = true.
Proof. destruct s; [congruence | reflexivity]. Qed.

(** [joinRoom] up to the handling of the peer list, when the names are
    given and the service accepts. *)
Lemma joinRoom_accepted_run (this : Render.t) (st : State) (resp : Response.t) :
  trim (Render.username this) <> "" ->
  trim (Render.roomId this) <> "" ->
  Oracle.fetch (World.oracle (world st)) (length (World.requests (world st))) = Some resp ->
  Response.success resp = true ->
  joinRoom this st =
  try_catch
    (found <- match Response.peers resp with
              | Some l => ret l
              | None =>
                  throw "TypeError: Cannot read properties of undefined (reading 'length')"
              end ;;
     if 0 <? length found then
       addMessage System
         (JString ("👥 Found " ++ string_of_nat (length found)
                   ++ " peer(s) in room. Connecting...")) false ;;
       forM found (join_peer this)
     else
       addMessage System
         (JString "👤 You're the first one in this room. Waiting for others...") false ;;
       setIsConnecting false)
    (fun error =>
       addMessage System (JString ("❌ Failed to join room: " ++ error)) false ;;
       setIsConnecting false)
    (entered this st).
Proof.
  intros Hu Hr Hfetch Hsucc. unfold joinRoom.
  rewrite (truthy_true Hu), (truthy_true Hr). cbn [negb orb].
  unfold bind at 1. unfold setIsConnecting, upd_store, modify at 1.
  unfold bind at 1. rewrite addMessage_run.
  unfold try_catch. unfold bind at 1.
  rewrite sendToSignalingServer_ok with (resp := resp) by exact Hfetch.
  rewrite Hsucc.
  unfold bind at 1. unfold setIsInRoom, upd_store, modify at 1.
  unfold bind at 1. rewrite addMessage_run.
  unfold bind at 1. rewrite addMessage_run.
  unfold bind at 1. unfold setInterval at 1.
  unfold bind at 1. unfold gets at 1. unfold bind at 1. unfold upd_world, modify at 1.
  unfold ret at 1. unfold bind at 1. unfold upd_store, modify at 1.
  unfold entered. vm_compute. reflexivity.
Qed.
Lemma entered_fields (this : Render.t) (st : State) :
  Store.isInRoom (store (entered this st)) = true /\
  Store.isConnecting (store (entered this st)) = true /\
  Store.pollingRef (store (entered this st)) = Some (S (World.next_timer (world st))) /\
  World.intervals (world (entered this st)) =
    (World.intervals (world st)
       ++ [Interval.mk (S (World.next_timer (world st))) 2000 this])%list /\
  session_store (entered this st) = session_store st /\
  World.oracle (world (entered this st)) = World.oracle (world st).
Proof. repeat split. Qed.

(** X10: [joinRoom] with a username and a room identifier, a service
    that accepts and lists peers, and no rejected connection call: it
    returns with the room entered and [pollSignalingServer] of this
    render running every 2000 ms under the identifier kept in
    [pollingRef]; every listed peer has a session in the collection, a
    fresh initiator session (not connected, no channel yet) on its own
    connection, and was sent an offer made on that connection; the
    sessions of peers not listed are as they were.  [isConnecting] is
    left set when peers were listed and cleared when the room was
    empty. *)
Theorem join_creates_initiator_sessions
        (this : Render.t) (st : State) (resp : Response.t) (found : list string) :
  trim (Render.username this) <> "" ->
  trim (Render.roomId this) <> "" ->
  Oracle.fetch (World.oracle (world st)) (length (World.requests (world st))) = Some resp ->
  Response.success resp = true ->
  Response.peers resp = Some found ->
  no_rejection st ->
  let st' := snd (joinRoom this st) in
  fst (joinRoom this st) = Ok tt /\
  Store.isInRoom (store st') = true /\
  (exists t,
      Store.pollingRef (store st') = Some t /\
      In (Interval.mk t 2000 this) (World.intervals (world st'))) /\
  (forall p, In p found ->
     exists a pc,
       Map_get p (Store.peers (store st')) = Some a /\
       nth_error (World.heap (world st')) a = Some (new_peer p pc) /\
       In (Request.mk (sig_offer p (LocalOffer pc))
             (Render.roomId this) (Render.myPeerId this))
          (World.requests (world st'))) /\
  (forall k, ~ In k found ->
     Map_get k (Store.peers (store st')) = Map_get k (Store.peers (store st))) /\
  Store.isConnecting (store st') = match found with [] => false | _ :: _ => true end.
Proof.
  intros Hu Hr Hfetch Hsucc Hpeers Hok st'. subst st'.
  destruct (joinRoom this st) as [res st'] eqn:Hres. cbn [fst snd].
  rewrite (joinRoom_accepted_run this st Hu Hr Hfetch Hsucc) in Hres.
  destruct (entered_fields this st) as (HEroom & HEconn & HEref & HEint & HEsess & HEor).
  revert HEroom HEconn HEref HEint HEsess HEor Hres.
  generalize (entered this st).
  intros stE HEroom HEconn HEref HEint HEsess HEor Hres.
  unfold session_store in HEsess. injection HEsess as HEpeers HEheap.
  rewrite Hpeers in Hres. unfold try_catch in Hres.
  unfold bind at 1 in Hres. unfold ret at 1 in Hres.
  destruct (0 <? length found) eqn:Hlen.
  - unfold bind at 1 in Hres.
    match type of Hres with
    | context [addMessage ?s ?m ?o stE] =>
        pose proof (addMessage_core s m o stE) as Hc; unfold keeps in Hc;
        rewrite addMessage_run in Hc; rewrite addMessage_run in Hres
    end.
    cbn [snd] in Hc.
    match type of Hres with
    | context [forM found (join_peer this) ?s] =>
        revert Hc Hres; generalize s; intros stA Hc Hres
    end.
    destruct (core_eq Hc)
      as ((_ & _ & _ & HAroom & HApeers & _ & _ & HAconn & HAref)
          & _ & _ & _ & _ & _ & _ & HAint & _ & HAor).
    rewrite HEroom in HAroom. rewrite HEconn in HAconn. rewrite HEref in HAref.
    rewrite HEint in HAint. rewrite HEor in HAor. rewrite HEpeers in HApeers.
    assert (Hok1 : no_rejection stA) by (intro n; rewrite HAor; apply Hok).
    destruct (join_peers_run this found Hok1)
      as (st1 & Hrun & Hsess & Hother & _ & _ & Hint & Hroom & Hconn & Href).
    rewrite Hrun in Hres. injection Hres as Hr1 Hr2. subst res st'.
    split; [reflexivity|]. split; [rewrite Hroom; exact HAroom|].
    split.
    { eexists. split; [rewrite Href; exact HAref|]. rewrite Hint, HAint.
      apply in_or_app. right. left. reflexivity. }
    split; [exact Hsess|]. split.
    + intros k Hk. rewrite (Hother k Hk). rewrite HApeers. reflexivity.
    + rewrite Hconn, HAconn. destruct found; [discriminate Hlen | reflexivity].
  - unfold bind at 1 in Hres.
    match type of Hres with
    | context [addMessage ?s ?m ?o stE] =>
        pose proof (addMessage_core s m o stE) as Hc; unfold keeps in Hc;
        rewrite addMessage_run in Hc; rewrite addMessage_run in Hres
    end.
    cbn [snd] in Hc.
    match type of Hres with
    | context [setIsConnecting false ?s] =>
        revert Hc Hres; generalize s; intros stA Hc Hres
    end.
    destruct (core_eq Hc)
      as ((_ & _ & _ & HAroom & HApeers & _ & _ & HAconn & HAref)
          & _ & _ & _ & _ & _ & _ & HAint & _ & HAor).
    rewrite HEroom in HAroom. rewrite HEref in HAref. rewrite HEint in HAint.
    rewrite HEpeers in HApeers.
    assert (Hnil : found = []) by (destruct found; [reflexivity | discriminate Hlen]).
    subst found.
    change (setIsConnecting false stA)
      with (Ok tt, mkState (set_isConnecting false (store stA)) (world stA)) in Hres.
    injection Hres as Hr1 Hr2. subst res st'.
    cbn [store world set_isConnecting
         Store.isInRoom Store.pollingRef Store.peers Store.isConnecting].
    split; [reflexivity|].
    split; [exact HAroom|].
    split.
    { eexists. split; [exact HAref|]. rewrite HAint.
      apply in_or_app. right. left. reflexivity. }
    split; [intros p []|]. split; [intros k _; rewrite HApeers; reflexivity|].
    reflexivity.
Qed.

Lemma join_creates_initiator_sessions_witness :
  Store.isInRoom (store (snd (joinRoom (snapshot example_lobby) example_lobby))) = true /\
  Map_get "p2" (Store.peers (store (snd (joinRoom (snapshot example_lobby) example_lobby))))
    <> None.
Proof.
  assert (Hu : trim (Render.username (snapshot example_lobby)) <> "")
    by (vm_compute; discriminate).
  assert (Hr : trim (Render.roomId (snapshot example_lobby)) <> "")
    by (vm_compute; discriminate).
  assert (Hfetch : Oracle.fetch (World.oracle (world example_lobby))
                     (length (World.requests (world example_lobby))) =
                   Some (Response.mk true (Some ["p1"; "p2"]) None None None None))
    by (vm_compute; reflexivity).
  assert (Hok : no_rejection example_lobby) by (intro n; vm_compute; reflexivity).
  destruct (@join_creates_initiator_sessions (snapshot example_lobby) example_lobby _ _
              Hu Hr Hfetch eq_refl eq_refl Hok) as (_ & Hroom & _ & Hsess & _).
  split; [exact Hroom|].
  destruct (Hsess "p2" (or_intror (or_introl eq_refl))) as (a & pc & Hget & _).
  rewrite Hget. discriminate.
Defined.

(** X11: [joinRoom] when the service accepts but its answer carries no
    peer list: reading the list throws, after the room was entered and
    the polling started.  The exception is caught: [joinRoom] returns,
    a System diagnostic "Failed to join room" is the last message and
    [isConnecting] is cleared, but the room stays entered and the
    interval stays running; no session is created. *)
Theorem join_without_peer_list (this : Render.t) (st : State) (resp : Response.t) :
  trim (Render.username this) <> "" ->
  trim (Render.roomId this) <> "" ->
  Oracle.fetch (World.oracle (world st)) (length (World.requests (world st))) = Some resp ->
  Response.success resp = true ->
  Response.peers resp = None ->
  let st' := snd (joinRoom this st) in
  fst (joinRoom this st) = Ok tt /\
  Store.isInRoom (store st') = true /\
  (exists t,
      Store.pollingRef (store st') = Some t /\
      In (Interval.mk t 2000 this) (World.intervals (world st'))) /\
  Store.isConnecting (store st') = false /\
  session_store st' = session_store st /\
  (exists earlier m,
      Store.messages (store st') = (earlier ++ [m])%list /\
      Message.sender m = System /\
      Message.content m =
        JString ("❌ Failed to join room: "
                 ++ "TypeError: Cannot read properties of undefined (reading 'length')")).
Proof.
  intros Hu Hr Hfetch Hsucc Hpeers st'. subst st'.
  destruct (joinRoom this st) as [res st'] eqn:Hres. cbn [fst snd].
  rewrite (joinRoom_accepted_run this st Hu Hr Hfetch Hsucc) in Hres.
  destruct (entered_fields this st) as (HEroom & HEconn & HEref & HEint & HEsess & HEor).
  revert HEroom HEconn HEref HEint HEsess HEor Hres.
  generalize (entered this st).
  intros stE HEroom HEconn HEref HEint HEsess HEor Hres.
  rewrite Hpeers in Hres. unfold try_catch in Hres.
  unfold bind at 1 in Hres. unfold throw at 1 in Hres.
  unfold bind at 1 in Hres. rewrite addMessage_run in Hres.
  change (setIsConnecting false ?s)
    with (Ok tt, mkState (set_isConnecting false (store s)) (world s)) in Hres.
  injection Hres as Hr1 Hr2. subst res st'.
  cbn [store world set_isConnecting set_messages tick session_store set_clock set_draws
       Store.isInRoom Store.pollingRef Store.peers Store.isConnecting Store.messages
       World.intervals World.heap].
  split; [reflexivity|]. split; [exact HEroom|].
  split.
  { eexists. split; [exact HEref|]. rewrite HEint.
    apply in_or_app. right. left. reflexivity. }
  split; [reflexivity|]. split; [exact HEsess|].
  eexists. eexists. split; [reflexivity|]. split; reflexivity.
Qed.

Lemma join_without_peer_list_witness :
  Store.isInRoom (store (snd (joinRoom (snapshot listless_lobby) listless_lobby))) = true /\
  Store.isConnecting (store (snd (joinRoom (snapshot listless_lobby) listless_lobby))) = false.
Proof.
  assert (Hu : trim (Render.username (snapshot listless_lobby)) <> "")
    by (vm_compute; discriminate).
  assert (Hr : trim (Render.roomId (snapshot listless_lobby)) <> "")
    by (vm_compute; discriminate).
  assert (Hfetch : Oracle.fetch (World.oracle (world listless_lobby))
                     (length (World.requests (world listless_lobby))) =
                   Some (Response.mk true None None None None None))
    by (vm_compute; reflexivity).
  destruct (@join_without_peer_list (snapshot listless_lobby) listless_lobby _
              Hu Hr Hfetch eq_refl eq_refl) as (_ & Hroom & _ & Hconn & _).
  split; assumption.
Defined.

(** ** Notifications of a connection *)

Lemma Map_get_delete_neq {V} (k k0 : string) (m : Map V) :
  k0 <> k -> Map_get k0 (Map_delete k m) = Map_get k0 m.
Proof.
  intro Hne. induction m as [|[k' v'] rest IH]; simpl; [reflexivity|].
  destruct (String.eqb_spec k k') as [E|Hk].
  - subst k'. destruct (String.eqb_spec k0 k); [congruence | reflexivity].
  - simpl. rewrite IH. reflexivity.
Qed.

Lemma Map_get_None_keys {V} (k : string) (m : Map V) :
  ~ In k (Map_keys m) -> Map_get k m = None.
Proof.
  induction m as [|[k' v'] rest IH]; simpl; intro H; [reflexivity|].
  destruct (String.eqb_spec k k') as [E|Hk].
  - exfalso. apply H. left. congruence.
  - apply IH. intro Hin. apply H. right. exact Hin.
Qed.

Lemma Map_get_delete_eq {V} (k : string) (m : Map V) :
  NoDup (Map_keys m) -> Map_get k (Map_delete k m) = None.
Proof.
  induction m as [|[k' v'] rest IH]; simpl; intro H; [reflexivity|].
  apply NoDup_cons_iff in H. destruct H as [Hnin Hrest].
  destruct (String.eqb_spec k k') as [E|Hk].
  - subst k'. apply Map_get_None_keys. exact Hnin.
  - simpl. destruct (String.eqb_spec k k'); [congruence|]. apply IH, Hrest.
Qed.

Lemma Map_set_same {V} (k : string) (v : V) (m : Map V) :
  Map_get k m = Some v -> Map_set k v m = m.
Proof.
  induction m as [|[k' v'] rest IH]; simpl; intro H; [discriminate|].
  destruct (String.eqb_spec k k') as [E|Hk].
  - congruence.
  - rewrite IH by exact H. reflexivity.
Qed.

Lemma Map_get_In_values {V} (k : string) (v : V) (m : Map V) :
  Map_get k m = Some v -> In v (Map_values m).
Proof.
  induction m as [|[k' v'] rest IH]; simpl; intro H; [discriminate|].
  destruct (String.eqb k k'); [left; congruence | right; apply IH, H].
Qed.

Lemma sessions_In heap addrs a p :
  In a addrs -> nth_error heap a = Some p -> In p (sessions heap addrs).
Proof.
  induction addrs as [|b rest IH]; simpl; intros Hin Hp; [contradiction|].
  destruct Hin as [E|Hin].
  - subst b. rewrite Hp. left. reflexivity.
  - destruct (nth_error heap b); [right|]; apply IH; assumption.
Qed.

Lemma nth_error_update_nth_eq {A} (f : A -> A) (l : list A) (n : nat) (x : A) :
  nth_error l n = Some x -> nth_error (update_nth n f l) n = Some (f x).
Proof. intro H. rewrite nth_error_update_nth, Nat.eqb_refl, H. reflexivity. Qed.

Lemma connected_flags (heap : list PeerConnection.t) (addrs : list nat) :
  length
    (filter (fun b : bool => b)
       (map (fun a =>
               match nth_error heap a with
               | Some p => PeerConnection.connected p
               | None => false
               end) addrs)) =
  length (filter PeerConnection.connected (sessions heap addrs)).
Proof.
  induction addrs as [|a rest IH]; simpl; [reflexivity|].
  destruct (nth_error heap a) as [p|]; simpl; [|exact IH].
  destruct (PeerConnection.connected p); simpl; rewrite IH; reflexivity.
Qed.

Lemma updateConnectionStatus_run (this : Render.t) (st : State) :
  updateConnectionStatus this st =
  (Ok tt,
   mkState
     (set_connectionStatus
        (status_line (connected_sessions (World.heap (world st)) (Render.peers this)))
        (store st))
     (world st)).
Proof.
  unfold updateConnectionStatus, setConnectionStatus, upd_store, modify, bind, gets.
  cbn [fst snd store world]. unfold status_line, connected_sessions.
  rewrite connected_flags. reflexivity.
Qed.

(** The handler's branch, from what the connection reports. *)
Lemma onconnectionstatechange_lost (this : Render.t) (pc : nat) (target : string)
      (st : State) (s : RTCPeerConnectionState) :
  fst (pc_connectionState pc st) = Ok s ->
  s = pcs_failed \/ s = pcs_disconnected ->
  let st' := snd (pc_onconnectionstatechange this pc target st) in
  Store.peers (store st') = Map_delete target (Store.peers (store st)) /\
  Store.isConnecting (store st') = false /\
  World.heap (world st') = World.heap (world st) /\
  World.rtc_calls (world st') = World.rtc_calls (world st) /\
  Store.connectionStatus (store st') =
    status_line (connected_sessions (World.heap (world st')) (Render.peers this)).
Proof.
  intros Hs Hlost st'. subst st'.
  assert (Hstate : pc_connectionState pc st = (Ok s, st)).
  { unfold pc_connectionState, gets in *. cbn [fst] in Hs. congruence. }
  destruct (pc_onconnectionstatechange this pc target st) as [res st'] eqn:Hrun.
  unfold pc_onconnectionstatechange in Hrun.
  unfold bind at 1 in Hrun. rewrite Hstate in Hrun.
  unfold bind at 1 in Hrun. rewrite addMessage_run in Hrun.
  destruct Hlost; subst s; cbv iota in Hrun;
    unfold setPeers, upd_store, modify, bind, gets, ret in Hrun;
    cbn [fst snd store world] in Hrun;
    rewrite updateConnectionStatus_run in Hrun;
    unfold setIsConnecting, upd_store, modify in Hrun;
    cbn [fst snd store world] in Hrun;
    injection Hrun as Hr1 Hr2; subst res st'; repeat split.
Qed.

Lemma live_connection_run (pc : nat) (st : State) (c : RTCPeerConnection.t) :
  nth_error (World.connections (world st)) pc = Some c ->
  RTCPeerConnection.connectionState c <> pcs_closed ->
  live_connection pc st = (Ok (Some c), st).
Proof.
  intros Hc Hlive. unfold live_connection, gets. rewrite Hc.
  destruct (RTCPeerConnection.connectionState c); try reflexivity. congruence.
Qed.

(** The state once the browser has set the state of connection [pc]. *)
Lemma connection_state_set (pc : nat) (st : State) (c : RTCPeerConnection.t)
      (s : RTCPeerConnectionState) :
  nth_error (World.connections (world st)) pc = Some c ->
  exists st1,
    set_connectionState s pc st = (Ok tt, st1) /\
    fst (pc_connectionState pc st1) = Ok s /\
    store st1 = store st /\
    World.heap (world st1) = World.heap (world st) /\
    World.rtc_calls (world st1) = World.rtc_calls (world st).
Proof.
  intro Hc. eexists. split; [reflexivity|].
  split; [|repeat split].
  unfold pc_connectionState, gets. cbn [fst snd world store].
  cbn [World.connections set_connections].
  rewrite (nth_error_update_nth_eq _ _ _ Hc). reflexivity.
Qed.

Lemma connection_state_change_run (st : State) (pc : nat)
      (c : RTCPeerConnection.t) (s : RTCPeerConnectionState) :
  nth_error (World.connections (world st)) pc = Some c ->
  RTCPeerConnection.connectionState c <> pcs_closed ->
  step st (ConnectionStateChange pc s) =
  snd (pc_onconnectionstatechange (RTCPeerConnection.env c) pc
         (RTCPeerConnection.targetPeerId c) (snd (set_connectionState s pc st))).
Proof.
  intros Hc Hlive. unfold step, handle. unfold bind at 1.
  rewrite (@live_connection_run pc st c Hc Hlive). reflexivity.
Qed.

(** X12: when a connection that is not closed reports "failed" or
    "disconnected", the handler removes from the collection the session
    registered under the connection's peer identifier, and only that
    one: with one entry per peer, that peer has no session afterwards
    and every other peer keeps its own.  The handler clears
    [isConnecting]; it does not close the connection (no call is made
    on any connection) and leaves the peer objects alone. *)
Theorem lost_connection_removes_session (st : State) (pc : nat)
        (c : RTCPeerConnection.t) (s : RTCPeerConnectionState) :
  nth_error (World.connections (world st)) pc = Some c ->
  RTCPeerConnection.connectionState c <> pcs_closed ->
  s = pcs_failed \/ s = pcs_disconnected ->
  let target := RTCPeerConnection.targetPeerId c in
  let st' := step st (ConnectionStateChange pc s) in
  Store.peers (store st') = Map_delete target (Store.peers (store st)) /\
  (unique_keys st -> Map_get target (Store.peers (store st')) = None) /\
  (forall k, k <> target ->
     Map_get k (Store.peers (store st')) = Map_get k (Store.peers (store st))) /\
  World.rtc_calls (world st') = World.rtc_calls (world st) /\
  World.heap (world st') = World.heap (world st) /\
  Store.isConnecting (store st') = false.
Proof.
  intros Hc Hlive Hlost target st'. subst st'.
  rewrite (@connection_state_change_run st pc c s Hc Hlive).
  destruct (@connection_state_set pc st c s Hc) as (st1 & Hset & Hstate & Hstore & Hheap & Hcalls).
  rewrite Hset. cbn [snd].
  destruct (@onconnectionstatechange_lost (RTCPeerConnection.env c) pc target st1 s Hstate Hlost)
    as (Hpeers & Hconn & Hheap' & Hcalls' & _).
  fold target. rewrite Hpeers, Hconn, Hheap', Hcalls', Hstore, Hheap, Hcalls.
  split; [reflexivity|]. split; [|split; [|repeat split]].
  - intro Huniq. apply Map_get_delete_eq. exact Huniq.
  - intros k Hk. apply Map_get_delete_neq. exact Hk.
Qed.

Lemma lost_connection_removes_session_witness :
  Map_get "p1"
    (Store.peers (store (step example_room (ConnectionStateChange 0 pcs_failed)))) = None.
Proof.
  assert (H : exists c,
             nth_error (World.connections (world example_room)) 0 = Some c /\
             RTCPeerConnection.connectionState c = pcs_connected /\
             RTCPeerConnection.targetPeerId c = "p1")
    by (vm_compute; eexists; repeat split).
  destruct H as (c & Hc & Hstate & Htarget).
  assert (Hlive : RTCPeerConnection.connectionState c <> pcs_closed)
    by (rewrite Hstate; discriminate).
  assert (Huniq : unique_keys example_room)
    by (vm_compute; repeat constructor; simpl; intuition discriminate).
  destruct (@lost_connection_removes_session example_room 0 c pcs_failed
              Hc Hlive (or_introl eq_refl)) as (_ & Hgone & _).
  rewrite <- Htarget. exact (Hgone Huniq).
Defined.

Lemma onconnectionstatechange_connected (this : Render.t) (pc : nat) (target : string)
      (st : State) :
  fst (pc_connectionState pc st) = Ok pcs_connected ->
  let st' := snd (pc_onconnectionstatechange this pc target st) in
  Store.peers (store st') =
    match Map_get target (Store.peers (store st)) with
    | Some a => Map_set target a (Store.peers (store st))
    | None => Store.peers (store st)
    end /\
  World.heap (world st') =
    match Map_get target (Store.peers (store st)) with
    | Some a => update_nth a mark_connected (World.heap (world st))
    | None => World.heap (world st)
    end /\
  Store.isConnecting (store st') = false /\
  Store.connectionStatus (store st') =
    status_line (connected_sessions (World.heap (world st')) (Render.peers this)) /\
  World.rtc_calls (world st') = World.rtc_calls (world st).
Proof.
  intros Hs st'. subst st'.
  assert (Hstate : pc_connectionState pc st = (Ok pcs_connected, st)).
  { unfold pc_connectionState, gets in *. cbn [fst] in Hs. congruence. }
  destruct (pc_onconnectionstatechange this pc target st) as [res st'] eqn:Hrun.
  unfold pc_onconnectionstatechange in Hrun.
  unfold bind at 1 in Hrun. rewrite Hstate in Hrun.
  unfold bind at 1 in Hrun. rewrite addMessage_run in Hrun.
  cbv iota in Hrun.
  unfold bind at 1 in Hrun. unfold setPeers in Hrun.
  unfold bind at 1 in Hrun. unfold gets at 1 in Hrun.
  cbn [fst snd store world Store.peers set_messages] in Hrun.
  destruct (Map_get target (Store.peers (store st))) as [a|] eqn:Hget.
  - unfold mutate, upd_world, upd_store, modify, bind, ret in Hrun.
    cbn [fst snd store world] in Hrun.
    rewrite updateConnectionStatus_run in Hrun.
    unfold setIsConnecting, upd_store, modify in Hrun.
    cbn [fst snd store world] in Hrun.
    injection Hrun as Hr1 Hr2; subst res st'; repeat split.
  - unfold upd_store, modify, bind, ret in Hrun.
    cbn [fst snd store world] in Hrun.
    rewrite updateConnectionStatus_run in Hrun.
    unfold setIsConnecting, upd_store, modify in Hrun.
    cbn [fst snd store world] in Hrun.
    injection Hrun as Hr1 Hr2; subst res st'; repeat split.
Qed.

Lemma connected_sessions_pos (heap : list PeerConnection.t) (m : Map nat)
      (k : string) (a : nat) (p : PeerConnection.t) :
  Map_get k m = Some a -> nth_error heap a = Some p ->
  PeerConnection.connected p = true ->
  1 <= connected_sessions heap m.
Proof.
  intros Hget Hp Hconn. unfold connected_sessions.
  assert (Hin : In p (filter PeerConnection.connected (sessions heap (Map_values m)))).
  { apply filter_In. split; [|exact Hconn].
    apply (@sessions_In heap (Map_values m) a p); [|exact Hp].
    apply (@Map_get_In_values nat k a m Hget). }
  destruct (filter PeerConnection.connected (sessions heap (Map_values m)));
    [contradiction | simpl; lia].
Qed.

(** X13: when a connection that is not closed reports "connected" and
    a session is registered under its peer identifier, the handler sets
    the [connected] flag of that session's peer object in place: the
    collection maps every peer to the same object as before, the object
    is the old one with the flag set, so the page counts at least one
    connected peer; [isConnecting] is cleared. *)
Theorem established_connection_marks_session (st : State) (pc : nat)
        (c : RTCPeerConnection.t) (a : nat) (p : PeerConnection.t) :
  nth_error (World.connections (world st)) pc = Some c ->
  RTCPeerConnection.connectionState c <> pcs_closed ->
  Map_get (RTCPeerConnection.targetPeerId c) (Store.peers (store st)) = Some a ->
  nth_error (World.heap (world st)) a = Some p ->
  let st' := step st (ConnectionStateChange pc pcs_connected) in
  Store.peers (store st') = Store.peers (store st) /\
  World.heap (world st') = update_nth a mark_connected (World.heap (world st)) /\
  nth_error (World.heap (world st')) a = Some (mark_connected p) /\
  1 <= connected_count st' /\
  Store.isConnecting (store st') = false.
Proof.
  intros Hc Hlive Hget Hp st'. subst st'.
  rewrite (@connection_state_change_run st pc c pcs_connected Hc Hlive).
  destruct (@connection_state_set pc st c pcs_connected Hc)
    as (st1 & Hset & Hstate & Hstore & Hheap & Hcalls).
  rewrite Hset. cbn [snd].
  destruct (@onconnectionstatechange_connected (RTCPeerConnection.env c) pc
              (RTCPeerConnection.targetPeerId c) st1 Hstate)
    as (Hpeers & Hheap' & Hconn & _).
  rewrite Hstore, Hget in Hpeers. rewrite Hstore, Hget, Hheap in Hheap'.
  rewrite (Map_set_same _ _ Hget) in Hpeers.
  assert (Hobj : nth_error
                   (World.heap
                      (world
                         (snd (pc_onconnectionstatechange (RTCPeerConnection.env c) pc
                                 (RTCPeerConnection.targetPeerId c) st1)))) a =
                 Some (mark_connected p)).
  { rewrite Hheap'. apply nth_error_update_nth_eq. exact Hp. }
  split; [exact Hpeers|]. split; [exact Hheap'|]. split; [exact Hobj|].
  split; [|exact Hconn].
  unfold connected_count. rewrite Hpeers.
  apply (@connected_sessions_pos _ _ _ a (mark_connected p) Hget Hobj). reflexivity.
Qed.

Lemma established_connection_marks_session_witness :
  1 <= connected_count (step example_joined (ConnectionStateChange 0 pcs_connected)).
Proof.
  assert (H : exists c p,
             nth_error (World.connections (world example_joined)) 0 = Some c /\
             RTCPeerConnection.connectionState c = pcs_new /\
             Map_get (RTCPeerConnection.targetPeerId c)
               (Store.peers (store example_joined)) = Some 0 /\
             nth_error (World.heap (world example_joined)) 0 = Some p)
    by (vm_compute; do 2 eexists; repeat split).
  destruct H as (c & p & Hc & Hstate & Hget & Hp).
  assert (Hlive : RTCPeerConnection.connectionState c <> pcs_closed)
    by (rewrite Hstate; discriminate).
  destruct (@established_connection_marks_session example_joined 0 c 0 p
              Hc Hlive Hget Hp) as (_ & _ & _ & Hcount & _).
  exact Hcount.
Defined.

(** X14: the status line a connection notification writes counts the
    connected sessions of the collection as the render that created the
    connection saw it, not of the current collection.  A connection
    created while the collection was empty, as [joinRoom] creates them
    from the lobby, therefore writes "Disconnected" also when it
    reports "connected". *)
Theorem status_counts_creating_render (st : State) (pc : nat)
        (c : RTCPeerConnection.t) (s : RTCPeerConnectionState) :
  nth_error (World.connections (world st)) pc = Some c ->
  RTCPeerConnection.connectionState c <> pcs_closed ->
  s = pcs_connected \/ s = pcs_failed \/ s = pcs_disconnected ->
  let st' := step st (ConnectionStateChange pc s) in
  Store.connectionStatus (store st') =
    status_line
      (connected_sessions (World.heap (world st'))
         (Render.peers (RTCPeerConnection.env c))) /\
  (Render.peers (RTCPeerConnection.env c) = [] ->
   Store.connectionStatus (store st') = "Disconnected").
Proof.
  intros Hc Hlive Hs st'. subst st'.
  rewrite (@connection_state_change_run st pc c s Hc Hlive).
  destruct (@connection_state_set pc st c s Hc)
    as (st1 & Hset & Hstate & _).
  rewrite Hset. cbn [snd].
  assert (Hstatus :
            Store.connectionStatus
              (store (snd (pc_onconnectionstatechange (RTCPeerConnection.env c) pc
                             (RTCPeerConnection.targetPeerId c) st1))) =
            status_line
              (connected_sessions
                 (World.heap
                    (world (snd (pc_onconnectionstatechange (RTCPeerConnection.env c) pc
                                   (RTCPeerConnection.targetPeerId c) st1))))
                 (Render.peers (RTCPeerConnection.env c)))).
  { destruct Hs as [E|Hlost].
    - subst s.
      destruct (@onconnectionstatechange_connected (RTCPeerConnection.env c) pc
                  (RTCPeerConnection.targetPeerId c) st1 Hstate)
        as (_ & _ & _ & H & _).
      exact H.
    - destruct (@onconnectionstatechange_lost (RTCPeerConnection.env c) pc
                  (RTCPeerConnection.targetPeerId c) st1 s Hstate Hlost)
        as (_ & _ & _ & _ & H).
      exact H. }
  split; [exact Hstatus|].
  intro Hempty. rewrite Hstatus, Hempty. reflexivity.
Qed.

Lemma status_counts_creating_render_witness :
  Store.connectionStatus
    (store (step example_joined (ConnectionStateChange 0 pcs_connected))) = "Disconnected".
Proof.
  assert (H : exists c,
             nth_error (World.connections (world example_joined)) 0 = Some c /\
             RTCPeerConnection.connectionState c = pcs_new /\
             Render.peers (RTCPeerConnection.env c) = [])
    by (vm_compute; eexists; repeat split).
  destruct H as (c & Hc & Hstate & Hempty).
  assert (Hlive : RTCPeerConnection.connectionState c <> pcs_closed)
    by (rewrite Hstate; discriminate).
  destruct (@status_counts_creating_render example_joined 0 c pcs_connected
              Hc Hlive (or_introl eq_refl)) as (_ & Hshown).
  exact (Hshown Hempty).
Defined.

(** ** A channel opens *)

Lemma channel_open_run (st : State) (dc : nat) (c : RTCDataChannel.t) (k : string) :
  nth_error (World.channels (world st)) dc = Some c ->
  RTCDataChannel.handlers c = Some k ->
  step st (ChannelOpen dc) =
  snd (dataChannel_onopen dc k (snd (set_readyState dcs_open dc st))).
Proof.
  intros Hc Hk. unfold step, handle. unfold bind at 1. unfold channel, gets.
  rewrite Hc. cbn [fst snd]. rewrite Hk. reflexivity.
Qed.

Lemma onopen_fields (dc : nat) (k : string) (st : State) :
  let st' := snd (dataChannel_onopen dc k st) in
  Store.peers (store st') =
    match Map_get k (Store.peers (store st)) with
    | Some a => Map_set k a (Store.peers (store st))
    | None => Store.peers (store st)
    end /\
  World.heap (world st') =
    match Map_get k (Store.peers (store st)) with
    | Some a => update_nth a (with_channel dc) (World.heap (world st))
    | None => World.heap (world st)
    end /\
  World.channels (world st') = World.channels (world st) /\
  World.wire (world st') = World.wire (world st) /\
  Store.messageInput (store st') = Store.messageInput (store st) /\
  Store.username (store st') = Store.username (store st) /\
  Store.messages (store st') =
    (Store.messages (store st)
       ++ [next_message (world st) System
             (JString ("💬 Chat ready with " ++ substring 0 6 k)) false])%list.
Proof.
  intro st'. subst st'.
  destruct (dataChannel_onopen dc k st) as [res st'] eqn:Hrun.
  unfold dataChannel_onopen in Hrun.
  unfold bind at 1 in Hrun. rewrite addMessage_run in Hrun.
  unfold setPeers in Hrun.
  unfold bind at 1 in Hrun. unfold gets at 1 in Hrun.
  cbn [fst snd store world Store.peers set_messages] in Hrun.
  destruct (Map_get k (Store.peers (store st))) as [a|] eqn:Hget.
  - unfold mutate, upd_world, upd_store, modify, bind, ret in Hrun.
    cbn [fst snd store world] in Hrun.
    injection Hrun as Hr1 Hr2; subst res st'; repeat split.
  - unfold upd_store, modify, bind, ret in Hrun.
    cbn [fst snd store world] in Hrun.
    injection Hrun as Hr1 Hr2; subst res st'; repeat split.
Qed.

Lemma open_channels_In (w : World.t) (addrs : list nat) (a dc : nat) :
  In a addrs -> open_channel w a = Some dc -> In dc (open_channels w addrs).
Proof.
  induction addrs as [|b rest IH]; simpl; intros Hin Hopen; [contradiction|].
  destruct Hin as [E|Hin].
  - subst b. rewrite Hopen. left. reflexivity.
  - destruct (open_channel w b); [right|]; apply IH; assumption.
Qed.

Lemma send_event_run (st : State) :
  step st UserSendMessage = snd (sendMessage (snapshot st) st).
Proof. reflexivity. Qed.

(** X15: when a channel whose handlers were installed for a peer opens
    and that peer has a session, the channel is recorded in the
    session's peer object, in place; the session then counts as one
    with an open channel, and the next message sent from the page (text
    not empty once trimmed) is transmitted on that channel, provided
    the send action returns: when the browser refuses a send it throws
    instead, and the payload may not have reached the channel. *)
Theorem channel_open_reaches_peer (st : State) (dc : nat) (c : RTCDataChannel.t)
        (k : string) (a : nat) (p : PeerConnection.t) :
  nth_error (World.channels (world st)) dc = Some c ->
  RTCDataChannel.handlers c = Some k ->
  Map_get k (Store.peers (store st)) = Some a ->
  nth_error (World.heap (world st)) a = Some p ->
  trim (Store.messageInput (store st)) <> "" ->
  let st1 := step st (ChannelOpen dc) in
  let st2 := step st1 UserSendMessage in
  Store.peers (store st1) = Store.peers (store st) /\
  nth_error (World.heap (world st1)) a = Some (with_channel dc p) /\
  open_channel (world st1) a = Some dc /\
  (fst (handle UserSendMessage st1) = Ok tt ->
   In (dc, chat_payload (snapshot st)) (World.wire (world st2))).
Proof.
  intros Hc Hk Hget Hp Hinput st1 st2. subst st2 st1.
  rewrite send_event_run. rewrite (@channel_open_run st dc c k Hc Hk).
  destruct (onopen_fields dc k (snd (set_readyState dcs_open dc st)))
    as (Hpeers & Hheap & Hchans & _ & Hin & Huser & _).
  generalize dependent (snd (dataChannel_onopen dc k (snd (set_readyState dcs_open dc st)))).
  intros st1 Hpeers Hheap Hchans Hin Huser.
  cbn [set_readyState upd_world modify snd store world] in Hpeers, Hheap, Hchans, Hin, Huser.
  unfold set_readyState, upd_world, modify in Hpeers, Hheap, Hchans, Hin, Huser.
  cbn [snd store world World.heap World.channels set_channels] in Hpeers, Hheap, Hchans, Hin, Huser.
  rewrite Hget in Hpeers, Hheap. rewrite (Map_set_same _ _ Hget) in Hpeers.
  assert (Hobj : nth_error (World.heap (world st1)) a = Some (with_channel dc p)).
  { rewrite Hheap. apply nth_error_update_nth_eq. exact Hp. }
  assert (Hopen : open_channel (world st1) a = Some dc).
  { unfold open_channel. rewrite Hobj. cbn [PeerConnection.dataChannel with_channel].
    rewrite Hchans, (nth_error_update_nth_eq _ _ _ Hc). reflexivity. }
  split; [exact Hpeers|]. split; [exact Hobj|]. split; [exact Hopen|].
  intro Hret.
  rewrite sendMessage_returned_wire; [| |exact Hret].
  2:{ cbn [snapshot Render.messageInput]. rewrite Hin. exact Hinput. }
  apply in_or_app. right.
  replace (chat_payload (snapshot st1)) with (chat_payload (snapshot st))
    by (unfold chat_payload, snapshot; cbn [Render.username Render.messageInput];
        rewrite Hin, Huser; reflexivity).
  apply (in_map (fun dc0 => (dc0, chat_payload (snapshot st)))).
  apply (@open_channels_In _ _ a dc); [|exact Hopen].
  cbn [snapshot Render.peers]. rewrite Hpeers.
  apply (@Map_get_In_values nat k a _ Hget).
Qed.

Lemma channel_open_reaches_peer_witness :
  In (0, chat_payload (snapshot example_waiting))
     (World.wire (world (step (step example_waiting (ChannelOpen 0)) UserSendMessage))).
Proof.
  assert (H : exists c p,
             nth_error (World.channels (world example_waiting)) 0 = Some c /\
             RTCDataChannel.handlers c = Some "p1" /\
             Map_get "p1" (Store.peers (store example_waiting)) = Some 0 /\
             nth_error (World.heap (world example_waiting)) 0 = Some p /\
             trim (Store.messageInput (store example_waiting)) = "hi")
    by (vm_compute; do 2 eexists; repeat split).
  destruct H as (c & p & Hc & Hk & Hget & Hp & Hin).
  assert (Hne : trim (Store.messageInput (store example_waiting)) <> "")
    by (rewrite Hin; discriminate).
  destruct (@channel_open_reaches_peer example_waiting 0 c "p1" 0 p Hc Hk Hget Hp Hne)
    as (_ & _ & _ & Hsent).
  assert (Hret : fst (handle UserSendMessage (step example_waiting (ChannelOpen 0))) = Ok tt)
    by (vm_compute; reflexivity).
  exact (Hsent Hret).
Defined.

(** X16: when a channel opens for a peer that has no session in the
    collection (the session was removed, or never added), the channel
    is recorded nowhere: the collection and the peer objects are as
    they were.  The log nevertheless announces that chat is ready with
    that peer. *)
Theorem channel_open_without_session (st : State) (dc : nat) (c : RTCDataChannel.t)
        (k : string) :
  nth_error (World.channels (world st)) dc = Some c ->
  RTCDataChannel.handlers c = Some k ->
  Map_get k (Store.peers (store st)) = None ->
  let st' := step st (ChannelOpen dc) in
  session_store st' = session_store st /\
  Store.messages (store st') =
    (Store.messages (store st)
       ++ [next_message (world st) System
             (JString ("💬 Chat ready with " ++ substring 0 6 k)) false])%list.
Proof.
  intros Hc Hk Hget st'. subst st'.
  rewrite (@channel_open_run st dc c k Hc Hk).
  destruct (onopen_fields dc k (snd (set_readyState dcs_open dc st)))
    as (Hpeers & Hheap & _ & _ & _ & _ & Hlog).
  generalize dependent (snd (dataChannel_onopen dc k (snd (set_readyState dcs_open dc st)))).
  intros st1 Hpeers Hheap Hlog.
  unfold set_readyState, upd_world, modify in Hpeers, Hheap, Hlog.
  cbn [snd store world World.heap set_channels] in Hpeers, Hheap, Hlog.
  rewrite Hget in Hpeers, Hheap.
  split; [unfold session_store; rewrite Hpeers, Hheap; reflexivity|].
  rewrite Hlog. unfold next_message.
  cbn [World.oracle World.clock World.draws set_channels]. reflexivity.
Qed.

Lemma channel_open_without_session_witness :
  session_store (step example_dropped (ChannelOpen 0)) = session_store example_dropped.
Proof.
  assert (H : exists c,
             nth_error (World.channels (world example_dropped)) 0 = Some c /\
             RTCDataChannel.handlers c = Some "p1" /\
             Map_get "p1" (Store.peers (store example_dropped)) = None)
    by (vm_compute; eexists; repeat split).
  destruct H as (c & Hc & Hk & Hget).
  exact (proj1 (@channel_open_without_session example_dropped 0 c "p1" Hc Hk Hget)).
Defined.

(** ** A connection that comes back *)

Lemma onconnectionstatechange_connections (this : Render.t) (pc : nat) (target : string) :
  stable (keeps (fun st => World.connections (world st)))
    (pc_onconnectionstatechange this pc target).
Proof. keeps_split (fun st => World.connections (world st)). Qed.

Lemma connection_state_change_connections (st : State) (pc : nat)
      (c : RTCPeerConnection.t) (s : RTCPeerConnectionState) :
  nth_error (World.connections (world st)) pc = Some c ->
  RTCPeerConnection.connectionState c <> pcs_closed ->
  nth_error (World.connections (world (step st (ConnectionStateChange pc s)))) pc =
  Some (RTCPeerConnection.mk s (RTCPeerConnection.iceConnectionState c)
          (RTCPeerConnection.targetPeerId c) (RTCPeerConnection.env c)
          (RTCPeerConnection.ondatachannel c)).
Proof.
  intros Hc Hlive.
  rewrite (@connection_state_change_run st pc c s Hc Hlive).
  rewrite (onconnectionstatechange_connections (RTCPeerConnection.env c) pc
             (RTCPeerConnection.targetPeerId c) (snd (set_connectionState s pc st))).
  unfold set_connectionState, upd_world, modify.
  cbn [snd world World.connections set_connections].
  rewrite (nth_error_update_nth_eq _ _ _ Hc). reflexivity.
Qed.

(** X17: a connection that reports "disconnected" (or "failed") and
    then "connected" again has lost its session for good: the first
    notification removes the session of the connection's peer, the
    second finds none to mark, so the peer has no session although its
    connection is connected. *)
Theorem transient_disconnect_loses_session (st : State) (pc : nat)
        (c : RTCPeerConnection.t) (s : RTCPeerConnectionState) :
  nth_error (World.connections (world st)) pc = Some c ->
  RTCPeerConnection.connectionState c <> pcs_closed ->
  s = pcs_failed \/ s = pcs_disconnected ->
  unique_keys st ->
  let st' := run st [ConnectionStateChange pc s; ConnectionStateChange pc pcs_connected] in
  Map_get (RTCPeerConnection.targetPeerId c) (Store.peers (store st')) = None /\
  connection_is_connected st' pc = true.
Proof.
  intros Hc Hlive Hlost Huniq st'. subst st'. cbn [run fold_left].
  pose proof (@connection_state_change_connections st pc c s Hc Hlive) as Hc1.
  assert (Hgone : Map_get (RTCPeerConnection.targetPeerId c)
                    (Store.peers (store (step st (ConnectionStateChange pc s)))) = None).
  { rewrite (@connection_state_change_run st pc c s Hc Hlive).
    destruct (@connection_state_set pc st c s Hc) as (st1 & Hset & Hstate & Hstore & _).
    rewrite Hset. cbn [snd].
    destruct (@onconnectionstatechange_lost (RTCPeerConnection.env c) pc
                (RTCPeerConnection.targetPeerId c) st1 s Hstate Hlost) as (Hpeers & _).
    rewrite Hpeers, Hstore. apply Map_get_delete_eq. exact Huniq. }
  revert Hc1 Hgone. generalize (step st (ConnectionStateChange pc s)). intros st1 Hc1 Hgone.
  set (c1 := RTCPeerConnection.mk s (RTCPeerConnection.iceConnectionState c)
               (RTCPeerConnection.targetPeerId c) (RTCPeerConnection.env c)
               (RTCPeerConnection.ondatachannel c)) in Hc1.
  assert (Hlive1 : RTCPeerConnection.connectionState c1 <> pcs_closed).
  { unfold c1. cbn [RTCPeerConnection.connectionState].
    destruct Hlost; subst s; discriminate. }
  split.
  - rewrite (@connection_state_change_run st1 pc c1 pcs_connected Hc1 Hlive1).
    destruct (@connection_state_set pc st1 c1 pcs_connected Hc1)
      as (st2 & Hset & Hstate & Hstore & _).
    rewrite Hset. cbn [snd].
    destruct (@onconnectionstatechange_connected (RTCPeerConnection.env c1) pc
                (RTCPeerConnection.targetPeerId c1) st2 Hstate) as (Hpeers & _).
    rewrite Hstore in Hpeers.
    change (RTCPeerConnection.targetPeerId c1) with (RTCPeerConnection.targetPeerId c)
      in Hpeers |- *.
    rewrite Hgone in Hpeers. rewrite Hpeers. exact Hgone.
  - unfold connection_is_connected.
    rewrite (@connection_state_change_connections st1 pc c1 pcs_connected Hc1 Hlive1).
    reflexivity.
Qed.

Lemma transient_disconnect_loses_session_witness :
  Map_get "p1"
    (Store.peers
       (store (run example_room
                 [ConnectionStateChange 0 pcs_disconnected;
                  ConnectionStateChange 0 pcs_connected]))) = None.
Proof.
  assert (H : exists c,
             nth_error (World.connections (world example_room)) 0 = Some c /\
             RTCPeerConnection.connectionState c = pcs_connected /\
             RTCPeerConnection.targetPeerId c = "p1")
    by (vm_compute; eexists; repeat split).
  destruct H as (c & Hc & Hstate & Htarget).
  assert (Hlive : RTCPeerConnection.connectionState c <> pcs_closed)
    by (rewrite Hstate; discriminate).
  assert (Huniq : unique_keys example_room)
    by (vm_compute; repeat constructor; simpl; intuition discriminate).
  destruct (@transient_disconnect_loses_session example_room 0 c pcs_disconnected
              Hc Hlive (or_intror eq_refl) Huniq) as (Hgone & _).
  rewrite <- Htarget. exact Hgone.
Defined.

(** ** Sending after leaving *)

Lemma leave_event_run (st : State) :
  step st UserLeaveRoom = snd (leaveRoom (snapshot st) st).
Proof. reflexivity. Qed.

(** X18: once the room is left, a message sent from the page reaches
    nobody: nothing is transmitted, the text stays in the input, and
    when the text is not empty once trimmed the log gets the
    "No connected peers" diagnostic. *)
Theorem send_after_leave_reaches_nobody (st : State) :
  let st1 := step st UserLeaveRoom in
  let st2 := step st1 UserSendMessage in
  World.wire (world st2) = World.wire (world st) /\
  Store.messageInput (store st2) = Store.messageInput (store st) /\
  (trim (Store.messageInput (store st)) <> "" ->
   exists m,
     Store.messages (store st2) = (Store.messages (store st1) ++ [m])%list /\
     Message.sender m = System /\
     Message.content m = JString "❌ No connected peers to send message to").
Proof.
  intros st1 st2. subst st2.
  assert (Hwire : World.wire (world st1) = World.wire (world st)).
  { subst st1. apply (@handle_keeps_wire UserLeaveRoom). discriminate. }
  assert (Hpeers : Store.peers (store st1) = []).
  { subst st1. rewrite leave_event_run, leaveRoom_run. reflexivity. }
  assert (Hin : Store.messageInput (store st1) = Store.messageInput (store st)).
  { subst st1. rewrite leave_event_run, leaveRoom_run. reflexivity. }
  clearbody st1. rewrite send_event_run, sendMessage_run.
  cbn [snapshot Render.messageInput Render.peers]. rewrite Hpeers, Hin.
  destruct (negb (truthy (trim (Store.messageInput (store st))))) eqn:Hblank.
  - cbn [snd]. split; [exact Hwire|]. split; [exact Hin|].
    intro Hne. apply negb_true_iff, truthy_false in Hblank. contradiction.
  - cbn [Map_values map open_channels snd store world].
    split; [cbn; rewrite app_nil_r; exact Hwire|]. split; [exact Hin|].
    intros _. eexists. split; [reflexivity|]. split; reflexivity.
Qed.

Lemma send_after_leave_reaches_nobody_witness :
  exists m,
    Store.messages (store (step (step example_typing UserLeaveRoom) UserSendMessage)) =
      (Store.messages (store (step example_typing UserLeaveRoom)) ++ [m])%list /\
    Message.sender m = System /\
    Message.content m = JString "❌ No connected peers to send message to".
Proof.
  assert (Hne : trim (Store.messageInput (store example_typing)) <> "")
    by (vm_compute; discriminate).
  exact (proj2 (proj2 (send_after_leave_reaches_nobody example_typing)) Hne).
Defined.

(** ** Answers and candidates in a poll *)

Lemma called (pc : nat) (call : RTCCall) (st : State) :
  no_rejection st ->
  rtc_await pc call st =
  (Ok tt,
   mkState (store st)
     (set_rtc_calls (World.rtc_calls (world st) ++ [(pc, call)])%list (world st))).
Proof. intro Hok. apply rtc_await_ok. apply Hok. Qed.

Lemma candidates_run (this : Render.t) (cs : list (string * Candidate)) :
  forall st,
  no_rejection st ->
  forM cs (fun '(from, candidate) =>
    match Map_get from (Render.peers this) with
    | Some a =>
        peer <- deref a ;;
        match peer with
        | Some p => pc_addIceCandidate (PeerConnection.connection p) candidate
        | None => ret tt
        end
    | None => ret tt
    end) st =
  (Ok tt,
   mkState (store st)
     (set_rtc_calls
        (World.rtc_calls (world st)
           ++ candidate_calls (Render.peers this) (World.heap (world st)) cs)%list
        (world st))).
Proof.
  induction cs as [|[from c] rest IH]; intros st Hok.
  - destruct st as [s w]. destruct w. cbn. unfold ret, set_rtc_calls. cbn.
    rewrite app_nil_r. reflexivity.
  - cbn [forM candidate_calls]. unfold session_connection.
    unfold bind at 1.
    destruct (Map_get from (Render.peers this)) as [a|].
    2:{ unfold ret at 1. apply IH, Hok. }
    unfold bind at 1. unfold deref, gets. cbn [fst snd].
    destruct (nth_error (World.heap (world st)) a) as [p|].
    2:{ unfold ret at 1. apply IH, Hok. }
    unfold pc_addIceCandidate. rewrite (called _ _ Hok).
    rewrite IH by (intro n; apply Hok).
    cbn [store world World.rtc_calls World.heap set_rtc_calls].
    rewrite <- app_assoc. reflexivity.
Qed.

Lemma poll_no_offer_run (this : Render.t) (st : State) (resp : Response.t) :
  Oracle.fetch (World.oracle (world st)) (length (World.requests (world st))) = Some resp ->
  Response.offer resp = None ->
  no_rejection st ->
  let st' := snd (pollSignalingServer this st) in
  fst (pollSignalingServer this st) = Ok tt /\
  World.rtc_calls (world st') =
    (World.rtc_calls (world st)
       ++ answer_calls (Render.peers this) (World.heap (world st)) (Response.answer resp)
       ++ candidate_calls (Render.peers this) (World.heap (world st))
            (delivered_candidates resp))%list /\
  session_store st' = session_store st /\
  World.console (world st') = World.console (world st).
Proof.
  intros Hfetch Hoffer Hok st'. subst st'.
  destruct (pollSignalingServer this st) as [res st'] eqn:Hr.
  unfold pollSignalingServer, try_catch in Hr.
  unfold bind at 1 in Hr. rewrite (sendToSignalingServer_ok this sig_poll st Hfetch) in Hr.
  rewrite Hoffer in Hr. unfold bind at 1 in Hr. unfold ret at 1 in Hr.
  unfold bind at 1 in Hr. unfold answer_calls, session_connection, delivered_candidates.
  assert (Hok1 : forall s w, World.oracle w = World.oracle (world st) ->
                             no_rejection (mkState s w)).
  { intros s w E n. cbn [world]. rewrite E. apply Hok. }
  destruct (Response.answer resp) as [[from answer]|] eqn:Ea.
  - unfold bind at 1 in Hr. rewrite addMessage_run in Hr.
    destruct (Map_get from (Render.peers this)) as [a|].
    + unfold bind at 1 in Hr. unfold deref, gets in Hr. cbn [fst snd world] in Hr.
      change (World.heap (tick (world (requested this sig_poll st))))
        with (World.heap (world st)) in Hr.
      destruct (nth_error (World.heap (world st)) a) as [p|].
      * unfold pc_setRemoteDescription in Hr.
        rewrite called in Hr by (apply Hok1; reflexivity).
        destruct (Response.iceCandidates resp) as [cs|].
        -- rewrite candidates_run in Hr by (apply Hok1; reflexivity).
           cbn [fst snd store world] in Hr.
           injection Hr as Hr1 Hr2; subst res st'. cbn [fst snd store world].
           split; [reflexivity|]. split; [|split; reflexivity].
           cbn. rewrite <- app_assoc. reflexivity.
        -- unfold ret in Hr. injection Hr as Hr1 Hr2; subst res st'.
           repeat split.
      * unfold ret at 1 in Hr.
        destruct (Response.iceCandidates resp) as [cs|].
        -- rewrite candidates_run in Hr by (apply Hok1; reflexivity).
           injection Hr as Hr1 Hr2; subst res st'. repeat split.
        -- unfold ret in Hr. injection Hr as Hr1 Hr2; subst res st'.
           cbn. rewrite app_nil_r. repeat split.
    + unfold ret at 1 in Hr.
      destruct (Response.iceCandidates resp) as [cs|].
      * rewrite candidates_run in Hr by (apply Hok1; reflexivity).
        injection Hr as Hr1 Hr2; subst res st'. repeat split.
      * unfold ret in Hr. injection Hr as Hr1 Hr2; subst res st'.
        cbn. rewrite app_nil_r. repeat split.
  - unfold ret at 1 in Hr.
    destruct (Response.iceCandidates resp) as [cs|].
    + rewrite candidates_run in Hr by (apply Hok1; reflexivity).
      injection Hr as Hr1 Hr2; subst res st'. repeat split.
    + unfold ret in Hr. injection Hr as Hr1 Hr2; subst res st'.
      cbn. rewrite app_nil_r. repeat split.
Qed.

(** X19: a poll that brings no offer, with no connection call rejected,
    returns and applies the answer and the candidates to the
    connections of the sessions that the collection of its own render
    holds for their senders, in the order received: [setRemoteDescription]
    for the answer, then [addIceCandidate] for each candidate; events
    from senders without session there are skipped.  It makes no other
    call on a connection, changes no session and writes nothing to the
    console. *)
Theorem poll_applies_events_of_its_render
        (this : Render.t) (st : State) (resp : Response.t) :
  Oracle.fetch (World.oracle (world st)) (length (World.requests (world st))) = Some resp ->
  Response.offer resp = None ->
  no_rejection st ->
  let st' := snd (pollSignalingServer this st) in
  fst (pollSignalingServer this st) = Ok tt /\
  World.rtc_calls (world st') =
    (World.rtc_calls (world st)
       ++ answer_calls (Render.peers this) (World.heap (world st)) (Response.answer resp)
       ++ candidate_calls (Render.peers this) (World.heap (world st))
            (delivered_candidates resp))%list /\
  session_store st' = session_store st /\
  World.console (world st') = World.console (world st).
Proof. intros Hfetch Hoffer Hok. exact (@poll_no_offer_run this st resp Hfetch Hoffer Hok). Qed.

Lemma poll_applies_events_of_its_render_witness :
  World.rtc_calls (world (snd (pollSignalingServer (snapshot answering_room) answering_room))) =
  (World.rtc_calls (world answering_room)
     ++ [(0, SetRemoteDescription (RemoteDescription "v=0"));
         (1, AddIceCandidate "candidate:1")])%list.
Proof.
  assert (Hfetch : Oracle.fetch (World.oracle (world answering_room))
                     (length (World.requests (world answering_room))) =
                   Some (Response.mk false None None
                           (Some ("p1", RemoteDescription "v=0"))
                           (Some [("p2", "candidate:1")]) None))
    by (vm_compute; reflexivity).
  assert (Hok : no_rejection answering_room) by (intro n; vm_compute; reflexivity).
  destruct (@poll_applies_events_of_its_render (snapshot answering_room) answering_room _
              Hfetch eq_refl Hok) as (_ & Hcalls & _).
  rewrite Hcalls. apply (f_equal (app _)). vm_compute. reflexivity.
Defined.

Lemma interval_tick_run (st : State) (t : nat) (i : Interval.t) :
  find (fun i => Interval.id i =? t) (World.intervals (world st)) = Some i ->
  step st (IntervalTick t) = snd (pollSignalingServer (Interval.env i) st).
Proof.
  intro Hfind. unfold step, handle, bind, gets. cbn [fst snd]. rewrite Hfind. reflexivity.
Qed.

(** X20: a tick of a polling interval runs the poll of the render that
    started the interval.  When that render's collection was empty, as
    it is when the room is joined from the lobby, a poll that brings no
    offer calls no connection at all: answers and candidates are
    dropped whoever sent them, also when the sender has a session by
    now. *)
Theorem stale_poll_drops_answers (st : State) (t : nat) (i : Interval.t)
        (resp : Response.t) :
  find (fun i => Interval.id i =? t) (World.intervals (world st)) = Some i ->
  Render.peers (Interval.env i) = [] ->
  Oracle.fetch (World.oracle (world st)) (length (World.requests (world st))) = Some resp ->
  Response.offer resp = None ->
  no_rejection st ->
  let st' := step st (IntervalTick t) in
  World.rtc_calls (world st') = World.rtc_calls (world st) /\
  session_store st' = session_store st.
Proof.
  intros Hfind Hempty Hfetch Hoffer Hok st'. subst st'.
  rewrite (@interval_tick_run st t i Hfind).
  destruct (@poll_no_offer_run (Interval.env i) st resp Hfetch Hoffer Hok)
    as (_ & Hcalls & Hsess & _).
  split; [|exact Hsess].
  rewrite Hcalls, Hempty.
  assert (Hc : forall cs, candidate_calls [] (World.heap (world st)) cs = []).
  { induction cs as [|[from c] rest IH]; [reflexivity | exact IH]. }
  rewrite Hc. unfold answer_calls, session_connection. cbn [Map_get].
  destruct (Response.answer resp) as [[from d]|]; apply app_nil_r.
Qed.

Lemma stale_poll_drops_answers_witness :
  Map_get "p1" (Store.peers (store answering_room)) = Some 0 /\
  World.rtc_calls (world (step answering_room (IntervalTick 1))) =
  World.rtc_calls (world answering_room).
Proof.
  split; [vm_compute; reflexivity|].
  assert (H : exists i,
             find (fun i => Interval.id i =? 1) (World.intervals (world answering_room))
               = Some i /\
             Render.peers (Interval.env i) = [])
    by (vm_compute; eexists; split; reflexivity).
  destruct H as (i & Hfind & Hempty).
  assert (Hfetch : Oracle.fetch (World.oracle (world answering_room))
                     (length (World.requests (world answering_room))) =
                   Some (Response.mk false None None
                           (Some ("p1", RemoteDescription "v=0"))
                           (Some [("p2", "candidate:1")]) None))
    by (vm_compute; reflexivity).
  assert (Hok : no_rejection answering_room) by (intro n; vm_compute; reflexivity).
  exact (proj1 (@stale_poll_drops_answers answering_room 1 i _
                  Hfind Hempty Hfetch eq_refl Hok)).
Defined.

(** ** An offer that the browser rejects *)

Lemma rtc_await_rejected (pc : nat) (call : RTCCall) (st : State) (e : string) :
  Oracle.rtc (World.oracle (world st)) (length (World.rtc_calls (world st))) = Some e ->
  rtc_await pc call st =
  (Throw e,
   mkState (store st)
     (set_rtc_calls (World.rtc_calls (world st) ++ [(pc, call)])%list (world st))).
Proof.
  intro H. unfold rtc_await, bind, gets, upd_world, modify, ret, throw.
  cbn [fst snd store world World.oracle set_rtc_calls]. rewrite H. reflexivity.
Qed.

Lemma offer_rejected_run (this : Render.t) (from : string) (offer : Description)
      (e : string) (st : State) :
  Oracle.rtc (World.oracle (world st)) (length (World.rtc_calls (world st))) = Some e ->
  (addMessage System
     (JString ("📨 Received connection offer from " ++ substring 0 6 from)) false ;;
   setIsConnecting true ;;
   pc <- createPeerConnection this from false ;;
   pc_setRemoteDescription pc offer ;;
   answer <- pc_createAnswer pc ;;
   pc_setLocalDescription pc answer ;;
   _ <- sendToSignalingServer this (sig_answer from answer) ;;
   setPeers (fun prev =>
     peer <- alloc (new_peer from pc) ;; ret (Map_set from peer prev))) st =
  (Throw e,
   mkState
     (set_isConnecting true
        (set_messages
           (Store.messages (store st)
              ++ [next_message (world st) System
                    (JString ("📨 Received connection offer from " ++ substring 0 6 from))
                    false])%list
           (store st)))
     (set_rtc_calls
        (World.rtc_calls (world st)
           ++ [(length (World.connections (world st)), SetRemoteDescription offer)])%list
        (responder_world this from (tick (world st))))).
Proof.
  intro Hrej.
  unfold bind at 1. rewrite addMessage_run.
  unfold bind at 1. unfold setIsConnecting, upd_store, modify at 1.
  unfold bind at 1. rewrite createPeerConnection_responder_run.
  unfold bind at 1. unfold pc_setRemoteDescription.
  rewrite (@rtc_await_rejected _ _ _ e) by (cbn; exact Hrej).
  reflexivity.
Qed.

Lemma bind_run_throw {A B} (c : M A) (k : A -> M B) (st st1 : State) (e : string) :
  c st = (Throw e, st1) -> bind c k st = (Throw e, st1).
Proof. intro H. unfold bind. rewrite H. reflexivity. Qed.

(** X21: when a poll brings an offer and the browser rejects it
    ([setRemoteDescription] fails), the poll still returns: the error
    goes to the console only.  The connection created for the offer
    stays behind with its timeout, no answer is sent, no session is
    registered, and [isConnecting], set when the offer arrived, is left
    set. *)
Theorem rejected_inbound_offer_contained
        (this : Render.t) (st : State) (resp : Response.t)
        (from : string) (offer : Description) (e : string) :
  Oracle.fetch (World.oracle (world st)) (length (World.requests (world st))) = Some resp ->
  Response.offer resp = Some (from, offer) ->
  Oracle.rtc (World.oracle (world st)) (length (World.rtc_calls (world st))) = Some e ->
  let st' := snd (pollSignalingServer this st) in
  fst (pollSignalingServer this st) = Ok tt /\
  World.console (world st') = (World.console (world st) ++ [("Polling error: " ++ e)%string])%list /\
  World.requests (world st') =
    (World.requests (world st)
       ++ [Request.mk sig_poll (Render.roomId this) (Render.myPeerId this)])%list /\
  World.rtc_calls (world st') =
    (World.rtc_calls (world st)
       ++ [(length (World.connections (world st)), SetRemoteDescription offer)])%list /\
  length (World.connections (world st')) = S (length (World.connections (world st))) /\
  World.timeouts (world st') =
    (World.timeouts (world st)
       ++ [Timeout.mk 30000 (length (World.connections (world st))) from])%list /\
  session_store st' = session_store st /\
  Store.isConnecting (store st') = true.
Proof.
  intros Hfetch Hoffer Hrej st'. subst st'.
  destruct (pollSignalingServer this st) as [res st'] eqn:Hr.
  unfold pollSignalingServer, try_catch in Hr.
  unfold bind at 1 in Hr. rewrite (sendToSignalingServer_ok this sig_poll st Hfetch) in Hr.
  rewrite Hoffer in Hr. cbv beta iota in Hr.
  match type of Hr with
  | context [bind ?c ?k (requested this sig_poll st)] =>
      rewrite (@bind_run_throw _ _ c k _ _ e
                 (@offer_rejected_run this from offer e (requested this sig_poll st) Hrej))
        in Hr
  end.
  unfold console_error, upd_world, modify in Hr.
  cbn [fst snd store world] in Hr.
  injection Hr as Hr1 Hr2; subst res st'. cbn [fst snd store world].
  split; [reflexivity|]. split; [reflexivity|]. split; [reflexivity|].
  split; [reflexivity|]. split; [|repeat split].
  cbn. rewrite update_nth_length_app, length_app. cbn. lia.
Qed.

Lemma rejected_inbound_offer_contained_witness :
  let st' := snd (pollSignalingServer (snapshot bad_offer_room) bad_offer_room) in
  World.console (world st') = ["Polling error: InvalidAccessError: bad description"] /\
  session_store st' = session_store bad_offer_room.
Proof.
  assert (Hfetch : Oracle.fetch (World.oracle (world bad_offer_room))
                     (length (World.requests (world bad_offer_room))) =
                   Some (Response.mk false None
                           (Some ("p1", RemoteDescription "garbage")) None None None))
    by (vm_compute; reflexivity).
  assert (Hrej : Oracle.rtc (World.oracle (world bad_offer_room))
                   (length (World.rtc_calls (world bad_offer_room))) =
                 Some "InvalidAccessError: bad description")
    by (vm_compute; reflexivity).
  assert (Hcon : World.console (world bad_offer_room) = []) by (vm_compute; reflexivity).
  destruct (@rejected_inbound_offer_contained (snapshot bad_offer_room) bad_offer_room _
              "p1" (RemoteDescription "garbage") _ Hfetch eq_refl Hrej)
    as (_ & Hconsole & _ & _ & _ & _ & Hsess & _).
  split; [|exact Hsess].
  rewrite Hconsole, Hcon. reflexivity.
Defined.

(** ** An offer that is answered *)

Lemma events_run (this : Render.t) (resp : Response.t) (st : State) :
  no_rejection st ->
  exists st2,
    (match Response.answer resp with
     | Some (from, answer) =>
         addMessage System
           (JString ("📨 Received connection answer from " ++ substring 0 6 from))
           false ;;
         match Map_get from (Render.peers this) with
         | Some a =>
             peer <- deref a ;;
             match peer with
             | Some p => pc_setRemoteDescription (PeerConnection.connection p) answer
             | None => ret tt
             end
         | None => ret tt
         end
     | None => ret tt
     end ;;
     match Response.iceCandidates resp with
     | Some candidates =>
         forM candidates (fun '(from, candidate) =>
           match Map_get from (Render.peers this) with
           | Some a =>
               peer <- deref a ;;
               match peer with
               | Some p => pc_addIceCandidate (PeerConnection.connection p) candidate
               | None => ret tt
               end
           | None => ret tt
           end)
     | None => ret tt
     end) st = (Ok tt, st2) /\
    World.rtc_calls (world st2) =
      (World.rtc_calls (world st)
         ++ answer_calls (Render.peers this) (World.heap (world st)) (Response.answer resp)
         ++ candidate_calls (Render.peers this) (World.heap (world st))
              (delivered_candidates resp))%list /\
    session_store st2 = session_store st /\
    World.console (world st2) = World.console (world st) /\
    World.requests (world st2) = World.requests (world st) /\
    World.connections (world st2) = World.connections (world st) /\
    World.timeouts (world st2) = World.timeouts (world st) /\
    Store.isConnecting (store st2) = Store.isConnecting (store st).
Proof.
  intro Hok.
  assert (Hok1 : forall s w, World.oracle w = World.oracle (world st) ->
                             no_rejection (mkState s w)).
  { intros s w E n. cbn [world]. rewrite E. apply Hok. }
  unfold answer_calls, session_connection, delivered_candidates.
  unfold bind at 1.
  destruct (Response.answer resp) as [[from answer]|] eqn:Ea.
  - unfold bind at 1. rewrite addMessage_run.
    destruct (Map_get from (Render.peers this)) as [a|].
    + unfold bind at 1. unfold deref, gets. cbn [fst snd world].
      change (World.heap (tick (world st))) with (World.heap (world st)).
      destruct (nth_error (World.heap (world st)) a) as [p|].
      * unfold pc_setRemoteDescription.
        rewrite called by (apply Hok1; reflexivity).
        destruct (Response.iceCandidates resp) as [cs|].
        -- rewrite candidates_run by (apply Hok1; reflexivity).
           eexists. split; [reflexivity|]. cbn [fst snd store world].
           split; [|repeat split].
           cbn. rewrite <- app_assoc. reflexivity.
        -- unfold ret. eexists. split; [reflexivity|]. repeat split.
      * unfold ret at 1.
        destruct (Response.iceCandidates resp) as [cs|].
        -- rewrite candidates_run by (apply Hok1; reflexivity).
           eexists. split; [reflexivity|]. repeat split.
        -- unfold ret. eexists. split; [reflexivity|].
           cbn. rewrite app_nil_r. repeat split.
    + unfold ret at 1.
      destruct (Response.iceCandidates resp) as [cs|].
      * rewrite candidates_run by (apply Hok1; reflexivity).
        eexists. split; [reflexivity|]. repeat split.
      * unfold ret. eexists. split; [reflexivity|].
        cbn. rewrite app_nil_r. repeat split.
  - unfold ret at 1.
    destruct (Response.iceCandidates resp) as [cs|].
    + rewrite candidates_run by exact Hok.
      eexists. split; [reflexivity|]. repeat split.
    + unfold ret. eexists. split; [reflexivity|].
      cbn. rewrite app_nil_r. repeat split.
Qed.

Lemma offer_answered_run (this : Render.t) (from : string) (offer : Description)
      (st : State) :
  no_rejection st ->
  let pc := length (World.connections (world st)) in
  exists st7,
    (addMessage System
       (JString ("📨 Received connection offer from " ++ substring 0 6 from)) false ;;
     setIsConnecting true ;;
     pc <- createPeerConnection this from false ;;
     pc_setRemoteDescription pc offer ;;
     answer <- pc_createAnswer pc ;;
     pc_setLocalDescription pc answer ;;
     _ <- sendToSignalingServer this (sig_answer from answer) ;;
     setPeers (fun prev =>
       peer <- alloc (new_peer from pc) ;; ret (Map_set from peer prev))) st
    = (Ok tt, st7) /\
    World.rtc_calls (world st7) =
      (World.rtc_calls (world st)
         ++ [(pc, SetRemoteDescription offer); (pc, CreateAnswer);
             (pc, SetLocalDescription (LocalAnswer pc))])%list /\
    World.requests (world st7) =
      (World.requests (world st)
         ++ [Request.mk (sig_answer from (LocalAnswer pc))
               (Render.roomId this) (Render.myPeerId this)])%list /\
    World.connections (world st7) =
      World.connections (responder_world this from (world st)) /\
    World.timeouts (world st7) =
      (World.timeouts (world st) ++ [Timeout.mk 30000 pc from])%list /\
    session_store st7 =
      (Map_set from (length (World.heap (world st))) (Store.peers (store st)),
       (World.heap (world st) ++ [new_peer from pc])%list) /\
    World.console (world st7) =
      (World.console (world st)
         ++ match Oracle.fetch (World.oracle (world st))
                    (length (World.requests (world st))) with
            | Some _ => []
            | None => ["Signaling error: TypeError: Failed to fetch"]
            end)%list /\
    World.oracle (world st7) = World.oracle (world st) /\
    Store.isConnecting (store st7) = true.
Proof.
  intros Hok pc. subst pc.
  assert (Hok1 : forall s w, World.oracle w = World.oracle (world st) ->
                             no_rejection (mkState s w)).
  { intros s w E n. cbn [world]. rewrite E. apply Hok. }
  unfold bind at 1. rewrite addMessage_run.
  unfold bind at 1. unfold setIsConnecting, upd_store, modify at 1.
  unfold bind at 1. rewrite createPeerConnection_responder_run.
  unfold bind at 1. unfold pc_setRemoteDescription.
  rewrite called by (apply Hok1; reflexivity).
  unfold bind at 1. unfold pc_createAnswer. unfold bind at 1.
  rewrite called by (apply Hok1; reflexivity).
  unfold ret at 1.
  unfold bind at 1. unfold pc_setLocalDescription.
  rewrite called by (apply Hok1; reflexivity).
  unfold bind at 1.
  destruct (Oracle.fetch (World.oracle (world st)) (length (World.requests (world st))))
    as [r|] eqn:Hfetch.
  - rewrite sendToSignalingServer_ok with (resp := r) by (cbn; exact Hfetch).
    unfold setPeers, alloc, upd_store, upd_world, modify, bind, gets, ret.
    cbn [fst snd store world].
    eexists. split; [reflexivity|]. cbn [store world].
    split; [cbn; rewrite <- !app_assoc; reflexivity|].
    split; [reflexivity|]. split; [reflexivity|]. split; [reflexivity|].
    split; [reflexivity|]. split; [cbn; rewrite app_nil_r; reflexivity|].
    split; reflexivity.
  - rewrite sendToSignalingServer_failed by (cbn; exact Hfetch).
    unfold setPeers, alloc, upd_store, upd_world, modify, bind, gets, ret.
    unfold request_failed, requested.
    cbn [fst snd store world].
    eexists. split; [reflexivity|]. cbn [store world].
    split; [cbn; rewrite <- !app_assoc; reflexivity|].
    split; [reflexivity|]. split; [reflexivity|]. split; [reflexivity|].
    split; [reflexivity|]. split; [reflexivity|].
    split; reflexivity.
Qed.

(** X22: when a poll brings an offer and no connection call is
    rejected, the poll answers it on a connection of its own: the new
    connection receives, in this order, the offer as remote
    description, [createAnswer], and the answer as local description;
    the answer is posted to the offering peer right after the poll
    request; the connection waits for the peer's data channel and has
    its 30 s timeout pending; a fresh session on that connection is
    registered for the offering peer.  The answer and candidates of
    the same response are then applied as in any poll.  When the post
    of the answer fails, one "Signaling error" line goes to the
    console and everything else happens all the same, the session
    included; when it is answered, nothing goes to the console.
    [isConnecting] is left set. *)
Theorem inbound_offer_answered
        (this : Render.t) (st : State) (resp : Response.t)
        (from : string) (offer : Description) :
  Oracle.fetch (World.oracle (world st)) (length (World.requests (world st))) = Some resp ->
  Response.offer resp = Some (from, offer) ->
  no_rejection st ->
  let pc := length (World.connections (world st)) in
  let st' := snd (pollSignalingServer this st) in
  fst (pollSignalingServer this st) = Ok tt /\
  World.rtc_calls (world st') =
    (World.rtc_calls (world st)
       ++ [(pc, SetRemoteDescription offer); (pc, CreateAnswer);
           (pc, SetLocalDescription (LocalAnswer pc))]
       ++ answer_calls (Render.peers this) (World.heap (world st')) (Response.answer resp)
       ++ candidate_calls (Render.peers this) (World.heap (world st'))
            (delivered_candidates resp))%list /\
  World.requests (world st') =
    (World.requests (world st)
       ++ [Request.mk sig_poll (Render.roomId this) (Render.myPeerId this);
           Request.mk (sig_answer from (LocalAnswer pc))
             (Render.roomId this) (Render.myPeerId this)])%list /\
  nth_error (World.connections (world st')) pc =
    Some (RTCPeerConnection.mk pcs_new ice_new from this true) /\
  World.timeouts (world st') =
    (World.timeouts (world st) ++ [Timeout.mk 30000 pc from])%list /\
  session_store st' =
    (Map_set from (length (World.heap (world st))) (Store.peers (store st)),
     (World.heap (world st) ++ [new_peer from pc])%list) /\
  World.console (world st') =
    (World.console (world st)
       ++ match Oracle.fetch (World.oracle (world st))
                  (S (length (World.requests (world st)))) with
          | Some _ => []
          | None => ["Signaling error: TypeError: Failed to fetch"]
          end)%list /\
  Store.isConnecting (store st') = true.
Proof.
  intros Hfetch Hoffer Hok pc st'. subst st' pc.
  destruct (pollSignalingServer this st) as [res st'] eqn:Hr.
  unfold pollSignalingServer, try_catch in Hr.
  unfold bind at 1 in Hr. rewrite (sendToSignalingServer_ok this sig_poll st Hfetch) in Hr.
  rewrite Hoffer in Hr. cbv beta iota in Hr.
  assert (Hok1 : no_rejection (requested this sig_poll st)) by exact Hok.
  destruct (@offer_answered_run this from offer _ Hok1)
    as (st7 & Hrun & Hcalls & Hreqs & Hconns & Htos & Hsess & Hcons & Hor & Hconn).
  match type of Hr with
  | context [bind ?c ?k (requested this sig_poll st)] =>
      rewrite (@bind_run_ok _ _ c k _ _ _ Hrun) in Hr
  end.
  assert (Hok7 : no_rejection st7) by (intro n; rewrite Hor; apply Hok).
  destruct (@events_run this resp st7 Hok7)
    as (st9 & Hrun' & Hcalls' & Hsess' & Hcons' & Hreqs' & Hconns' & Htos' & Hconn').
  rewrite Hrun' in Hr. injection Hr as Hr1 Hr2. subst res st'.
  assert (Hheap' : World.heap (world st9) = World.heap (world st7)).
  { unfold session_store in Hsess'. injection Hsess' as _ H. exact H. }
  cbn [fst snd].
  split; [reflexivity|].
  split; [rewrite Hcalls', Hcalls, Hheap'; cbn [requested world World.rtc_calls set_requests];
          rewrite <- app_assoc; reflexivity|].
  split; [rewrite Hreqs', Hreqs; cbn; rewrite <- app_assoc; reflexivity|].
  split.
  { rewrite Hconns', Hconns. unfold responder_world.
    cbn [requested world World.connections set_connections set_next_timer set_timeouts
         set_requests].
    rewrite nth_error_update_nth, Nat.eqb_refl.
    rewrite nth_error_app2 by apply Nat.le_refl. rewrite Nat.sub_diag. reflexivity. }
  split; [rewrite Htos', Htos; reflexivity|].
  split; [rewrite Hsess', Hsess; reflexivity|].
  split.
  { rewrite Hcons', Hcons.
    cbn [requested world store World.console World.oracle World.requests set_requests].
    rewrite length_app, Nat.add_1_r. reflexivity. }
  rewrite Hconn'. exact Hconn.
Qed.

Lemma inbound_offer_answered_witness :
  let st' := snd (pollSignalingServer (snapshot reoffer_lobby) reoffer_room) in
  World.rtc_calls (world st') =
    (World.rtc_calls (world reoffer_room)
       ++ [(1, SetRemoteDescription (RemoteDescription "v=0")); (1, CreateAnswer);
           (1, SetLocalDescription (LocalAnswer 1))])%list /\
  World.requests (world st') =
    (World.requests (world reoffer_room)
       ++ [Request.mk sig_poll "ABC123" "me";
           Request.mk (sig_answer "p1" (LocalAnswer 1)) "ABC123" "me"])%list.
Proof.
  assert (Hfetch : Oracle.fetch (World.oracle (world reoffer_room))
                     (length (World.requests (world reoffer_room))) =
                   Some (Response.mk false None
                           (Some ("p1", RemoteDescription "v=0")) None None None))
    by (vm_compute; reflexivity).
  assert (Hok : no_rejection reoffer_room) by (intro n; vm_compute; reflexivity).
  assert (Hpc : length (World.connections (world reoffer_room)) = 1)
    by (vm_compute; reflexivity).
  destruct (@inbound_offer_answered (snapshot reoffer_lobby) reoffer_room _
              "p1" (RemoteDescription "v=0") Hfetch eq_refl Hok)
    as (_ & Hcalls & Hreqs & _).
  rewrite Hpc in Hcalls, Hreqs.
  split.
  - rewrite Hcalls. cbn [answer_calls Response.answer delivered_candidates
                         Response.iceCandidates candidate_calls app].
    reflexivity.
  - rewrite Hreqs. reflexivity.
Defined.

(** ** Notifications that only log *)

Lemma ice_event_activity (pc : nat) (s : RTCIceConnectionState) :
  stable (keeps activity) (handle (IceConnectionStateChange pc s)).
Proof. unfold handle. keeps_split activity. Qed.

Lemma ice_event_connecting (pc : nat) (s : RTCIceConnectionState) :
  stable (keeps (fun st => Store.isConnecting (store st)))
    (handle (IceConnectionStateChange pc s)).
Proof. unfold handle. keeps_split (fun st => Store.isConnecting (store st)). Qed.

(** X23: when a connection that is not closed reports the ICE state
    "failed", the handler logs the state and a message that says
    "Retrying...", and retries nothing: no request is posted, no call
    is made on any connection, no timer is set or cleared, nothing is
    transmitted and the sessions are as they were; [isConnecting] keeps
    its value. *)
Theorem ice_failure_retries_nothing (st : State) (pc : nat) (c : RTCPeerConnection.t) :
  nth_error (World.connections (world st)) pc = Some c ->
  RTCPeerConnection.connectionState c <> pcs_closed ->
  let target := RTCPeerConnection.targetPeerId c in
  let st' := step st (IceConnectionStateChange pc ice_failed) in
  log_contents st' =
    (log_contents st
       ++ [JString ("🔗 ICE connection with " ++ substring 0 6 target ++ ": failed");
           JString ("❌ Connection failed with " ++ substring 0 6 target
                    ++ ". Retrying...")])%list /\
  activity st' = activity st /\
  Store.isConnecting (store st') = Store.isConnecting (store st).
Proof.
  intros Hc Hlive target st'. subst st'.
  split; [|split; [apply ice_event_activity | apply ice_event_connecting]].
  unfold step, handle. unfold bind at 1.
  rewrite (@live_connection_run pc st c Hc Hlive).
  unfold bind at 1. unfold set_iceConnectionState, upd_world, modify.
  unfold pc_oniceconnectionstatechange.
  unfold bind at 1. unfold pc_iceConnectionState, gets.
  cbn [fst snd world store World.connections set_connections].
  rewrite (nth_error_update_nth_eq _ _ _ Hc).
  cbn [RTCPeerConnection.iceConnectionState].
  unfold bind at 1. rewrite addMessage_run. rewrite addMessage_run.
  unfold log_contents. cbn [snd store Store.messages set_messages].
  rewrite !map_app. cbn [map next_message Message.content].
  rewrite <- app_assoc. reflexivity.
Qed.

Lemma ice_failure_retries_nothing_witness :
  activity (step example_room (IceConnectionStateChange 0 ice_failed)) =
  activity example_room.
Proof.
  assert (H : exists c,
             nth_error (World.connections (world example_room)) 0 = Some c /\
             RTCPeerConnection.connectionState c = pcs_connected)
    by (vm_compute; eexists; repeat split).
  destruct H as (c & Hc & Hstate).
  assert (Hlive : RTCPeerConnection.connectionState c <> pcs_closed)
    by (rewrite Hstate; discriminate).
  exact (proj1 (proj2 (@ice_failure_retries_nothing example_room 0 c Hc Hlive))).
Defined.

(** ** Local ICE candidates *)

Lemma candidate_event_calls (pc : nat) (candidate : option Candidate) :
  stable (keeps (fun st => World.rtc_calls (world st)))
    (handle (IceCandidateEvent pc candidate)).
Proof. unfold handle. keeps_split (fun st => World.rtc_calls (world st)). Qed.

Lemma candidate_event_sessions (pc : nat) (candidate : option Candidate) :
  stable (keeps session_store) (handle (IceCandidateEvent pc candidate)).
Proof. unfold handle. keeps_split session_store. Qed.

(** X24: a local ICE candidate found on a connection that is not closed
    is posted to the signaling service, addressed to the connection's
    peer, under the room and peer identifiers of the render that
    created the connection: one request, and nothing else (no call on a
    connection, no change of session, nothing transmitted).  The
    end-of-candidates notification (no candidate) changes nothing at
    all. *)
Theorem local_candidate_forwarded (st : State) (pc : nat) (c : RTCPeerConnection.t)
        (candidate : Candidate) :
  nth_error (World.connections (world st)) pc = Some c ->
  RTCPeerConnection.connectionState c <> pcs_closed ->
  let st' := step st (IceCandidateEvent pc (Some candidate)) in
  World.requests (world st') =
    (World.requests (world st)
       ++ [Request.mk (sig_ice_candidate (RTCPeerConnection.targetPeerId c) candidate)
             (Render.roomId (RTCPeerConnection.env c))
             (Render.myPeerId (RTCPeerConnection.env c))])%list /\
  World.rtc_calls (world st') = World.rtc_calls (world st) /\
  session_store st' = session_store st /\
  World.wire (world st') = World.wire (world st) /\
  step st (IceCandidateEvent pc None) = st.
Proof.
  intros Hc Hlive st'. subst st'.
  split; [|split; [apply candidate_event_calls
                   |split; [apply candidate_event_sessions
                           |split; [apply (@handle_keeps_wire
                                             (IceCandidateEvent pc (Some candidate)));
                                    discriminate|]]]].
  - unfold step, handle. unfold bind at 1.
    rewrite (@live_connection_run pc st c Hc Hlive).
    unfold pc_onicecandidate. unfold bind at 1.
    pose proof (sendToSignalingServer_requests (RTCPeerConnection.env c)
                  (sig_ice_candidate (RTCPeerConnection.targetPeerId c) candidate) st)
      as Hreq.
    destruct (sendToSignalingServer_returns (RTCPeerConnection.env c)
                (sig_ice_candidate (RTCPeerConnection.targetPeerId c) candidate) st)
      as [r Hr].
    destruct (sendToSignalingServer (RTCPeerConnection.env c)
                (sig_ice_candidate (RTCPeerConnection.targetPeerId c) candidate) st)
      as [res st1].
    cbn [fst snd] in Hreq, Hr. subst res. exact Hreq.
  - unfold step, handle. unfold bind at 1.
    rewrite (@live_connection_run pc st c Hc Hlive). reflexivity.
Qed.

Lemma local_candidate_forwarded_witness :
  World.requests (world (step example_room (IceCandidateEvent 0 (Some "candidate:7")))) =
  (World.requests (world example_room)
     ++ [Request.mk (sig_ice_candidate "p1" "candidate:7") "ABC123" "me"])%list.
Proof.
  assert (H : exists c,
             nth_error (World.connections (world example_room)) 0 = Some c /\
             RTCPeerConnection.connectionState c = pcs_connected /\
             RTCPeerConnection.targetPeerId c = "p1" /\
             Render.roomId (RTCPeerConnection.env c) = "ABC123" /\
             Render.myPeerId (RTCPeerConnection.env c) = "me")
    by (vm_compute; eexists; repeat split).
  destruct H as (c & Hc & Hstate & Htarget & Hroom & Hme).
  assert (Hlive : RTCPeerConnection.connectionState c <> pcs_closed)
    by (rewrite Hstate; discriminate).
  destruct (@local_candidate_forwarded example_room 0 c "candidate:7" Hc Hlive)
    as (Hreq & _).
  rewrite Htarget, Hroom, Hme in Hreq. exact Hreq.
Defined.

(** ** A data channel offered by the peer *)

Lemma channel_open_session (st : State) (dc : nat) (c : RTCDataChannel.t)
      (k : string) (a : nat) (p : PeerConnection.t) :
  nth_error (World.channels (world st)) dc = Some c ->
  RTCDataChannel.handlers c = Some k ->
  Map_get k (Store.peers (store st)) = Some a ->
  nth_error (World.heap (world st)) a = Some p ->
  let st1 := step st (ChannelOpen dc) in
  Store.peers (store st1) = Store.peers (store st) /\
  nth_error (World.heap (world st1)) a = Some (with_channel dc p) /\
  open_channel (world st1) a = Some dc.
Proof.
  intros Hc Hk Hget Hp st1. subst st1.
  rewrite (@channel_open_run st dc c k Hc Hk).
  destruct (onopen_fields dc k (snd (set_readyState dcs_open dc st)))
    as (Hpeers & Hheap & Hchans & _).
  generalize dependent (snd (dataChannel_onopen dc k (snd (set_readyState dcs_open dc st)))).
  intros st1 Hpeers Hheap Hchans.
  unfold set_readyState, upd_world, modify in Hpeers, Hheap, Hchans.
  cbn [snd store world World.heap World.channels set_channels] in Hpeers, Hheap, Hchans.
  rewrite Hget in Hpeers, Hheap. rewrite (Map_set_same _ _ Hget) in Hpeers.
  assert (Hobj : nth_error (World.heap (world st1)) a = Some (with_channel dc p)).
  { rewrite Hheap. apply nth_error_update_nth_eq. exact Hp. }
  split; [exact Hpeers|]. split; [exact Hobj|].
  unfold open_channel. rewrite Hobj. cbn [PeerConnection.dataChannel with_channel].
  rewrite Hchans, (nth_error_update_nth_eq _ _ _ Hc). reflexivity.
Qed.

Lemma datachannel_event_run (st : State) (pc : nat) (c : RTCPeerConnection.t) :
  nth_error (World.connections (world st)) pc = Some c ->
  RTCPeerConnection.connectionState c <> pcs_closed ->
  RTCPeerConnection.ondatachannel c = true ->
  let st1 := step st (DataChannelEvent pc) in
  store st1 = store st /\
  World.heap (world st1) = World.heap (world st) /\
  nth_error (World.channels (world st1)) (length (World.channels (world st))) =
    Some (RTCDataChannel.mk dcs_connecting pc (Some (RTCPeerConnection.targetPeerId c))).
Proof.
  intros Hc Hlive Hon st1. subst st1. unfold step.
  destruct (handle (DataChannelEvent pc) st) as [res st1] eqn:Hrun.
  unfold handle in Hrun.
  rewrite (@bind_run_ok _ _ _ _ st st (Some c) (@live_connection_run pc st c Hc Hlive))
    in Hrun.
  rewrite Hon in Hrun. unfold pc_ondatachannel, setupDataChannel in Hrun.
  unfold bind, gets, upd_world, modify in Hrun. cbn [fst snd store world] in Hrun.
  injection Hrun as Hr1 Hr2. subst res st1. cbn [snd store world].
  split; [reflexivity|]. split; [reflexivity|].
  cbn [World.channels set_channels].
  rewrite nth_error_update_nth, Nat.eqb_refl.
  rewrite nth_error_app2 by apply Nat.le_refl. rewrite Nat.sub_diag. reflexivity.
Qed.

(** X25: on a connection created to answer an offer, the data channel
    the peer opens is adopted: when the browser announces the channel
    and the channel then opens, it is recorded in the session of the
    connection's peer, which from then on has an open channel. *)
Theorem remote_channel_adopted (st : State) (pc : nat) (c : RTCPeerConnection.t)
        (a : nat) (p : PeerConnection.t) :
  nth_error (World.connections (world st)) pc = Some c ->
  RTCPeerConnection.connectionState c <> pcs_closed ->
  RTCPeerConnection.ondatachannel c = true ->
  Map_get (RTCPeerConnection.targetPeerId c) (Store.peers (store st)) = Some a ->
  nth_error (World.heap (world st)) a = Some p ->
  let dc := length (World.channels (world st)) in
  let st' := run st [DataChannelEvent pc; ChannelOpen dc] in
  Store.peers (store st') = Store.peers (store st) /\
  nth_error (World.heap (world st')) a = Some (with_channel dc p) /\
  open_channel (world st') a = Some dc.
Proof.
  intros Hc Hlive Hon Hget Hp dc st'. subst st' dc. cbn [run fold_left].
  destruct (@datachannel_event_run st pc c Hc Hlive Hon) as (Hstore & Hheap & Hchan).
  revert Hstore Hheap Hchan. generalize (step st (DataChannelEvent pc)).
  intros st1 Hstore Hheap Hchan.
  rewrite <- Hstore in Hget |- *. rewrite <- Hheap in Hp.
  exact (@channel_open_session st1 _ _ _ a p Hchan eq_refl Hget Hp).
Qed.

Lemma remote_channel_adopted_witness :
  open_channel (world (run offered_room [DataChannelEvent 0; ChannelOpen 0])) 0 = Some 0.
Proof.
  assert (H : exists c p,
             nth_error (World.connections (world offered_room)) 0 = Some c /\
             RTCPeerConnection.connectionState c = pcs_new /\
             RTCPeerConnection.ondatachannel c = true /\
             Map_get (RTCPeerConnection.targetPeerId c)
               (Store.peers (store offered_room)) = Some 0 /\
             nth_error (World.heap (world offered_room)) 0 = Some p /\
             length (World.channels (world offered_room)) = 0)
    by (vm_compute; do 2 eexists; repeat split).
  destruct H as (c & p & Hc & Hstate & Hon & Hget & Hp & Hlen).
  assert (Hlive : RTCPeerConnection.connectionState c <> pcs_closed)
    by (rewrite Hstate; discriminate).
  destruct (@remote_channel_adopted offered_room 0 c 0 p Hc Hlive Hon Hget Hp)
    as (_ & _ & Hopen).
  rewrite Hlen in Hopen. exact Hopen.
Defined.

(** ** A channel that reports an error, a channel that closes *)

Lemma channel_error_activity (dc : nat) (error : string) :
  stable (keeps activity) (handle (ChannelError dc error)).
Proof. unfold handle. keeps_split activity. Qed.

Lemma channel_error_world (dc : nat) (error : string) :
  stable (keeps (fun st => (World.channels (world st), World.connections (world st))))
    (handle (ChannelError dc error)).
Proof.
  unfold handle.
  keeps_split (fun st => (World.channels (world st), World.connections (world st))).
Qed.

(** X26: an error reported by a channel is logged and nothing else
    happens: the session and its channel stay registered, no channel or
    connection changes state, nothing is posted, called or
    transmitted. *)
Theorem channel_error_only_logs (st : State) (dc : nat) (c : RTCDataChannel.t)
        (k : string) (error : string) :
  nth_error (World.channels (world st)) dc = Some c ->
  RTCDataChannel.handlers c = Some k ->
  let st' := step st (ChannelError dc error) in
  log_contents st' =
    (log_contents st
       ++ [JString ("❌ Chat error with " ++ substring 0 6 k ++ ": " ++ error)])%list /\
  activity st' = activity st /\
  World.channels (world st') = World.channels (world st) /\
  World.connections (world st') = World.connections (world st).
Proof.
  intros Hc Hk st'. subst st'.
  pose proof (channel_error_world dc error st) as Hw. unfold keeps in Hw.
  injection Hw as Hchans Hconns.
  split; [|split; [apply channel_error_activity | split; [exact Hchans | exact Hconns]]].
  unfold step, handle. unfold bind at 1. unfold channel, gets. rewrite Hc.
  cbn [fst snd]. rewrite Hk. unfold dataChannel_onerror. rewrite addMessage_run.
  unfold log_contents. cbn [snd store Store.messages set_messages].
  rewrite map_app. reflexivity.
Qed.

Lemma channel_error_only_logs_witness :
  activity (step example_room (ChannelError 0 "boom")) = activity example_room.
Proof.
  assert (H : exists c,
             nth_error (World.channels (world example_room)) 0 = Some c /\
             RTCDataChannel.handlers c = Some "p1")
    by (vm_compute; eexists; repeat split).
  destruct H as (c & Hc & Hk).
  exact (proj1 (proj2 (@channel_error_only_logs example_room 0 c "p1" "boom" Hc Hk))).
Defined.

Lemma open_channel_closed (w : World.t) (dc a : nat) :
  (forall c, nth_error (World.channels w) dc = Some c ->
             RTCDataChannel.readyState c <> dcs_open) ->
  open_channel w a <> Some dc.
Proof.
  intro Hclosed. unfold open_channel.
  destruct (nth_error (World.heap w) a) as [p|]; [|discriminate].
  destruct (PeerConnection.dataChannel p) as [d|]; [|discriminate].
  destruct (nth_error (World.channels w) d) as [c|] eqn:Ec; [|discriminate].
  destruct (RTCDataChannel.readyState c) eqn:Er; try discriminate.
  intro E. injection E as E. subst d. apply (Hclosed c Ec). exact Er.
Qed.

Lemma open_channels_not_In (w : World.t) (dc : nat) (addrs : list nat) :
  (forall a, open_channel w a <> Some dc) -> ~ In dc (open_channels w addrs).
Proof.
  intro H. induction addrs as [|a rest IH]; simpl; [intros []|].
  destruct (open_channel w a) as [d|] eqn:E; [|exact IH].
  intros [Hd|Hin]; [|exact (IH Hin)]. subst d. exact (H a E).
Qed.

(** X27: the page has no handler for a channel that closes: the
    sessions, the log and the count of connected peers stay as they
    were.  The closed channel is no longer an open channel of any
    session, and a message sent from the page afterwards is not
    transmitted on it. *)
Theorem closed_channel_skipped (st : State) (dc : nat) :
  let st1 := step st (ChannelClose dc) in
  store st1 = store st /\
  World.heap (world st1) = World.heap (world st) /\
  connected_count st1 = connected_count st /\
  (forall a, open_channel (world st1) a <> Some dc) /\
  (forall payload,
      In (dc, payload) (World.wire (world (step st1 UserSendMessage))) ->
      In (dc, payload) (World.wire (world st))).
Proof.
  intro st1.
  assert (Hstore : store st1 = store st) by reflexivity.
  assert (Hheap : World.heap (world st1) = World.heap (world st)) by reflexivity.
  assert (Hwire : World.wire (world st1) = World.wire (world st)) by reflexivity.
  assert (Hclosed : forall a, open_channel (world st1) a <> Some dc).
  { intro a. apply open_channel_closed. intros c Hc.
    subst st1. unfold step, handle, set_readyState, upd_world, modify in Hc.
    cbn [snd world World.channels set_channels] in Hc.
    rewrite nth_error_update_nth, Nat.eqb_refl in Hc.
    destruct (nth_error (World.channels (world st)) dc) as [c0|]; [|discriminate].
    cbn [option_map] in Hc. injection Hc as Hc. subst c. discriminate. }
  clearbody st1.
  split; [exact Hstore|]. split; [exact Hheap|].
  split; [unfold connected_count; rewrite Hstore, Hheap; reflexivity|].
  split; [exact Hclosed|].
  intros payload Hin. rewrite send_event_run in Hin. rewrite <- Hwire.
  destruct (sendMessage_transmits (snapshot st1) st1) as (dcs & Hsent & Hincl).
  rewrite Hsent in Hin.
  apply in_app_or in Hin. destruct Hin as [Hold|Hnew]; [exact Hold|].
  apply in_map_iff in Hnew. destruct Hnew as (d & Hd & Hdin).
  injection Hd as Hd _. subst d.
  exfalso. exact (@open_channels_not_In _ dc _ Hclosed (Hincl _ Hdin)).
Qed.

Lemma closed_channel_skipped_witness :
  ~ In (0, chat_payload (snapshot example_typing))
      (World.wire (world (step (step example_typing (ChannelClose 0)) UserSendMessage))).
Proof.
  intro Hin.
  destruct (closed_channel_skipped example_typing 0) as (_ & _ & _ & _ & Hskip).
  apply Hskip in Hin.
  assert (Hwire : World.wire (world example_typing) = []) by (vm_compute; reflexivity).
  rewrite Hwire in Hin. exact Hin.
Defined.

(** ** Timeouts after leaving *)

Lemma leave_event_world (st : State) :
  world (step st UserLeaveRoom) = tick (left_world (snapshot st) st) /\
  Store.messages (store (step st UserLeaveRoom)) =
    (Store.messages (store st)
       ++ [next_message (left_world (snapshot st) st) System
             (JString "👋 Left the room") false])%list.
Proof. rewrite leave_event_run, leaveRoom_run. split; reflexivity. Qed.

Lemma left_world_base (this : Render.t) (st : State) :
  exists w1,
    left_world this st =
      close_all
        (map PeerConnection.connection
           (sessions (World.heap (world st)) (Map_values (Render.peers this)))) w1 /\
    World.connections w1 = World.connections (world st) /\
    World.timeouts w1 = World.timeouts (world st).
Proof.
  unfold left_world. destruct (Store.pollingRef (store st)); eexists; repeat split.
Qed.

(** X28: leaving the room cancels no connection timeout.  A timeout
    pending for the connection of a session of the collection is still
    pending after [leaveRoom] closed that connection; when it fires it
    finds the connection not connected and logs the timeout diagnostic
    for the peer, after the user has left. *)
Theorem timeout_fires_after_leave (st : State) (k : nat) (t : Timeout.t)
        (peerId : string) (a : nat) (p : PeerConnection.t) (c : RTCPeerConnection.t) :
  nth_error (World.timeouts (world st)) k = Some t ->
  Map_get peerId (Store.peers (store st)) = Some a ->
  nth_error (World.heap (world st)) a = Some p ->
  PeerConnection.connection p = Timeout.pc t ->
  nth_error (World.connections (world st)) (Timeout.pc t) = Some c ->
  let st1 := step st UserLeaveRoom in
  let st2 := step st1 (TimeoutFires k) in
  World.timeouts (world st1) = World.timeouts (world st) /\
  connection_is_connected st1 (Timeout.pc t) = false /\
  log_contents st2 =
    (log_contents st1
       ++ [JString ("⏰ Connection timeout with " ++ substring 0 6 (Timeout.targetPeerId t)
                    ++ ". The peer might be offline or behind a restrictive firewall.")])%list.
Proof.
  intros Ht Hget Hp Hpc Hc st1 st2. subst st2 st1.
  destruct (leave_event_world st) as (Hworld & _).
  destruct (left_world_base (snapshot st) st) as (w1 & Hleft & Hconns & Htos).
  assert (Htimeouts : World.timeouts (world (step st UserLeaveRoom)) =
                      World.timeouts (world st)).
  { rewrite Hworld, Hleft. unfold tick.
    cbn [World.timeouts set_draws set_clock]. rewrite close_all_timeouts. exact Htos. }
  assert (Hclosed : connection_is_connected (step st UserLeaveRoom) (Timeout.pc t) = false).
  { unfold connection_is_connected. rewrite Hworld, Hleft. unfold tick.
    cbn [World.connections set_draws set_clock].
    assert (Hc1 : nth_error (World.connections w1) (Timeout.pc t) = Some c)
      by (rewrite Hconns; exact Hc).
    destruct (@close_all_closes
                (map PeerConnection.connection
                   (sessions (World.heap (world st))
                      (Map_values (Render.peers (snapshot st)))))
                w1 (Timeout.pc t) c Hc1) as (c' & Hc' & Hstate).
    { left. rewrite <- Hpc. apply in_map.
      apply (@sessions_In _ _ a p); [|exact Hp].
      apply (@Map_get_In_values nat peerId a _ Hget). }
    rewrite Hc', Hstate. reflexivity. }
  split; [exact Htimeouts|]. split; [exact Hclosed|].
  revert Htimeouts Hclosed. generalize (step st UserLeaveRoom). intros st1 Htimeouts Hclosed.
  unfold step at 1. unfold handle.
  rewrite (@bind_run_ok _ _ _ _ st1 st1 (Some t)).
  2:{ unfold gets. rewrite Htimeouts, Ht. reflexivity. }
  unfold bind at 1. unfold upd_world, modify.
  rewrite connection_timeout_run.
  unfold connection_is_connected in Hclosed |- *.
  cbn [world World.connections set_timeouts]. 
  destruct (nth_error (World.connections (world st1)) (Timeout.pc t)) as [c1|].
  - destruct (RTCPeerConnection.connectionState c1); try discriminate Hclosed;
      unfold log_contents; cbn [snd store Store.messages set_messages set_isConnecting];
      rewrite map_app; reflexivity.
  - unfold log_contents. cbn [snd store Store.messages set_messages set_isConnecting].
    rewrite map_app. reflexivity.
Qed.

Lemma timeout_fires_after_leave_witness :
  connection_is_connected (step example_room UserLeaveRoom) 0 = false /\
  World.timeouts (world (step example_room UserLeaveRoom)) =
  World.timeouts (world example_room).
Proof.
  assert (H : exists t p c,
             nth_error (World.timeouts (world example_room)) 0 = Some t /\
             Map_get "p1" (Store.peers (store example_room)) = Some 0 /\
             nth_error (World.heap (world example_room)) 0 = Some p /\
             PeerConnection.connection p = Timeout.pc t /\
             nth_error (World.connections (world example_room)) (Timeout.pc t) = Some c)
    by (vm_compute; do 3 eexists; repeat split).
  destruct H as (t & p & c & Ht & Hget & Hp & Hpc & Hc).
  assert (Ht0 : Timeout.pc t = 0).
  { assert (E : option_map Timeout.pc (nth_error (World.timeouts (world example_room)) 0)
                = Some 0) by (vm_compute; reflexivity).
    rewrite Ht in E. cbn [option_map] in E. injection E as E. exact E. }
  destruct (@timeout_fires_after_leave example_room 0 t "p1" 0 p c Ht Hget Hp Hpc Hc)
    as (Htos & Hclosed & _).
  rewrite Ht0 in Hclosed. split; [exact Hclosed | exact Htos].
Defined.
